(** * Copilot Orchestra: the command-line tools, the start script and the
    quality-assurance role definition, embedded and verified.

    Part I holds the embedding, one module per source file:
    - [JS]            the JavaScript built-ins the tools rely on
                      (strings, [parseInt], array indexing, regular
                      expressions);
    - [ProjectInit]   tools/project-init.js;
    - [Blueprint]     tools/blueprint-generator.js ([analyzeProjectInfo]);
    - [ErrorRecovery] tools/error-recovery.js;
    - [StartScript]   .roo/local-rag-llamaindex/start.sh;
    - [Node]          the file system, JSON values and commands the two
                      scanning tools see;
    - [QA]            .github/agents/quality-assurance-subagent.agent.md;
    - [ProjectInitReview]  tools/project-init.js (the review line of an
                      endpoint);
    - [BlueprintAnalysis]  tools/blueprint-generator.js (file structure,
                      dependencies, patterns, recommendations);
    - [ProjectInitTemplates]  tools/project-init.js (the lines of
                      .env.example);
    - [SetupWizard]   tools/setup-wizard.js (the steps of the wizard and
                      its run);
    - [ErrorRecoveryCLI]   tools/error-recovery.js (the command line).
    Part II holds the properties, in modules of facts that follow the
    modules of Part I. *)

From Stdlib Require Import ZArith NArith List String Ascii Bool Lia.
From stdpp Require Import base option gmap strings list pretty.

Set Warnings "-register-all".

Local Open Scope string_scope.
Local Open Scope list_scope.
Local Open Scope stdpp_scope.

(* ===================================================================== *)
(** * Part I: the embedding                                               *)
(* ===================================================================== *)

(** ** JavaScript built-ins *)

Module JS.

(** A JavaScript string is a sequence of UTF-16 code units. *)
Definition jsstring : Type := list N.

(** The code units of an ASCII literal. *)
Definition js (s : string) : jsstring :=
  map N_of_ascii (list_ascii_of_string s).

Fixpoint streq (a b : jsstring) : bool :=
  match a, b with
  | [], [] => true
  | x :: a', y :: b' => (x =? y)%N && streq a' b'
  | _, _ => false
  end.

(** ToBoolean on a string: only the empty string is falsy. *)
Definition truthy (s : jsstring) : bool :=
  match s with [] => false | _ => true end.

(** ECMAScript LineTerminator. *)
Definition isLineTerminator (c : N) : bool :=
  ((c =? 10) || (c =? 13) || (c =? 0x2028) || (c =? 0x2029))%N.

(** ECMAScript WhiteSpace: TAB, VT, FF, SP, NBSP, ZWNBSP and the
    Unicode space separators. *)
Definition isWhiteSpace (c : N) : bool :=
  ((c =? 9) || (c =? 11) || (c =? 12) || (c =? 32) || (c =? 160)
   || (c =? 0xFEFF) || (c =? 0x1680)
   || ((0x2000 <=? c) && (c <=? 0x200A))
   || (c =? 0x202F) || (c =? 0x205F) || (c =? 0x3000))%N.

(** StrWhiteSpaceChar, which is also the class [\s] of regular
    expressions. *)
Definition isSpace (c : N) : bool := isWhiteSpace c || isLineTerminator c.

Fixpoint trimStart (s : jsstring) : jsstring :=
  match s with
  | c :: s' => if isSpace c then trimStart s' else s
  | [] => []
  end.

Definition trimEnd (s : jsstring) : jsstring := rev (trimStart (rev s)).

(** String.prototype.trim *)
Definition trim (s : jsstring) : jsstring := trimEnd (trimStart s).

(** String.prototype.split with a one-unit separator. The result is
    never empty: splitting the empty string gives one empty piece. *)
Fixpoint split (sep : N) (s : jsstring) : list jsstring :=
  match s with
  | [] => [[]]
  | c :: s' =>
      if (c =? sep)%N then [] :: split sep s'
      else match split sep s' with
           | p :: ps => (c :: p) :: ps
           | [] => [[c]]
           end
  end.

(** Array.prototype.join *)
Fixpoint join (sep : jsstring) (l : list jsstring) : jsstring :=
  match l with
  | [] => []
  | [x] => x
  | x :: l' => x ++ sep ++ join sep l'
  end.

(** Case mapping on the ASCII letters. String.prototype.toUpperCase and
    toLowerCase are applied by the tools only to operands on which they
    agree with these: [toUpperCase] to the first group of the endpoint
    expression, which holds ASCII letters only, and [toLowerCase] to
    answers that are then compared with 'y' and 'yes', whose letters are
    the lower case of no code unit but their own ASCII capitals. *)
Definition upperUnit (c : N) : N :=
  if ((97 <=? c) && (c <=? 122))%N then (c - 32)%N else c.

Definition lowerUnit (c : N) : N :=
  if ((65 <=? c) && (c <=? 90))%N then (c + 32)%N else c.

Definition toUpperCase (s : jsstring) : jsstring := map upperUnit s.
Definition toLowerCase (s : jsstring) : jsstring := map lowerUnit s.

(** *** parseInt

    [parseInt(string)] with no radix, after ECMAScript 19.2.5. The
    result is [None] for NaN and the mathematical integer otherwise.
    JavaScript rounds integers beyond 2^53 to the nearest double; the
    tools only compare the result with array indices below ten, which
    rounding cannot affect. *)

Definition digitValue (c : N) : option Z :=
  if ((48 <=? c) && (c <=? 57))%N then Some (Z.of_N c - 48)%Z
  else if ((97 <=? c) && (c <=? 122))%N then Some (Z.of_N c - 87)%Z
  else if ((65 <=? c) && (c <=? 90))%N then Some (Z.of_N c - 55)%Z
  else None.

Definition radixDigit (R : Z) (c : N) : option Z :=
  match digitValue c with
  | Some d => if (d <? R)%Z then Some d else None
  | None => None
  end.

(** The longest prefix of digits of radix [R], as their values. *)
Fixpoint digitPrefix (R : Z) (s : jsstring) : list Z :=
  match s with
  | c :: s' =>
      match radixDigit R c with
      | Some d => d :: digitPrefix R s'
      | None => []
      end
  | [] => []
  end.

Definition digitsValue (R : Z) (ds : list Z) : Z :=
  fold_left (fun acc d => acc * R + d)%Z ds 0%Z.

Definition parseInt (input : jsstring) : option Z :=
  let S1 := trimStart input in
  let sign := match S1 with 45%N :: _ => (-1)%Z | _ => 1%Z end in
  let S2 := match S1 with
            | 43%N :: r => r
            | 45%N :: r => r
            | _ => S1
            end in
  let '(R, S3) := match S2 with
                  | 48%N :: 120%N :: r => (16%Z, r)
                  | 48%N :: 88%N :: r => (16%Z, r)
                  | _ => (10%Z, S2)
                  end in
  match digitPrefix R S3 with
  | [] => None
  | ds => Some (sign * digitsValue R ds)%Z
  end.

(** [arr[n]] for a number [n] ([None] is NaN): the element when [n] is an
    index of the array, [undefined] otherwise. *)
Definition index {A} (arr : list A) (n : option Z) : option A :=
  match n with
  | Some z => if (0 <=? z)%Z then nth_error arr (Z.to_nat z) else None
  | None => None
  end.

(** [n - 1] on numbers; NaN - 1 is NaN. *)
Definition pred1 (n : option Z) : option Z :=
  match n with Some z => Some (z - 1)%Z | None => None end.

(** *** Regular expressions

    The fragment the wizard's two expressions are written in. Matching
    is by backtracking; [ways] lists every way of matching a prefix of
    the subject in the order in which a backtracking matcher tries them
    (left alternative first, longest repetition first), so that the
    head of the list is the match JavaScript reports. *)

Inductive regex : Type :=
| Char (p : N -> bool)      (* one code unit of a class *)
| Seq (r1 r2 : regex)
| Alt (r1 r2 : regex)
| Star (p : N -> bool)      (* greedy repetition of a class *)
| Group (r : regex)         (* capturing parentheses *)
| End.                      (* [$] without the m flag *)

(** Greedy [p*]: each split of the subject into a run of [p] and a
    rest, longest run first. *)
Fixpoint star (p : N -> bool) (s : jsstring) : list (jsstring * jsstring) :=
  match s with
  | c :: s' =>
      if p c
      then map (fun ur => (c :: fst ur, snd ur)) (star p s') ++ [([], s)]
      else [([], s)]
  | [] => [([], [])]
  end.

(** A way of matching: the text consumed, the texts captured by the
    groups met (in order of their opening parenthesis) and the rest of
    the subject. Both expressions of the wizard have their groups
    outside alternatives and repetitions, so that the captures of a
    match are exactly match[1], match[2], ... *)
Record way : Type := Way { consumed : jsstring; captures : list jsstring; rest : jsstring }.

Fixpoint ways (r : regex) (s : jsstring) : list way :=
  match r with
  | Char p =>
      match s with
      | c :: s' => if p c then [Way [c] [] s'] else []
      | [] => []
      end
  | Seq r1 r2 =>
      flat_map (fun w1 =>
                  map (fun w2 => Way (consumed w1 ++ consumed w2)
                                     (captures w1 ++ captures w2)
                                     (rest w2))
                      (ways r2 (rest w1)))
               (ways r1 s)
  | Alt r1 r2 => ways r1 s ++ ways r2 s
  | Star p => map (fun ur => Way (fst ur) [] (snd ur)) (star p s)
  | Group r1 => map (fun w => Way (consumed w) (consumed w :: captures w) (rest w)) (ways r1 s)
  | End => match s with [] => [Way [] [] []] | _ => [] end
  end.

(** [subject.match(/^r/)] for an expression without the g flag: the
    captures of the first way of matching at index 0, or null. *)
Definition matchStart (r : regex) (s : jsstring) : option (list jsstring) :=
  match ways r s with
  | w :: _ => Some (captures w)
  | [] => None
  end.

Definition plus (p : N -> bool) : regex := Seq (Char p) (Star p).

Definition unit_ (c : N) : regex := Char (fun x => (x =? c)%N).

(** A literal under the i flag. Canonicalize maps a code unit to its
    upper case unless that leaves ASCII or is not a single unit, so an
    ASCII capital is matched by itself and by its small letter only. *)
Fixpoint literal_i (w : jsstring) : regex :=
  match w with
  | [] => Star (fun _ => false)
  | [c] => Char (fun x => (upperUnit x =? c)%N)
  | c :: w' => Seq (Char (fun x => (upperUnit x =? c)%N)) (literal_i w')
  end.

End JS.

(** ** tools/project-init.js: the Project Initialization Wizard *)

Module ProjectInit.
Import JS.

(** *** The operator

    The wizard talks to the operator through [readline]: each
    [this.prompt(question)] resolves with the next line typed. A session
    is run against the lines the operator types, in order; when they run
    out the pending question is never answered and the wizard goes no
    further ([None]). Console output is not part of the state. *)

Definition Wz (A : Type) : Type := list jsstring -> option (A * list jsstring).

Definition ret {A} (a : A) : Wz A := fun input => Some (a, input).

Definition bind {A B} (m : Wz A) (k : A -> Wz B) : Wz B :=
  fun input =>
    match m input with
    | Some (a, input') => k a input'
    | None => None
    end.

Notation "x <- m ;; k" := (bind m (fun x => k))
  (at level 100, m at next level, right associativity).

Definition prompt : Wz jsstring :=
  fun input =>
    match input with
    | answer :: input' => Some (answer, input')
    | [] => None
    end.

Definition confirm : Wz bool :=
  answer <- prompt ;;
  ret (streq (toLowerCase answer) (js "y") || streq (toLowerCase answer) (js "yes")).

(** [table[parseInt(choice) - 1] || fallback]. Every entry of the
    wizard's tables is truthy (a non-empty string, or an array), so the
    fallback is taken exactly when the index misses the table. *)
Definition select {A} (table : list A) (fallback : A) (choice : jsstring) : A :=
  match index table (pred1 (parseInt choice)) with
  | Some v => v
  | None => fallback
  end.

(** The answers that select no entry of a table: those that
    [parseInt] reads as no number, and those it reads as a number
    outside 1 .. length. *)
Definition offMenu {A} (table : list A) (choice : jsstring) : Prop :=
  match parseInt choice with
  | None => True
  | Some z => (z < 1 \/ Z.of_nat (length table) < z)%Z
  end.

(** A numbered menu: one question, one answer, one selection. *)
Definition menu {A} (table : list A) (fallback : A) : Wz A :=
  choice <- prompt ;;
  ret (select table fallback choice).

(** [answer ? answer.split(',').map(x => x.trim()) : fallback] *)
Definition commaList (fallback : list jsstring) (answer : jsstring) : list jsstring :=
  if truthy answer then map trim (split 44 answer) else fallback.

(** *** The configuration object *)

Record Project : Type := {
  name : jsstring;
  description : jsstring;
  type : jsstring;
  language : jsstring;
  frontend : option jsstring
}.

Record Architecture : Type := {
  pattern : jsstring;
  components : list jsstring;
  cache : option jsstring;
  messageQueue : option jsstring;
  requiresAuth : option bool;
  rateLimit : option bool;
  apiVersioning : option bool
}.

Record Api : Type := {
  method : jsstring;
  path : jsstring;
  api_description : jsstring
}.

Record Database : Type := {
  db_type : jsstring;
  entities : option (list jsstring);
  migrations : option bool;
  seeding : option bool
}.

Record Authentication : Type := {
  auth_type : jsstring;
  socialLogin : option bool;
  rbac : option bool;
  roles : option (list jsstring)
}.

Record Deployment : Type := {
  targets : list jsstring;
  cicd : option jsstring;
  docker : bool
}.

Record EnvVar : Type := {
  var_name : jsstring;
  var_description : jsstring
}.

Record Environment : Type := {
  variables : list EnvVar;
  environments : list jsstring
}.

Record Config : Type := {
  project : Project;
  architecture : Architecture;
  apis : list Api;
  database : Database;
  authentication : Authentication;
  deployment : Deployment;
  environment : Environment
}.

(** *** The menus' tables *)

Definition types : list jsstring :=
  map js ["web-app"; "rest-api"; "graphql-api"; "cli-tool"; "microservice"; "library"; "mobile-backend"; "other"].
Definition languages : list jsstring :=
  map js ["nodejs"; "python"; "java"; "go"; "ruby"; "dotnet"; "php"; "other"].
Definition frameworks : list jsstring :=
  map js ["react"; "vue"; "angular"; "nextjs"; "svelte"; "none"].
Definition patterns : list jsstring :=
  map js ["monolithic"; "microservices"; "serverless"; "layered"; "event-driven"; "cqrs"].
Definition caches : list jsstring :=
  map js ["redis"; "memcached"; "in-memory"; "cdn"].
Definition queues : list jsstring :=
  map js ["rabbitmq"; "kafka"; "aws-sqs"; "redis-queue"; "other"].
Definition databases : list jsstring :=
  map js ["postgresql"; "mysql"; "mongodb"; "sqlite"; "redis"; "dynamodb"; "cassandra"; "multiple"].
Definition authTypes : list jsstring :=
  map js ["jwt"; "oauth2"; "session"; "api-key"; "saml"; "multiple"].
Definition deployTargets : list jsstring :=
  map js ["docker"; "kubernetes"; "aws"; "azure"; "gcp"; "heroku"; "vercel"; "traditional"].
Definition ciPlatforms : list jsstring :=
  map js ["github-actions"; "gitlab-ci"; "jenkins"; "circleci"; "travis"].
Definition envSetups : list (list jsstring) :=
  [ map js ["development"; "staging"; "production"];
    map js ["development"; "production"];
    map js ["development"];
    [] ].

(** *** Step 1: gatherProjectInfo *)

Definition gatherProjectInfo (projectName : option jsstring) : Wz Project :=
  nm <- match projectName with
        | Some n => if truthy n then ret n else prompt
        | None => prompt
        end ;;
  descr <- prompt ;;
  ty <- menu types (js "other") ;;
  lang <- menu languages (js "other") ;;
  fe <- (if streq ty (js "web-app")
         then (f <- menu frameworks (js "none") ;; ret (Some f))
         else ret None) ;;
  ret {| name := nm; description := descr; type := ty; language := lang; frontend := fe |}.

(** *** Step 2: defineArchitecture *)

Definition defineArchitecture : Wz Architecture :=
  pat <- menu patterns (js "layered") ;;
  comps <- prompt ;;
  hasCache <- confirm ;;
  ca <- (if hasCache : bool
         then (c <- menu caches (js "redis") ;; ret (Some c))
         else ret None) ;;
  hasQueue <- confirm ;;
  mq <- (if hasQueue : bool
         then (q <- menu queues (js "rabbitmq") ;; ret (Some q))
         else ret None) ;;
  ret {| pattern := pat; components := commaList [] comps;
         cache := ca; messageQueue := mq;
         requiresAuth := None; rateLimit := None; apiVersioning := None |}.

(** *** Step 3: defineAPIs *)

Definition httpMethods : list jsstring :=
  map js ["GET"; "POST"; "PUT"; "PATCH"; "DELETE"].

(** The expression tested on each answer, written here with its parts
    spaced out:  ^ (GET|POST|PUT|PATCH|DELETE) \s+ ( \/ [^\s]* ) \s* - \s* ( .+ ) $
    under the i flag. *)
Definition methodAlternatives : regex :=
  Alt (literal_i (js "GET"))
 (Alt (literal_i (js "POST"))
 (Alt (literal_i (js "PUT"))
 (Alt (literal_i (js "PATCH"))
      (literal_i (js "DELETE"))))).

Definition endpointRegex : regex :=
  Seq (Group methodAlternatives)
 (Seq (plus isSpace)
 (Seq (Group (Seq (unit_ 47) (Star (fun c => negb (isSpace c)))))
 (Seq (Star isSpace)
 (Seq (unit_ 45)
 (Seq (Star isSpace)
 (Seq (Group (plus (fun c => negb (isLineTerminator c))))
      End)))))).

(** The body of the loop on one answer: the record pushed, if any. *)
Definition parseEndpoint (endpoint : jsstring) : option Api :=
  match matchStart endpointRegex endpoint with
  | Some [m1; m2; m3] =>
      Some {| method := toUpperCase m1; path := m2; api_description := m3 |}
  | _ => None
  end.

(** [while (endpoint) { ...; endpoint = await this.prompt(...) }],
    entered with the answer to "Endpoint 1". The loop is driven by the
    operator's lines, so it recurses on them. *)
Fixpoint endpointLoop (endpoint : jsstring) (acc : list Api) (input : list jsstring)
  : option (list Api * list jsstring) :=
  if truthy endpoint then
    let acc' := match parseEndpoint endpoint with
                | Some api => acc ++ [api]
                | None => acc
                end in
    match input with
    | next :: input' => endpointLoop next acc' input'
    | [] => None
    end
  else Some (acc, input).

Definition defineAPIs (p : Project) (a : Architecture) : Wz (list Api * Architecture) :=
  if streq (type p) (js "cli-tool") || streq (type p) (js "library") then ret ([], a)
  else
    hasAPI <- confirm ;;
    if hasAPI : bool then
      first <- prompt ;;
      eps <- endpointLoop first [] ;;
      match eps with
      | [] => ret (eps, a)
      | _ =>
          hasAuth <- confirm ;;
          hasRateLimit <- confirm ;;
          hasVersioning <- confirm ;;
          ret (eps, {| pattern := pattern a; components := components a;
                       cache := cache a; messageQueue := messageQueue a;
                       requiresAuth := Some hasAuth;
                       rateLimit := Some hasRateLimit;
                       apiVersioning := Some hasVersioning |})
      end
    else ret ([], a).

(** *** Step 4: defineDatabaseRequirements *)

Definition defineDatabaseRequirements : Wz Database :=
  needsDB <- confirm ;;
  if needsDB : bool then
    ty <- menu databases (js "postgresql") ;;
    if negb (streq ty (js "none")) then
      ents <- prompt ;;
      needsMigrations <- confirm ;;
      needsSeeding <- confirm ;;
      ret {| db_type := ty; entities := Some (commaList [] ents);
             migrations := Some needsMigrations; seeding := Some needsSeeding |}
    else ret {| db_type := ty; entities := None; migrations := None; seeding := None |}
  else ret {| db_type := js "none"; entities := None; migrations := None; seeding := None |}.

(** *** Step 5: defineAuthentication *)

Definition defineAuthentication : Wz Authentication :=
  needsAuth <- confirm ;;
  if needsAuth : bool then
    ty <- menu authTypes (js "jwt") ;;
    needsOAuthProvider <- confirm ;;
    needsRBAC <- confirm ;;
    rs <- (if needsRBAC : bool
           then (r <- prompt ;; ret (Some (commaList (map js ["admin"; "user"]) r)))
           else ret None) ;;
    ret {| auth_type := ty; socialLogin := Some needsOAuthProvider;
           rbac := Some needsRBAC; roles := rs |}
  else ret {| auth_type := js "none"; socialLogin := None; rbac := None; roles := None |}.

(** *** Step 6: defineDeploymentTargets *)

(** Array.prototype.includes on strings *)
Definition includes (l : list jsstring) (x : jsstring) : bool := existsb (streq x) l.

(** [deployChoice.split(',').map(c => deployTargets[parseInt(c.trim()) - 1]).filter(Boolean)] *)
Definition parseTargets (deployChoice : jsstring) : list jsstring :=
  omap (fun c => index deployTargets (pred1 (parseInt (trim c)))) (split 44 deployChoice).

Definition defineDeploymentTargets : Wz Deployment :=
  deployChoice <- prompt ;;
  needsCI <- confirm ;;
  ci <- (if needsCI : bool
         then (c <- menu ciPlatforms (js "github-actions") ;; ret (Some c))
         else ret None) ;;
  let tg := parseTargets deployChoice in
  let needsDocker := includes tg (js "docker") || includes tg (js "kubernetes") in
  ret {| targets := tg; cicd := ci; docker := needsDocker |}.

(** *** Step 7: defineEnvironment *)

(** The expression tested on each answer, with its parts spaced out:
    ^ ( [A-Z_]+ ) \s* - \s* ( .+ ) $  *)
Definition envVarRegex : regex :=
  Seq (Group (plus (fun c => ((65 <=? c) && (c <=? 90) || (c =? 95))%N)))
 (Seq (Star isSpace)
 (Seq (unit_ 45)
 (Seq (Star isSpace)
 (Seq (Group (plus (fun c => negb (isLineTerminator c))))
      End)))).

Definition parseEnvVar (envVar : jsstring) : option EnvVar :=
  match matchStart envVarRegex envVar with
  | Some [m1; m2] => Some {| var_name := m1; var_description := m2 |}
  | _ => None
  end.

Fixpoint envVarLoop (envVar : jsstring) (acc : list EnvVar) (input : list jsstring)
  : option (list EnvVar * list jsstring) :=
  if truthy envVar then
    let acc' := match parseEnvVar envVar with
                | Some v => acc ++ [v]
                | None => acc
                end in
    match input with
    | next :: input' => envVarLoop next acc' input'
    | [] => None
    end
  else Some (acc, input).

Definition defineEnvironment : Wz Environment :=
  first <- prompt ;;
  envVars <- envVarLoop first [] ;;
  envs <- menu envSetups (map js ["development"; "production"]) ;;
  ret {| variables := envVars; environments := envs |}.

(** The seven steps of [run], in order. [reviewConfiguration], which
    follows them, only prints. *)
Definition gatherConfiguration (projectName : option jsstring) : Wz Config :=
  p <- gatherProjectInfo projectName ;;
  a <- defineArchitecture ;;
  ea <- defineAPIs p a ;;
  db <- defineDatabaseRequirements ;;
  au <- defineAuthentication ;;
  dep <- defineDeploymentTargets ;;
  env <- defineEnvironment ;;
  ret {| project := p; architecture := snd ea; apis := fst ea; database := db;
         authentication := au; deployment := dep; environment := env |}.

(** *** Writing the project

    What the wizard does to the project directory is recorded as the
    sequence of its file-system requests, with paths relative to
    [this.projectDir]. The calls are taken to succeed: a failing call
    would raise inside [run], whose handler abandons the rest. The three
    long documents whose text no property here depends on (the
    blueprint, which also embeds the date, the README and the workflow
    file) are kept symbolic. *)

Inductive content : Type :=
| Text (t : jsstring)
| BlueprintContent (c : Config)      (* this.createBlueprintContent() *)
| ReadmeContent (c : Config)         (* the template of generateReadme *)
| WorkflowContent.                   (* the literal of generateCICD *)

Inductive effect : Type :=
| EnsureDir (dir : jsstring)         (* if (!fs.existsSync(d)) fs.mkdirSync(d, { recursive: true }) *)
| WriteFile (file : jsstring) (c : content)   (* fs.writeFileSync *)
| InitGit.                           (* git init, add and commit unless .git exists; failures are caught *)

Definition nl : jsstring := [10%N].
Definition dq : jsstring := [34%N].

(** The text made of the given lines, each ended by a line feed. *)
Definition lines (l : list jsstring) : jsstring := flat_map (fun x => x ++ nl) l.

Definition createProjectStructure (cfg : Config) : list effect :=
  let dirs :=
    map js ["src"; "tests"; "docs"; "config"; ".github/workflows"]
    ++ (if streq (language (project cfg)) (js "nodejs")
        then map js ["src/controllers"; "src/models"; "src/routes"; "src/middleware"; "src/utils"]
        else if streq (language (project cfg)) (js "python")
        then map js ["src/api"; "src/models"; "src/services"; "src/utils"]
        else [])
    ++ (if streq (pattern (architecture cfg)) (js "microservices")
        then map (fun component => js "services/" ++ component) (components (architecture cfg))
        else []) in
  EnsureDir (js ".") :: map EnsureDir dirs.

Definition generateBlueprint (cfg : Config) : list effect :=
  [WriteFile (js "PROJECT-BLUEPRINT.md") (BlueprintContent cfg)].

Definition generateGitignore : list effect :=
  let ignorePatterns :=
    map js ["# Dependencies"; "node_modules/"; "vendor/"; "__pycache__/"; "*.pyc"; "";
            "# Environment"; ".env"; ".env.local"; ".env.*.local"; "";
            "# Build outputs"; "dist/"; "build/"; "*.log"; "";
            "# IDE"; ".vscode/"; ".idea/"; "*.swp"; "*.swo"; "";
            "# OS"; ".DS_Store"; "Thumbs.db"] in
  [WriteFile (js ".gitignore") (Text (join nl ignorePatterns))].

Definition generateReadme (cfg : Config) : list effect :=
  [WriteFile (js "README.md") (ReadmeContent cfg)].

Definition generateEnvTemplate (cfg : Config) : list effect :=
  let envVars :=
    join (nl ++ nl)
         (map (fun v => js "# " ++ var_description v ++ nl ++ var_name v ++ js "=")
              (variables (environment cfg))) in
  let template :=
    lines [js "# Environment Configuration";
           js "# Copy this file to .env and fill in the values";
           [];
           envVars] in
  [WriteFile (js ".env.example") (Text template)].

Definition dockerfileFor (lang : jsstring) : jsstring :=
  if streq lang (js "nodejs") then
    lines [js "FROM node:18-alpine"; [];
           js "WORKDIR /app"; [];
           js "COPY package*.json ./";
           js "RUN npm ci --only=production"; [];
           js "COPY . ."; [];
           js "EXPOSE 3000"; [];
           js "CMD [" ++ dq ++ js "npm" ++ dq ++ js ", " ++ dq ++ js "start" ++ dq ++ js "]"]
  else if streq lang (js "python") then
    lines [js "FROM python:3.11-slim"; [];
           js "WORKDIR /app"; [];
           js "COPY requirements.txt .";
           js "RUN pip install --no-cache-dir -r requirements.txt"; [];
           js "COPY . ."; [];
           js "EXPOSE 8000"; [];
           js "CMD [" ++ dq ++ js "python" ++ dq ++ js ", " ++ dq ++ js "app.py" ++ dq ++ js "]"]
  else [].

(** The part of the compose file that does not depend on the
    configuration. *)
Definition composeApp : jsstring :=
  lines [js "version: '3.8'"; [];
         js "services:";
         js "  app:";
         js "    build: .";
         js "    ports:";
         js "      - " ++ dq ++ js "3000:3000" ++ dq;
         js "    environment:";
         js "      - NODE_ENV=development";
         js "    volumes:";
         js "      - .:/app";
         js "      - /app/node_modules"].

(** The database service, interpolated when [database.type !== 'none']. *)
Definition composeDb (cfg : Config) : jsstring :=
  lines [[];
         js "  db:";
         js "    image: " ++ db_type (database cfg) ++ js ":latest";
         js "    environment:";
         js "      - POSTGRES_DB=" ++ name (project cfg);
         js "      - POSTGRES_USER=dev";
         js "      - POSTGRES_PASSWORD=devpass";
         js "    ports:";
         js "      - " ++ dq ++ js "5432:5432" ++ dq;
         js "    volumes:";
         js "      - db-data:/var/lib/postgresql/data"; [];
         js "volumes:";
         js "  db-data:"].

Definition composeFor (cfg : Config) : jsstring :=
  composeApp
  ++ (if negb (streq (db_type (database cfg)) (js "none")) then composeDb cfg else [])
  ++ nl.

Definition generateDockerfiles (cfg : Config) : list effect :=
  let dockerfile := dockerfileFor (language (project cfg)) in
  (if truthy dockerfile then [WriteFile (js "Dockerfile") (Text dockerfile)] else [])
  ++ [WriteFile (js "docker-compose.yml") (Text (composeFor cfg))].

Definition generateCICD (cfg : Config) : list effect :=
  match cicd (deployment cfg) with
  | Some platform =>
      if streq platform (js "github-actions")
      then [EnsureDir (js ".github/workflows");
            WriteFile (js ".github/workflows/ci-cd.yml") WorkflowContent]
      else []
  | None => []
  end.

Definition generateTemplates (cfg : Config) : list effect :=
  generateGitignore
  ++ generateReadme cfg
  ++ generateEnvTemplate cfg
  ++ (if docker (deployment cfg) then generateDockerfiles cfg else [])
  ++ (match cicd (deployment cfg) with
      | Some platform => if truthy platform then generateCICD cfg else []
      | None => []
      end).

Definition initializeGit : list effect := [InitGit].

(** *** run *)

Record Session : Type := {
  config : Config;
  confirmed : bool;
  effects : list effect
}.

Definition run (projectName : option jsstring) : Wz Session :=
  cfg <- gatherConfiguration projectName ;;
  ok <- confirm ;;
  if ok : bool then
    ret {| config := cfg; confirmed := true;
           effects := createProjectStructure cfg ++ generateBlueprint cfg
                      ++ generateTemplates cfg ++ initializeGit |}
  else
    ret {| config := cfg; confirmed := false; effects := [] |}.

(** The text written to a file in the course of a session: the content
    of the last write to it, if any. *)
Definition lastWrite (file : jsstring) (acc : option content) (e : effect) : option content :=
  match e with
  | WriteFile f c => if streq f file then Some c else acc
  | _ => acc
  end.

Definition written (file : jsstring) (effs : list effect) : option content :=
  fold_left (lastWrite file) effs None.

(** String.prototype.includes: [needle] occurs in [text]. *)
Fixpoint startsWith (needle text : jsstring) : bool :=
  match needle, text with
  | [], _ => true
  | x :: n', y :: t' => (x =? y)%N && startsWith n' t'
  | _ :: _, [] => false
  end.

Fixpoint occursIn (needle text : jsstring) : bool :=
  startsWith needle text ||
  match text with
  | _ :: t' => occursIn needle t'
  | [] => false
  end.

(** Containerization is implied by the targets selected. *)
Definition dockerImplied (cfg : Config) : bool :=
  includes (targets (deployment cfg)) (js "docker")
  || includes (targets (deployment cfg)) (js "kubernetes").

(** The lines of the database service that follow its image. *)
Definition composeDbAfterImage (cfg : Config) : jsstring :=
  lines [js "    environment:";
         js "      - POSTGRES_DB=" ++ name (project cfg);
         js "      - POSTGRES_USER=dev";
         js "      - POSTGRES_PASSWORD=devpass";
         js "    ports:";
         js "      - " ++ dq ++ js "5432:5432" ++ dq;
         js "    volumes:";
         js "      - db-data:/var/lib/postgresql/data"; [];
         js "volumes:";
         js "  db-data:"].

(** *** Two sessions

    A Java REST service on MongoDB deployed with Docker, and a Node.js
    web application on PostgreSQL deployed to Kubernetes and AWS; both
    confirmed. The project name is given on the command line. *)
Definition javaMongoSession : list jsstring :=
  map js ["A shop";              (* description *)
          "2";                   (* type: rest-api *)
          "3";                   (* language: java *)
          "4";                   (* pattern: layered *)
          "";                    (* components *)
          "n";                   (* caching? *)
          "n";                   (* message queues? *)
          "n";                   (* exposes APIs? *)
          "y";                   (* database? *)
          "3";                   (* database: mongodb *)
          "users, orders";       (* entities *)
          "n";                   (* migrations? *)
          "n";                   (* seed data? *)
          "n";                   (* authentication? *)
          "1";                   (* targets: docker *)
          "n";                   (* CI/CD? *)
          "";                    (* no environment variable *)
          "2";                   (* environments *)
          "y"].                  (* proceed *)

Definition nodePostgresSession : list jsstring :=
  map js ["A shop";              (* description *)
          "1";                   (* type: web-app *)
          "1";                   (* language: nodejs *)
          "1";                   (* frontend: react *)
          "1";                   (* pattern: monolithic *)
          "api, web";            (* components *)
          "y"; "1";              (* caching: redis *)
          "n";                   (* message queues? *)
          "y";                   (* exposes APIs? *)
          "GET /api/users - Get all users";
          "";                    (* no more endpoints *)
          "y"; "n"; "n";         (* auth, rate limit, versioning *)
          "y";                   (* database? *)
          "1";                   (* database: postgresql *)
          "users";               (* entities *)
          "y"; "n";              (* migrations, seed data *)
          "y"; "1"; "n"; "n";    (* authentication: jwt, no social login, no RBAC *)
          "2, 3";                (* targets: kubernetes, aws *)
          "y"; "1";              (* CI/CD: github-actions *)
          "DATABASE_URL - PostgreSQL connection string";
          "";                    (* no more variables *)
          "1";                   (* environments *)
          "yes"].                (* proceed *)

(** A session in which every numbered menu is answered off the menu. *)
Definition offMenuSession : list jsstring :=
  map js ["A shop";
          "0";                   (* type *)
          "nine";                (* language *)
          "7";                   (* pattern *)
          "";                    (* components *)
          "y"; "5";              (* caching, cache *)
          "y"; "-1";             (* queues, queue *)
          "n";                   (* exposes APIs? *)
          "y"; "9";              (* database *)
          ""; "n"; "n";          (* entities, migrations, seed data *)
          "y"; "";               (* authentication, method *)
          "n"; "n";              (* social login, RBAC *)
          "1";                   (* targets *)
          "y"; "6";              (* CI/CD, platform *)
          "";                    (* no environment variable *)
          "five";                (* environments *)
          "y"].                  (* proceed *)

End ProjectInit.

(** ** The Node.js host of the two scanning tools *)

Module Node.

(** Strings of the scanning tools (file names, identifiers, file texts)
    are Rocq strings, one character per code unit. *)

(** *** The file system

    The entries below the tool's root directory, by relative path. *)
Inductive entry : Type :=
| Dir
| File (text : string).

Abbreviation fs := (gmap string entry).

Definition existsSync (w : fs) (p : string) : bool := bool_decide (is_Some (w !! p)).

(** [fs.readFileSync(p, 'utf8')]; [None] when it throws (no such file,
    or a directory). *)
Definition readFileSync (w : fs) (p : string) : option string :=
  match w !! p with
  | Some (File text) => Some text
  | _ => None
  end.

(** [fs.writeFileSync(p, text)] in an existing directory; [None] when it
    throws because [p] is a directory. *)
Definition writeFileSync (w : fs) (p : string) (text : string) : option fs :=
  match w !! p with
  | Some Dir => None
  | _ => Some (<[p := File text]> w)
  end.

(** [fs.mkdirSync(p, { recursive: true })]; [None] when it throws because
    [p] is a file. *)
Definition mkdirSync (w : fs) (p : string) : option fs :=
  match w !! p with
  | Some (File _) => None
  | _ => Some (<[p := Dir]> w)
  end.

(** *** JSON values

    What [JSON.parse] returns. Only the truthiness of a number is ever
    observed, so integers stand for the numbers. *)
Inductive json : Type :=
| JNull
| JBool (b : bool)
| JNum (n : Z)
| JStr (s : string)
| JArr (items : list json)
| JObj (fields : list (string * json)).

Fixpoint assoc (key : string) (fields : list (string * json)) : option json :=
  match fields with
  | (k, v) :: fields' => if String.eqb k key then Some v else assoc key fields'
  | [] => None
  end.

Fixpoint setField (key : string) (v : json) (fields : list (string * json)) : list (string * json) :=
  match fields with
  | (k, v0) :: fields' =>
      if String.eqb k key then (k, v) :: fields' else (k, v0) :: setField key v fields'
  | [] => [(key, v)]
  end.

(** A JavaScript value read from a property: [None] is undefined. *)
Abbreviation value := (option json).

(** ToBoolean *)
Definition truthy (v : value) : bool :=
  match v with
  | None | Some JNull => false
  | Some (JBool b) => b
  | Some (JNum n) => negb (n =? 0)%Z
  | Some (JStr s) => negb (String.eqb s "")
  | Some (JArr _) | Some (JObj _) => true
  end.

(** [v.key] for one of the keys the tools read (name, version,
    description, scripts, test, dependencies, devDependencies), none of
    which is a built-in property of a string, a number, a boolean or an
    array. The outer [None] is the TypeError raised on null and
    undefined. *)
Definition get (v : value) (key : string) : option value :=
  match v with
  | None | Some JNull => None
  | Some (JObj fields) => Some (assoc key fields)
  | Some _ => Some None
  end.

(** [a || b] *)
Definition or_else (a : value) (b : json) : json :=
  if truthy a then match a with Some v => v | None => b end else b.

(** The keys that [{...v}] copies: the keys of an object, the indices of
    an array or of a string, nothing otherwise. *)
Definition spreadKeys (v : value) : list string :=
  match v with
  | Some (JObj fields) => map fst fields
  | Some (JArr items) => map (fun i : nat => pretty i) (seq 0 (length items))
  | Some (JStr s) => map (fun i : nat => pretty i) (seq 0 (String.length s))
  | _ => []
  end.

(** What the tools ask of their host beyond the file system. *)
Record Host : Type := {
  (** [JSON.parse]; [None] when it throws a SyntaxError. *)
  JSON_parse : string -> option json;
  (** [JSON.stringify(v, null, 2)] *)
  JSON_stringify : json -> string;
  (** [execSync] of a read-only git command ([git config user.name],
      [git config user.email], [git status --porcelain]): its output,
      or [None] when it exits with a failure and [execSync] throws. *)
  gitQuery : string -> fs -> option string;
  (** [execSync] of a command run for its effect ([git init],
      [git add .], [git config user.name "..."], [npm install ...]):
      the file system it leaves, or [None] when it fails. *)
  execSync : string -> fs -> option fs
}.

(** A host on which every JSON text parses to the same result and no
    command can be run (neither git nor npm is installed). *)
Definition constHost (parsed : option json) : Host := {|
  JSON_parse := fun _ => parsed;
  JSON_stringify := fun _ => "{}";
  gitQuery := fun _ _ => None;
  execSync := fun _ _ => None
|}.

End Node.

(** ** tools/blueprint-generator.js: project identity detection *)

Module Blueprint.
Import Node.

Record ProjectInfo : Type := {
  name : json;
  version : json;
  description : value;     (* set for a package.json project only *)
  type : string;
  language : string
}.

Section Generator.

Variable host : Host.

(** [path.basename(this.rootDir)] *)
Variable rootName : string.

(** [analyzeProjectInfo]: the value left in [this.projectInfo], or [None]
    when reading or parsing a manifest throws. *)
Definition analyzeProjectInfo (w : fs) : option ProjectInfo :=
  if existsSync w "package.json" then
    match readFileSync w "package.json" with
    | Some text =>
        match JSON_parse host text with
        | Some pkg =>
            match get (Some pkg) "name", get (Some pkg) "version", get (Some pkg) "description" with
            | Some n, Some v, Some d =>
                Some {| name := or_else n (JStr "Unknown Project");
                        version := or_else v (JStr "1.0.0");
                        description := Some (or_else d (JStr ""));
                        type := "Node.js/JavaScript";
                        language := "JavaScript/TypeScript" |}
            | _, _, _ => None
            end
        | None => None
        end
    | None => None
    end
  else if existsSync w "requirements.txt" then
    Some {| name := JStr rootName; version := JStr "1.0.0"; description := None;
            type := "Python"; language := "Python" |}
  else if existsSync w "pom.xml" then
    Some {| name := JStr rootName; version := JStr "1.0.0"; description := None;
            type := "Java/Maven"; language := "Java" |}
  else if existsSync w "composer.json" then
    match readFileSync w "composer.json" with
    | Some text =>
        match JSON_parse host text with
        | Some composer =>
            match get (Some composer) "name", get (Some composer) "version" with
            | Some n, Some v =>
                Some {| name := or_else n (JStr rootName);
                        version := or_else v (JStr "1.0.0");
                        description := None;
                        type := "PHP"; language := "PHP" |}
            | _, _ => None
            end
        | None => None
        end
    | None => None
    end
  else
    Some {| name := JStr rootName; version := JStr "1.0.0"; description := None;
            type := "Unknown"; language := "Unknown" |}.

End Generator.

(** What is reported when no manifest is recognized. *)
Definition unknownInfo (rootName : string) : ProjectInfo :=
  {| name := JStr rootName; version := JStr "1.0.0"; description := None;
     type := "Unknown"; language := "Unknown" |}.

(** Three project directories: one with a package.json and a
    requirements.txt, one with a pyproject.toml only, one with a
    build.gradle only. *)
Definition nodeAndPythonDir : fs :=
  <["package.json" := File "{}"]> {["requirements.txt" := File "flask"]}.
Definition pyprojectDir : fs := {["pyproject.toml" := File "[project]"]}.
Definition gradleDir : fs := {["build.gradle" := File "plugins { id 'java' }"]}.

End Blueprint.

(** ** tools/error-recovery.js: the Error Recovery Tool *)

Module ErrorRecovery.
Import Node.

(** The remediation an issue refers to: [fix: () => this.fixX()]. *)
Inductive Fix : Type :=
| FixGitInit
| FixGitConfig
| FixMissingAgents (missing : list string)
| FixTestScript
| FixTestFramework
| FixDependencies
| FixReadme
| FixGitignore
| FixPlansDirectory.

Record Issue : Type := {
  id : string;
  severity : string;
  title : string;
  description : string;
  location : option string;
  fixable : bool;
  fix_ : option Fix      (* the field [fix] *)
}.

Record Options : Type := {
  rootDir : string;
  rootName : string;       (* path.basename(rootDir) *)
  autoFix : bool;
  scanOnly : bool;
  verbose : bool;
  category : string
}.

(** *** Scanning

    A check pushes issues onto [this.issues] and may throw; the issues
    pushed before an exception stay in the list. *)
Definition Scan (A : Type) : Type := list Issue -> option A * list Issue.

Definition sret {A} (a : A) : Scan A := fun acc => (Some a, acc).

Definition sbind {A B} (m : Scan A) (k : A -> Scan B) : Scan B :=
  fun acc =>
    match m acc with
    | (Some a, acc') => k a acc'
    | (None, acc') => (None, acc')
    end.

Definition push (i : Issue) : Scan unit := fun acc => (Some tt, acc ++ [i]).

Definition throw {A} : Scan A := fun acc => (None, acc).

Definition when (b : bool) (m : Scan unit) : Scan unit := if b then m else sret tt.

(** A host call that throws when it has no result. *)
Definition attempt {A} (o : option A) : Scan A :=
  match o with Some a => sret a | None => throw end.

Notation "x <~ m ;; k" := (sbind m (fun x => k))
  (at level 100, m at next level, right associativity).
Notation "m ;;; k" := (sbind m (fun _ => k))
  (at level 100, right associativity).

Definition agentFiles : list string :=
  ["Conductor.agent.md";
   "planning-subagent.agent.md";
   "implement-subagent.agent.md";
   "code-review-subagent.agent.md";
   "quality-assurance-subagent.agent.md"].

Definition agentPath (file : string) : string := ".github/agents/" +:+ file.

Definition testFrameworks : list string := ["jest"; "mocha"; "vitest"; "ava"; "tape"].

Definition startsWith (prefix s : string) : bool := String.prefix prefix s.

Definition joinComma (l : list string) : string := String.concat ", " l.

(** The text between double quotes. *)
Definition quoted (s : string) : string :=
  String (ascii_of_nat 34) s +:+ String (ascii_of_nat 34) "".

(** *** The issues the checks can push *)

Definition gitNotInitialized (opts : Options) : Issue :=
  {| id := "git_not_initialized"; severity := "high";
     title := "Git not initialized";
     description := "Orchestra requires git for version control.";
     location := Some (rootDir opts);
     fixable := true; fix_ := Some FixGitInit |}.

Definition gitConfigMissing : Issue :=
  {| id := "git_config_missing"; severity := "medium";
     title := "Git configuration incomplete";
     description := "Git user name or email not configured.";
     location := None;
     fixable := true; fix_ := Some FixGitConfig |}.

Definition uncommittedChanges : Issue :=
  {| id := "uncommitted_changes"; severity := "info";
     title := "Uncommitted changes detected";
     description := "You have uncommitted changes. Consider committing before starting new work.";
     location := None;
     fixable := false; fix_ := None |}.

Definition missingAgentFiles (missing : list string) : Issue :=
  {| id := "missing_agent_files"; severity := "high";
     title := "Missing agent files (" +:+ pretty (length missing) +:+ ")";
     description := "Required agent files not found in .github/agents/: " +:+ joinComma missing;
     location := None;
     fixable := true; fix_ := Some (FixMissingAgents missing) |}.

Definition invalidAgent (opts : Options) (file : string) : Issue :=
  {| id := "invalid_agent_" +:+ file; severity := "medium";
     title := "Invalid agent file: " +:+ file;
     description := "Agent file missing YAML frontmatter.";
     location := Some (rootDir opts +:+ "/" +:+ agentPath file);
     fixable := false; fix_ := None |}.

Definition noTestScript : Issue :=
  {| id := "no_test_script"; severity := "medium";
     title := "No test script defined";
     description := "package.json missing " +:+ quoted "test" +:+ " script.";
     location := None;
     fixable := true; fix_ := Some FixTestScript |}.

Definition noTestFramework : Issue :=
  {| id := "no_test_framework"; severity := "high";
     title := "No testing framework installed";
     description := "Orchestra requires a testing framework (Jest, Vitest, etc.).";
     location := None;
     fixable := true; fix_ := Some FixTestFramework |}.

Definition noTestSetup : Issue :=
  {| id := "no_test_setup"; severity := "high";
     title := "No test setup detected";
     description := "Orchestra requires test infrastructure for TDD.";
     location := None;
     fixable := false; fix_ := None |}.

Definition dependenciesNotInstalled : Issue :=
  {| id := "dependencies_not_installed"; severity := "high";
     title := "Dependencies not installed";
     description := "node_modules directory not found. Run npm install.";
     location := None;
     fixable := true; fix_ := Some FixDependencies |}.

Definition noReadme : Issue :=
  {| id := "no_readme"; severity := "low";
     title := "No README.md";
     description := "Project lacks documentation.";
     location := None;
     fixable := true; fix_ := Some FixReadme |}.

Definition noGitignore : Issue :=
  {| id := "no_gitignore"; severity := "medium";
     title := "No .gitignore file";
     description := "Missing .gitignore may cause unwanted files to be committed.";
     location := None;
     fixable := true; fix_ := Some FixGitignore |}.

Definition noPlansDirectory : Issue :=
  {| id := "no_plans_directory"; severity := "info";
     title := "Plans directory not found";
     description := "Orchestra creates documentation in plans/ directory.";
     location := None;
     fixable := true; fix_ := Some FixPlansDirectory |}.

(** *** The checks *)

Section Tool.

Variable host : Host.
Variable opts : Options.

Definition checkGitIssues (w : fs) : Scan unit :=
  when (negb (existsSync w ".git")) (push (gitNotInitialized opts)) ;;;
  when (negb (match gitQuery host "git config user.name" w with
              | Some _ => bool_decide (is_Some (gitQuery host "git config user.email" w))
              | None => false
              end))
       (push gitConfigMissing) ;;;
  match gitQuery host "git status --porcelain" w with
  | Some status => when (JS.truthy (JS.trim (JS.js status))) (push uncommittedChanges)
  | None => sret tt
  end.

(** The second half of [checkAgentFiles]: the format of each agent file
    that exists. *)
Fixpoint validateAgentFiles (w : fs) (files : list string) : Scan unit :=
  match files with
  | file :: files' =>
      (if existsSync w (agentPath file) then
         content <~ attempt (readFileSync w (agentPath file)) ;;
         when (negb (startsWith "---" content)) (push (invalidAgent opts file))
       else sret tt) ;;;
      validateAgentFiles w files'
  | [] => sret tt
  end.

Definition checkAgentFiles (w : fs) : Scan unit :=
  let missing := List.filter (fun file => negb (existsSync w (agentPath file))) agentFiles in
  when (0 <? length missing)%nat (push (missingAgentFiles missing)) ;;;
  validateAgentFiles w agentFiles.

Definition checkTestSetup (w : fs) : Scan unit :=
  hasTestSetup <~
    (if existsSync w "package.json" then
       text <~ attempt (readFileSync w "package.json") ;;
       pkg <~ attempt (JSON_parse host text) ;;
       scripts <~ attempt (get (Some pkg) "scripts") ;;
       noTest <~ (if truthy scripts
                  then (t <~ attempt (get scripts "test") ;; sret (negb (truthy t)))
                  else sret true) ;;
       when noTest (push noTestScript) ;;;
       dependencies <~ attempt (get (Some pkg) "dependencies") ;;
       devDependencies <~ attempt (get (Some pkg) "devDependencies") ;;
       let deps := spreadKeys dependencies ++ spreadKeys devDependencies in
       let hasTestFramework :=
         existsb (fun dep => existsb (String.eqb dep) testFrameworks) deps in
       when (negb hasTestFramework) (push noTestFramework) ;;;
       sret (negb noTest)
     else if existsSync w "pytest.ini" then sret true
     else if existsSync w "pom.xml" then sret true
     else sret false) ;;
  when (negb hasTestSetup && negb (existsSync w "package.json") && negb (existsSync w "pytest.ini"))
       (push noTestSetup).

Definition checkDependencies (w : fs) : Scan unit :=
  if existsSync w "package.json" then
    text <~ attempt (readFileSync w "package.json") ;;
    pkg <~ attempt (JSON_parse host text) ;;
    when (negb (existsSync w "node_modules")) (push dependenciesNotInstalled)
  else sret tt.

Definition checkProjectStructure (w : fs) : Scan unit :=
  when (negb (existsSync w "README.md")) (push noReadme) ;;;
  when (negb (existsSync w ".gitignore")) (push noGitignore).

Definition checkPlansDirectory (w : fs) : Scan unit :=
  when (negb (existsSync w "plans")) (push noPlansDirectory).

Definition isCategory (c : string) : bool :=
  String.eqb (category opts) "all" || String.eqb (category opts) c.

Definition scanForIssues (w : fs) : Scan unit :=
  when (isCategory "git") (checkGitIssues w) ;;;
  when (isCategory "agents") (checkAgentFiles w) ;;;
  when (isCategory "tests") (checkTestSetup w) ;;;
  when (isCategory "deps") (checkDependencies w) ;;;
  when (String.eqb (category opts) "all")
       (checkProjectStructure w ;;; checkPlansDirectory w).

End Tool.

(** *** Remediation

    A remediation runs on the file system and may ask the operator for
    lines (the operator's remaining lines are threaded along). It ends
    normally, or by throwing, in both cases leaving the file system as
    changed so far, or it waits for a line that never comes. *)
Inductive FixResult : Type :=
| Fixed (w : fs) (input : list string)
| Failed (w : fs) (input : list string)
| Waiting.

Definition newline : string := String (ascii_of_nat 10) "".

(** The text made of the given lines, each ended by a line feed. *)
Definition unlines (l : list string) : string :=
  fold_right (fun x acc => x +:+ newline +:+ acc) "" l.

Definition readmeContent (projectName : string) : string :=
  unlines ["# " +:+ projectName; "";
           "Project description goes here."; "";
           "## Setup"; "";
           "```bash"; "npm install"; "```"; "";
           "## Usage"; "";
           "Describe how to use this project."; "";
           "## Testing"; "";
           "```bash"; "npm test"; "```"; "";
           "## License"; "";
           "MIT"].

Definition gitignoreContent : string :=
  unlines ["# Dependencies"; "node_modules/"; "venv/"; "env/"; "";
           "# Build outputs"; "dist/"; "build/"; "*.egg-info/"; "";
           "# Test coverage"; "coverage/"; ".nyc_output/"; "";
           "# Environment variables"; ".env"; ".env.local"; "";
           "# IDE"; ".vscode/"; ".idea/"; "*.swp"; "";
           "# OS"; ".DS_Store"; "Thumbs.db"; "";
           "# Orchestra plans (optional - uncomment to exclude)"; "# plans/"; "";
           "# Logs"; "*.log"; "npm-debug.log*"].

(** [if (!pkg.scripts) pkg.scripts = {}; pkg.scripts.test = cmd] when
    [create] holds, [pkg.scripts.test = cmd] alone otherwise, as far as
    [JSON.stringify] shows the result. The methods of a class are strict
    code, so that setting a property of a primitive throws ([None]), as
    does setting one of null or undefined; a property set on an array
    is not serialized. *)
Definition setTestScript (create : bool) (cmd : string) (pkg : json) : option json :=
  match pkg with
  | JObj fields =>
      let scripts := assoc "scripts" fields in
      let scripts' := if create && negb (truthy scripts) then Some (JObj []) else scripts in
      match scripts' with
      | Some (JObj sf) =>
          Some (JObj (setField "scripts" (JObj (setField "test" (JStr cmd) sf)) fields))
      | Some (JArr _) => Some pkg
      | _ => None
      end
  | JArr _ => if create then Some pkg else None
  | _ => None
  end.

Section Fixes.

Variable host : Host.
Variable opts : Options.

Definition fixGitInit (w : fs) (input : list string) : FixResult :=
  match execSync host "git init" w with
  | Some w1 =>
      match execSync host "git add ." w1 with
      | Some w2 => Fixed w2 input
      | None => Failed w1 input
      end
  | None => Failed w input
  end.

Definition fixGitConfig (w : fs) (input : list string) : FixResult :=
  match input with
  | name :: email :: input' =>
      match execSync host ("git config user.name " +:+ quoted name) w with
      | Some w1 =>
          match execSync host ("git config user.email " +:+ quoted email) w1 with
          | Some w2 => Fixed w2 input'
          | None => Failed w1 input'
          end
      | None => Failed w input'
      end
  | _ => Waiting
  end.

(** [fixMissingAgents] prints where the agent files can be copied from
    and changes nothing. *)
Definition fixMissingAgents (missing : list string) (w : fs) (input : list string) : FixResult :=
  Fixed w input.

(** Read package.json, set its test script and write it back. *)
Definition rewritePackageJson (create : bool) (cmd : string) (w : fs) : option fs :=
  text ← readFileSync w "package.json";
  pkg ← JSON_parse host text;
  pkg' ← setTestScript create cmd pkg;
  writeFileSync w "package.json" (JSON_stringify host pkg' +:+ newline).

Definition fixTestScript (w : fs) (input : list string) : FixResult :=
  match rewritePackageJson true ("echo " +:+ quoted "Error: no test specified" +:+ " && exit 1") w with
  | Some w' => Fixed w' input
  | None => Failed w input
  end.

Definition fixTestFramework (w : fs) (input : list string) : FixResult :=
  match execSync host "npm install --save-dev jest" w with
  | Some w1 =>
      match rewritePackageJson false "jest" w1 with
      | Some w2 => Fixed w2 input
      | None => Failed w1 input
      end
  | None => Failed w input
  end.

Definition fixDependencies (w : fs) (input : list string) : FixResult :=
  match execSync host "npm install" w with
  | Some w' => Fixed w' input
  | None => Failed w input
  end.

Definition fixReadme (w : fs) (input : list string) : FixResult :=
  match writeFileSync w "README.md" (readmeContent (rootName opts)) with
  | Some w' => Fixed w' input
  | None => Failed w input
  end.

Definition fixGitignore (w : fs) (input : list string) : FixResult :=
  match writeFileSync w ".gitignore" gitignoreContent with
  | Some w' => Fixed w' input
  | None => Failed w input
  end.

Definition fixPlansDirectory (w : fs) (input : list string) : FixResult :=
  match mkdirSync w "plans" with
  | Some w1 =>
      match writeFileSync w1 "plans/.gitkeep" "" with
      | Some w2 => Fixed w2 input
      | None => Failed w1 input
      end
  | None => Failed w input
  end.

Definition runFix (f : Fix) : fs -> list string -> FixResult :=
  match f with
  | FixGitInit => fixGitInit
  | FixGitConfig => fixGitConfig
  | FixMissingAgents missing => fixMissingAgents missing
  | FixTestScript => fixTestScript
  | FixTestFramework => fixTestFramework
  | FixDependencies => fixDependencies
  | FixReadme => fixReadme
  | FixGitignore => fixGitignore
  | FixPlansDirectory => fixPlansDirectory
  end.

(** How a run ends: normally, with the file system, the issues found,
    the identifiers of the issues fixed and the operator's unread lines;
    with an exception escaping [run] (the command line then prints the
    error and exits with status 1); or never, waiting for the operator. *)
Inductive Result : Type :=
| Completed (w : fs) (issues : list Issue) (fixes : list string) (input : list string)
| Crashed
| Pending.

(** [answer.toLowerCase() === 'y'] *)
Definition saysYes (answer : string) : bool := String.eqb answer "y" || String.eqb answer "Y".

(** The loop of [applyFixes] over the fixable issues. *)
Fixpoint fixLoop (queue : list Issue) (w : fs) (fixes : list string) (input : list string)
  : option (fs * list string * list string) :=
  match queue with
  | [] => Some (w, fixes, input)
  | issue :: queue' =>
      let decision :=
        if autoFix opts then Some (true, input)
        else match input with
             | answer :: input' => Some (saysYes answer, input')
             | [] => None
             end in
      match decision with
      | None => None
      | Some (false, input1) => fixLoop queue' w fixes input1
      | Some (true, input1) =>
          match fix_ issue with
          | Some f =>
              match runFix f w input1 with
              | Fixed w' input2 => fixLoop queue' w' (fixes ++ [id issue]) input2
              | Failed w' input2 => fixLoop queue' w' fixes input2
              | Waiting => None
              end
          | None => fixLoop queue' w fixes input1
          end
      end
  end.

Definition applyFixes (issues : list Issue) (w : fs) (input : list string)
  : option (fs * list string * list string) :=
  fixLoop (List.filter (fun issue => fixable issue) issues) w [] input.

Definition run (w : fs) (input : list string) : Result :=
  match scanForIssues host opts w [] with
  | (None, _) => Crashed
  | (Some _, issues) =>
      match issues with
      | [] => Completed w issues [] input
      | _ =>
          if scanOnly opts then Completed w issues [] input
          else match applyFixes issues w input with
               | Some (w', fixes, input') => Completed w' issues fixes input'
               | None => Pending
               end
      end
  end.

End Fixes.

(** *** Vocabulary of the properties *)

(** A check only appends to the issues, and what it appends and how it
    ends do not depend on the issues found before; [emits P m] says so
    and that the issues appended satisfy [P]. *)
Definition emits (P : Issue -> Prop) {A} (m : Scan A) : Prop :=
  (forall acc, m acc = (fst (m []), acc ++ snd (m []))) /\ Forall P (snd (m [])).

(** The three defects of the project structure. *)
Definition structureIds : list string := ["no_readme"; "no_gitignore"; "no_plans_directory"].

(** The lines a remediation reads from the operator when it runs. *)
Definition asks (i : Issue) : nat :=
  match fix_ i with
  | Some FixGitConfig => 2
  | _ => 0
  end.

Definition linesAsked (queue : list Issue) : nat := list_sum (map asks queue).

(** The options of [node tools/error-recovery.js --auto], with a
    category. *)
Definition autoOptions (cat : string) : Options :=
  {| rootDir := "/work/shop"; rootName := "shop";
     autoFix := true; scanOnly := false; verbose := false; category := cat |}.

(** The options of [node tools/error-recovery.js --auto --scan]. *)
Definition autoScanOptions : Options :=
  {| rootDir := "/work/shop"; rootName := "shop";
     autoFix := true; scanOnly := true; verbose := false; category := "all" |}.

(** Two project directories without README.md, .gitignore and plans/:
    an empty one, and one whose package.json is no JSON text. *)
Definition emptyDir : fs := ∅.
Definition brokenManifestDir : fs := {["package.json" := File "{ name: "]}.

End ErrorRecovery.

(** ** .roo/local-rag-llamaindex/start.sh *)

Module StartScript.

(** What the script observes of its environment: the exit status of
    each command it runs. *)
Record Env : Type := {
  docker_info : bool;          (* docker info succeeds *)
  docker_compose_found : bool; (* command -v docker-compose succeeds *)
  compose_up : nat;            (* exit status of docker-compose up -d *)
  health : nat -> bool         (* curl -s http://localhost:8000/health succeeds
                                  on the attempt of that number, from 0 *)
}.

Inductive event : Type :=
| Echo (line : string)
| Run (command : string)
| Sleep (seconds : nat).

Definition max_retries : nat := 30.

Definition curl : event := Run "curl -s http://localhost:8000/health".

(** The while loop, entered with the value of [retry_count]; it returns
    the value of [retry_count] when the loop is left and what happened
    in it. [fuel] bounds the number of tests of the loop condition. *)
Fixpoint poll (env : Env) (fuel : nat) (retry_count : nat) : option (nat * list event) :=
  match fuel with
  | 0 => None
  | S fuel' =>
      if (retry_count <? max_retries)%nat then
        if health env retry_count then
          Some (retry_count, [curl; Echo "✓ API is ready!"])
        else
          match poll env fuel' (retry_count + 1) with
          | Some (n, evs) =>
              Some (n, curl
                       :: Echo ("  Waiting... (" +:+ pretty (retry_count + 1) +:+ "/" +:+ pretty max_retries +:+ ")")
                       :: Sleep 2 :: evs)
          | None => None
          end
      else Some (retry_count, [])
  end.

(** The text between double quotes. *)
Definition quoted (s : string) : string :=
  String (ascii_of_nat 34) s +:+ String (ascii_of_nat 34) "".

(** What the script prints once the API is ready. *)
Definition readyMessage : list event :=
  [Echo "";
   Echo "✅ RAG System is ready!";
   Echo "";
   Echo "📚 Access points:";
   Echo "  - API:    http://localhost:8000";
   Echo "  - Docs:   http://localhost:8000/docs";
   Echo "  - Qdrant: http://localhost:6333/dashboard";
   Echo "";
   Echo "🔧 Quick commands:";
   Echo ("  - Index docs:   curl -X POST http://localhost:8000/ingest -H 'Content-Type: application/json' -d '{"
         +:+ quoted "path" +:+ ": " +:+ quoted "/workspace" +:+ "}'");
   Echo ("  - Query:        curl -X POST http://localhost:8000/query -H 'Content-Type: application/json' -d '{"
         +:+ quoted "question" +:+ ": " +:+ quoted "How does the Conductor work?" +:+ "}'");
   Echo "  - View logs:    docker-compose logs -f";
   Echo "  - Stop system:  docker-compose down";
   Echo ""].

(** The script: what happens, and its exit status. *)
Definition script (env : Env) (fuel : nat) : option (list event * nat) :=
  let start := [Echo "🚀 Starting Copilot Orchestra RAG System..."; Echo ""; Run "docker info"] in
  if negb (docker_info env) then
    Some (start ++ [Echo "❌ Error: Docker is not running";
                    Echo "Please start Docker and try again"], 1)
  else
    let checked := start ++ [Echo "✓ Docker is running"; Run "command -v docker-compose"] in
    if negb (docker_compose_found env) then
      Some (checked ++ [Echo "❌ Error: docker-compose is not installed";
                        Echo "Please install docker-compose and try again"], 1)
    else
      let up := checked ++ [Echo "✓ docker-compose is available"; Echo "";
                            Echo "→ Starting services (this may take a few minutes on first run)...";
                            Run "docker-compose up -d"] in
      match compose_up env with
      | S _ => Some (up, compose_up env)         (* set -e *)
      | 0 =>
          let waited := up ++ [Echo ""; Echo "⏳ Waiting for services to be ready..."; Sleep 10;
                               Echo ""; Echo "→ Checking API health..."] in
          match poll env fuel 0 with
          | Some (retry_count, evs) =>
              if (retry_count =? max_retries)%nat then
                Some (waited ++ evs ++ [Echo "❌ API did not start in time";
                                        Echo "Check logs with: docker-compose logs"], 1)
              else
                Some (waited ++ evs ++ readyMessage, 0)
          | None => None
          end
      end.

Definition isCurl (e : event) : bool :=
  match e with Run c => String.eqb c "curl -s http://localhost:8000/health" | _ => false end.

Definition sleepOf (e : event) : nat :=
  match e with Sleep s => s | _ => 0 end.

(** The health checks made and the seconds slept in a stretch of
    events. *)
Definition attempts (evs : list event) : nat := length (List.filter isCurl evs).
Definition slept (evs : list event) : nat := list_sum (map sleepOf evs).

(** A round of the loop in which the health check fails, and [k] such
    rounds in a row from a given value of [retry_count]. *)
Definition waitingRound (j : nat) : list event :=
  [curl; Echo ("  Waiting... (" +:+ pretty j +:+ "/" +:+ pretty max_retries +:+ ")"); Sleep 2].

Definition waiting (retry_count k : nat) : list event :=
  flat_map waitingRound (seq (retry_count + 1) k).

(** An environment in which the services start and the query service
    never becomes healthy. *)
Definition neverHealthy : Env :=
  {| docker_info := true; docker_compose_found := true; compose_up := 0;
     health := fun _ => false |}.

End StartScript.

(** ** .github/agents/quality-assurance-subagent.agent.md *)

Module QA.

(** *** The metadata header *)

Record Header : Type := {
  description : string;
  tools : list string;
  model : string
}.

Definition header : Header := {|
  description := "Quality assurance specialist validating code quality, security, test coverage, and performance";
  tools := ["runCommands"; "edit"; "search"; "usages"; "problems"; "changes"; "testFailure"; "fetch"];
  model := "Claude Sonnet 4.5 (copilot)"
|}.

(** The header of the planning role, for comparison. *)
Definition planningTools : list string :=
  ["search"; "usages"; "problems"; "changes"; "testFailure"; "fetch"; "githubRepo"].

(** The capability that lets a role edit files (templates/README.md:
    'edit' is "File editing"). *)
Definition grantsEditing (ts : list string) : bool := existsb (String.eqb "edit") ts.

(** *** The quality standards

    What the role has found about a phase, as far as the three lists
    of the section <quality_standards> speak of it. *)
Record Findings : Type := {
  securityVulnerabilities : nat;
  hardcodedSecrets : nat;
  failingTests : nat;
  buildBreakingLintErrors : nat;
  otherLintErrors : nat;
  lintWarnings : nat;
  newFunctionalityUntested : bool;
  coverage : option N;            (* percent for new code, if measurable *)
  publicApiUndocumented : bool;
  styleInconsistencies : bool;
  internalFunctionsUndocumented : bool;
  minorPerformanceConcerns : bool;
  todoComments : bool
}.

Inductive Status : Type := PASS | ADVISORY | FAIL.

(** "Minimum Standards for PASS", items 1 to 7. *)
Definition meetsMinimumStandards (f : Findings) : bool :=
  (securityVulnerabilities f =? 0)%nat
  && (buildBreakingLintErrors f + otherLintErrors f =? 0)%nat
  && negb (newFunctionalityUntested f)
  && (failingTests f =? 0)%nat
  && (hardcodedSecrets f =? 0)%nat
  && match coverage f with Some c => (70 <=? c)%N | None => true end
  && negb (publicApiUndocumented f).

(** "Automatic FAIL Conditions" *)
Definition automaticFail (f : Findings) : bool :=
  (0 <? securityVulnerabilities f)%nat
  || (0 <? failingTests f)%nat
  || (0 <? buildBreakingLintErrors f)%nat
  || newFunctionalityUntested f
  || (0 <? hardcodedSecrets f)%nat.

(** "Advisory Conditions (PASS with warnings)". Coverage of 70% meets
    the minimum for PASS, so the band "60-70%" ends below it. *)
Definition advisoryCondition (f : Findings) : bool :=
  (0 <? lintWarnings f)%nat
  || match coverage f with Some c => (60 <=? c)%N && (c <? 70)%N | None => false end
  || styleInconsistencies f
  || internalFunctionsUndocumented f
  || minorPerformanceConcerns f
  || todoComments f.

(** The verdict the three lists name for a phase, if any: FAIL on an
    automatic FAIL condition, otherwise ADVISORY on an advisory
    condition, otherwise PASS when the minimum standards are met. *)
Definition verdict (f : Findings) : option Status :=
  if automaticFail f then Some FAIL
  else if advisoryCondition f then Some ADVISORY
  else if meetsMinimumStandards f then Some PASS
  else None.

(** A phase with the given coverage and nothing else found. *)
Definition phaseWithCoverage (c : N) : Findings := {|
  securityVulnerabilities := 0; hardcodedSecrets := 0; failingTests := 0;
  buildBreakingLintErrors := 0; otherLintErrors := 0; lintWarnings := 0;
  newFunctionalityUntested := false; coverage := Some c;
  publicApiUndocumented := false; styleInconsistencies := false;
  internalFunctionsUndocumented := false; minorPerformanceConcerns := false;
  todoComments := false
|}.

End QA.

(** ** tools/project-init.js: the review of the configuration *)

Module ProjectInitReview.
Import JS ProjectInit.

(** The line [reviewConfiguration] prints for an endpoint, after its
    indentation: [`${api.method} ${api.path} - ${api.description}`]. *)
Definition endpointText (api : Api) : jsstring :=
  method api ++ js " " ++ path api ++ js " - " ++ api_description api.

(** The endpoint expression after its first group, and its last part:
    the description up to the end of the line. *)
Definition descriptionToEnd : regex :=
  Seq (Group (plus (fun c => negb (isLineTerminator c)))) End.

Definition endpointTail : regex :=
  Seq (plus isSpace)
 (Seq (Group (Seq (unit_ 47) (Star (fun c => negb (isSpace c)))))
 (Seq (Star isSpace)
 (Seq (unit_ 45)
 (Seq (Star isSpace) descriptionToEnd)))).

Definition nonempty {A} (l : list A) : bool := match l with [] => false | _ => true end.

(** The class [p] goes no further at the start of [r]. *)
Definition stops (p : N -> bool) (r : jsstring) : Prop :=
  match r with [] => True | c :: _ => p c = false end.

End ProjectInitReview.

(** ** tools/project-init.js: the lines of .env.example *)

Module ProjectInitTemplates.
Import JS ProjectInit.

(** The two lines of .env.example that belong to a variable. *)
Definition commentLine (v : EnvVar) : jsstring := js "# " ++ var_description v.
Definition assignmentLine (v : EnvVar) : jsstring := var_name v ++ js "=".

(** The lines of the file that belong to the variables: for each one an
    empty line, its comment and its assignment; two empty lines when
    there is no variable. *)
Definition variableLines (variables : list EnvVar) : list jsstring :=
  match variables with
  | [] => [[]; []]
  | _ => flat_map (fun v => [[]; commentLine v; assignmentLine v]) variables
  end.

End ProjectInitTemplates.

(** ** tools/blueprint-generator.js: the analysis of a project *)

Module BlueprintAnalysis.
Import JS Node.

(** File names, dependency names and the lines of requirements.txt are
    JavaScript strings. *)

(** *** shouldExclude

    [this.excludePatterns]: the command line has no option for it and
    the setup wizard passes none, so the default is what runs. *)
Definition excludePatterns : list jsstring :=
  map js ["node_modules"; ".git"; "dist"; "build"; "coverage"; "*.log"; ".env"; "plans"].

Definition notLineTerminator (c : N) : bool := negb (isLineTerminator c).

(** [new RegExp(pattern.replace(/\*/g, '.*'))] for a pattern made of
    stars, dots and characters that stand for themselves in a regular
    expression, as the default patterns are: each star becomes a
    repetition of any character but a line terminator, and a dot, which
    is not escaped, stands for one such character. *)
Fixpoint globRegex (pattern : jsstring) : regex :=
  match pattern with
  | [] => Star (fun _ => false)
  | c :: pattern' =>
      let here := if (c =? 42)%N then Star notLineTerminator
                  else if (c =? 46)%N then Char notLineTerminator
                  else unit_ c in
      match pattern' with
      | [] => here
      | _ => Seq here (globRegex pattern')
      end
  end.

(** The suffixes of a string, from the whole string to the empty one:
    where a search may start. *)
Fixpoint suffixes (s : jsstring) : list jsstring :=
  s :: match s with [] => [] | _ :: s' => suffixes s' end.

(** [regex.test(name)] for an expression without flags: the expression
    matches somewhere in the name. *)
Definition test (r : regex) (name : jsstring) : bool :=
  existsb (fun t => match ways r t with [] => false | _ => true end) (suffixes name).

Definition hasStar (pattern : jsstring) : bool := existsb (fun c => (c =? 42)%N) pattern.

Definition matchesPattern (name pattern : jsstring) : bool :=
  if hasStar pattern then test (globRegex pattern) name
  else streq name pattern || ProjectInit.occursIn pattern name.

Definition shouldExclude (name : jsstring) : bool :=
  existsb (matchesPattern name) excludePatterns.

(** *** analyzeFileStructure

    What [fs.statSync] and [fs.readdirSync] show of a path: a file (or
    anything that is no directory), a directory with its entries, or
    [None] for a directory that cannot be listed, or a path on which
    [statSync] throws. *)
Inductive dirent : Type :=
| FileEntry (name : jsstring)
| DirEntry (name : jsstring) (listing : option (list dirent))
| Unreadable (name : jsstring).

(** The nodes of [this.fileStructure]. *)
Inductive tree : Type :=
| FileNode (name : jsstring)
| DirNode (name : jsstring) (children : list tree).

(** [buildDirectoryTree(dir, level, maxLevel)]; [None] is null. Below
    the root a path on which [statSync] throws is dropped by the
    handler around the child, which is the same null; at the root the
    exception escapes, see [analyzeFileStructure]. *)
Fixpoint buildDirectoryTree (maxLevel level : nat) (dir : dirent) {struct dir} : option tree :=
  if (maxLevel <? level)%nat then None
  else
    match dir with
    | DirEntry name listing =>
        if shouldExclude name then None
        else
          Some (DirNode name
                  match listing with
                  | Some entries =>
                      (fix children (l : list dirent) : list tree :=
                         match l with
                         | [] => []
                         | child :: l' =>
                             match
                               match child with
                               | DirEntry _ _ => buildDirectoryTree maxLevel (S level) child
                               | FileEntry nm =>
                                   if shouldExclude nm then None else Some (FileNode nm)
                               | Unreadable _ => None
                               end
                             with
                             | Some t => t :: children l'
                             | None => children l'
                             end
                         end) entries
                  | None => []
                  end)
    | FileEntry _ => None
    | Unreadable _ => None
    end.

(** What the callback of [map] returns for an entry of a directory at
    [level]. *)
Definition childTree (maxLevel level : nat) (child : dirent) : option tree :=
  match child with
  | DirEntry _ _ => buildDirectoryTree maxLevel (S level) child
  | FileEntry nm => if shouldExclude nm then None else Some (FileNode nm)
  | Unreadable _ => None
  end.

(** [analyzeFileStructure]: the value left in [this.fileStructure], or
    [None] when [statSync] throws on the root directory. *)
Definition analyzeFileStructure (root : dirent) : option (option tree) :=
  match root with
  | Unreadable _ => None
  | _ => Some (buildDirectoryTree 3 0 root)
  end.

(** The names in a tree, and the longest way down from its root. *)
Fixpoint names (t : tree) : list jsstring :=
  match t with
  | FileNode nm => [nm]
  | DirNode nm children => nm :: flat_map names children
  end.

Fixpoint height (t : tree) : nat :=
  match t with
  | FileNode _ => 0
  | DirNode _ children => fold_right (fun c acc => Nat.max (S (height c)) acc) 0 children
  end.

(** A project directory: an excluded file, an excluded directory, a
    path that cannot be read, and directories nested five deep. *)
Definition nestedDir : dirent :=
  DirEntry (js "shop")
    (Some [FileEntry (js ".gitignore");
           DirEntry (js "build") (Some [FileEntry (js "app.js")]);
           Unreadable (js "socket");
           DirEntry (js "a") (Some [DirEntry (js "b") (Some [DirEntry (js "c")
             (Some [DirEntry (js "d") (Some [FileEntry (js "deep.js")]);
                    FileEntry (js "kept.js")])])])]).

(** *** analyzeDependencies *)

(** [this.dependencies]: both fields are undefined until a manifest is
    found. *)
Record Dependencies : Type := {
  runtime : option (list jsstring);
  development : option (list jsstring)
}.

Definition isSpecifier (c : N) : bool := ((c =? 61) || (c =? 60) || (c =? 62))%N.

(** [line.split(/[=<>]/)[0]]: the line up to its first '=', '<' or '>'. *)
Fixpoint beforeSpecifier (line : jsstring) : jsstring :=
  match line with
  | c :: line' => if isSpecifier c then [] else c :: beforeSpecifier line'
  | [] => []
  end.

(** [line.trim() && !line.startsWith('#')] *)
Definition isRequirement (line : jsstring) : bool :=
  JS.truthy (trim line) && negb (match line with c :: _ => (c =? 35)%N | [] => false end).

Definition requirementName (line : jsstring) : jsstring := trim (beforeSpecifier line).

Definition requirements (text : jsstring) : list jsstring :=
  map requirementName (List.filter isRequirement (split 10 text)).

(** The text of a requirements.txt. *)
Definition pinnedRequirements : jsstring :=
  join [10%N] (map js ["# web"; "Flask>=2.0"; "  requests == 2.31"; " # pinned"; "==1.0"; ""]).

(** [Object.keys(v || {})] *)
Definition keysOf (v : value) : list jsstring :=
  map js (spreadKeys (Some (or_else v (JObj [])))).

(** [analyzeDependencies]; [None] when reading or parsing the manifest
    throws. *)
Definition analyzeDependencies (host : Host) (w : fs) : option Dependencies :=
  if existsSync w "package.json" then
    text ← readFileSync w "package.json";
    pkg ← JSON_parse host text;
    deps ← get (Some pkg) "dependencies";
    devDeps ← get (Some pkg) "devDependencies";
    Some {| runtime := Some (keysOf deps); development := Some (keysOf devDeps) |}
  else if existsSync w "requirements.txt" then
    text ← readFileSync w "requirements.txt";
    Some {| runtime := Some (requirements (js text)); development := Some [] |}
  else Some {| runtime := None; development := None |}.

(** *** detectPatterns *)

Record Patterns : Type := {
  frontend : list string;
  backend : list string;
  database : list string;
  testing : list string;
  deployment : list string
}.

(** The lower case of a code unit as far as it can be an ASCII letter:
    besides the capitals, only the Kelvin sign has one for its lower
    case. *)
Definition lowerUnitAscii (c : N) : N := if (c =? 0x212A)%N then 107%N else lowerUnit c.

(** [words.includes(d.toLowerCase())] for ASCII words *)
Definition namedIn (words : list string) (d : jsstring) : bool :=
  existsb (fun word => streq (map lowerUnitAscii d) (js word)) words.

(** [d.includes(part)] for one of the parts *)
Definition mentions (parts : list string) (d : jsstring) : bool :=
  existsb (fun part => ProjectInit.occursIn (js part) d) parts.

Definition allDependencies (deps : Dependencies) : list jsstring :=
  match runtime deps with Some l => l | None => [] end
  ++ match development deps with Some l => l | None => [] end.

Definition detectPatterns (deps : Dependencies) (w : fs) : Patterns :=
  let all := allDependencies deps in
  let found (b : bool) (label : string) : list string := if b then [label] else [] in
  {| frontend :=
       found (existsb (namedIn ["react"; "next"; "vue"; "angular"]) all) "Component-based UI"
       ++ found (existsb (namedIn ["redux"; "zustand"; "mobx"; "vuex"]) all) "State Management";
     backend :=
       found (existsb (namedIn ["express"; "koa"; "fastify"; "hapi"]) all) "REST API"
       ++ found (existsb (mentions ["graphql"]) all) "GraphQL API"
       ++ found (existsb (namedIn ["django"; "flask"; "fastapi"]) all) "Python Web Framework";
     database :=
       found (existsb (namedIn ["mongoose"; "mongodb"; "pg"; "mysql"; "sqlite3"]) all)
             "Database Integration"
       ++ found (existsb (mentions ["prisma"; "typeorm"; "sequelize"]) all) "ORM";
     testing :=
       found (existsb (namedIn ["jest"; "mocha"; "vitest"; "pytest"; "junit"]) all) "Unit Testing"
       ++ found (existsb (mentions ["testing-library"; "cypress"; "playwright"]) all)
                "E2E/Integration Testing";
     deployment :=
       found (existsSync w "Dockerfile") "Docker Containerization"
       ++ found (existsSync w ".github/workflows") "GitHub Actions CI/CD" |}.

Definition getPatternCount (p : Patterns) : nat :=
  length (frontend p) + length (backend p) + length (database p)
  + length (testing p) + length (deployment p).

(** *** createRecommendations: the items of the list *)

Definition addTesting : string :=
  "**Add Testing Framework** - No testing patterns detected. Consider adding Jest, pytest, or similar.".
Definition addReadme : string :=
  "**Add README** - Project lacks documentation. Create a comprehensive README.md.".
Definition addGitignore : string :=
  "**Add .gitignore** - No .gitignore file found. Add one to exclude build artifacts.".
Definition setupCICD : string :=
  "**Setup CI/CD** - No deployment patterns detected. Consider adding GitHub Actions or similar.".
Definition looksGood : string :=
  "✅ **Project structure looks good!** All essential components are in place.".

Definition createRecommendations (p : Patterns) (w : fs) : list string :=
  let recommendations :=
    (if (length (testing p) =? 0)%nat then [addTesting] else [])
    ++ (if negb (existsSync w "README.md") then [addReadme] else [])
    ++ (if negb (existsSync w ".gitignore") then [addGitignore] else [])
    ++ (if (length (deployment p) =? 0)%nat then [setupCICD] else []) in
  match recommendations with
  | [] => [looksGood]
  | _ => recommendations
  end.

(** The analysis of [generate] as far as the recommendations depend on
    it. *)
Definition recommendationsFor (host : Host) (w : fs) : option (list string) :=
  deps ← analyzeDependencies host w;
  Some (createRecommendations (detectPatterns deps w) w).

End BlueprintAnalysis.

(** ** tools/setup-wizard.js: the steps of the wizard *)

Module SetupWizard.
Import Node.

(** *** Step 1: detectProjectType *)

(** The detectors, in the order of their keys. *)
Definition detectors : list (string * (fs -> bool)) :=
  [("Node.js", fun w => existsSync w "package.json");
   ("Python", fun w => existsSync w "requirements.txt" || existsSync w "pyproject.toml");
   ("Java", fun w => existsSync w "pom.xml" || existsSync w "build.gradle");
   ("Ruby", fun w => existsSync w "Gemfile");
   ("PHP", fun w => existsSync w "composer.json");
   ("Go", fun w => existsSync w "go.mod");
   ("Rust", fun w => existsSync w "Cargo.toml")].

Definition detected (w : fs) : list string :=
  map fst (List.filter (fun d => snd d w) detectors).

(** The value left in [this.config.projectType] and the operator's
    unread lines; [None] when the question is never answered. *)
Definition detectProjectType (w : fs) (input : list string) : option (string * list string) :=
  match detected w with
  | type :: _ => Some (type, input)
  | [] =>
      match input with
      | type :: input' => Some (if String.eqb type "" then "Other" else type, input')
      | [] => None
      end
  end.

(** *** Steps that change the project

    A step ends normally, or by throwing (the handler of [run] then
    prints that the setup failed), in both cases leaving the file
    system as changed so far, or it waits for a line that never
    comes. *)
Inductive Outcome : Type :=
| Done (w : fs) (input : list string)
| Thrown (w : fs) (input : list string)
| Waiting.

(** [answer.toLowerCase() === 'y'] *)
Definition saysYes (answer : string) : bool := ErrorRecovery.saysYes answer.

(** *** Step 5: setupDirectories *)

(** [if (!present) { answer = await prompt(...); if (yes) dirs.push(dir) }] *)
Definition askFor (present : bool) (dir : string) (dirs : list string) (input : list string)
  : option (list string * list string) :=
  if present then Some (dirs, input)
  else match input with
       | answer :: input' => Some (if saysYes answer then dirs ++ [dir] else dirs, input')
       | [] => None
       end.

(** [if (!fs.existsSync(dirPath)) fs.mkdirSync(dirPath, { recursive: true })] *)
Definition ensureDir (w : fs) (dir : string) : fs :=
  if existsSync w dir then w else <[dir := Dir]> w.

Definition setupDirectories (projectType : string) (w : fs) (input : list string) : Outcome :=
  match
    (if String.eqb projectType "Node.js" then
       let hasSrc := existsSync w "src" in
       let hasTests := existsSync w "tests" || existsSync w "__tests__" in
       match askFor hasSrc "src" ["plans"] input with
       | Some (dirs, input1) => askFor hasTests "tests" dirs input1
       | None => None
       end
     else Some (["plans"], input))
  with
  | None => Waiting
  | Some (dirs, input') =>
      let w1 := fold_left ensureDir dirs w in
      if existsSync w1 "plans/.gitkeep" then Done w1 input'
      else match w1 !! "plans" with
           | Some Dir =>
               match writeFileSync w1 "plans/.gitkeep" "" with
               | Some w2 => Done w2 input'
               | None => Thrown w1 input'
               end
           | _ => Thrown w1 input'      (* plans is a file: ENOTDIR *)
           end
  end.

(** *** Step 6: setupTestFramework *)

(** [({ ...deps, ...devDeps })[key]]: the later spread wins. Only an
    object has a key that is no index. *)
Definition ownField (v : value) (key : string) : value :=
  match v with
  | Some (JObj fields) => assoc key fields
  | _ => None
  end.

Definition mergedField (deps devDeps : value) (key : string) : value :=
  match ownField devDeps key with
  | Some v => Some v
  | None => ownField deps key
  end.

(** [!!deps.jest || !!deps.vitest || !!deps.mocha]; [None] when reading
    the dependencies of the manifest throws (a manifest that is null). *)
Definition hasTestFramework (pkg : json) : option bool :=
  deps ← get (Some pkg) "dependencies";
  devDeps ← get (Some pkg) "devDependencies";
  Some (truthy (mergedField deps devDeps "jest")
        || truthy (mergedField deps devDeps "vitest")
        || truthy (mergedField deps devDeps "mocha")).

(** String.prototype.includes *)
Definition includes (text part : string) : bool :=
  ProjectInit.occursIn (JS.js part) (JS.js text).

Definition pytestLines : string :=
  ErrorRecovery.newline +:+ "pytest" +:+ ErrorRecovery.newline
  +:+ "pytest-cov" +:+ ErrorRecovery.newline.

Section Steps.

Variable host : Host.

(** The body of the Node.js branch once the operator has accepted: the
    installation and the rewriting of the manifest, whose failures are
    caught and reported. The manifest written is made from [pkg], the
    one parsed before the installation. *)
Definition installJest (pkg : json) (w : fs) : fs :=
  match execSync host "npm install --save-dev jest" w with
  | Some w1 =>
      match ErrorRecovery.setTestScript true "jest" pkg with
      | Some pkg' =>
          match writeFileSync w1 "package.json" (JSON_stringify host pkg' +:+ ErrorRecovery.newline) with
          | Some w2 => w2
          | None => w1
          end
      | None => w1
      end
  | None => w
  end.

Definition setupTestFramework (projectType : string) (w : fs) (input : list string) : Outcome :=
  if String.eqb projectType "Node.js" then
    if negb (existsSync w "package.json") then Done w input
    else
      match readFileSync w "package.json" with
      | None => Thrown w input
      | Some text =>
          match JSON_parse host text with
          | None => Thrown w input
          | Some pkg =>
              match hasTestFramework pkg with
              | None => Thrown w input
              | Some true => Done w input
              | Some false =>
                  match input with
                  | answer :: input' =>
                      if saysYes answer then Done (installJest pkg w) input'
                      else Done w input'
                  | [] => Waiting
                  end
              end
          end
      end
  else if String.eqb projectType "Python" then
    match (if existsSync w "requirements.txt"
           then readFileSync w "requirements.txt"
           else Some "") with
    | None => Thrown w input
    | Some requirements =>
        if negb (includes requirements "pytest") then
          match input with
          | answer :: input' =>
              if saysYes answer
              then Done (<["requirements.txt" := File (requirements +:+ pytestLines)]> w) input'
              else Done w input'
          | [] => Waiting
          end
        else Done w input
    end
  else Done w input.

End Steps.

(** *** The other steps and [run] *)

(** The lines of [createGitignore]. *)
Definition gitignoreText (projectType : string) : string :=
  ErrorRecovery.unlines
    (["# Dependencies"; "node_modules/"]
     ++ (if String.eqb projectType "Python"
         then ["__pycache__/"; "*.py[cod]"; "venv/"; "env/"]
         else [])
     ++ [""; "# Build outputs"; "dist/"; "build/"; "";
         "# Environment variables"; ".env"; ".env.local"; "";
         "# IDE"; ".vscode/"; ".idea/"; "";
         "# OS"; ".DS_Store"; "Thumbs.db"; "";
         "# Orchestra plans (uncomment to exclude)"; "# plans/"; "";
         "# Logs"; "*.log"]).

(** [await this.prompt(...)] followed by what is done with the answer. *)
Definition ask (k : string -> fs -> list string -> Outcome) (w : fs) (input : list string)
  : Outcome :=
  match input with
  | answer :: input' => k answer w input'
  | [] => Waiting
  end.

(** One step after another: an exception or an unanswered question
    ends the sequence. *)
Definition andThen (o : Outcome) (k : fs -> list string -> Outcome) : Outcome :=
  match o with
  | Done w input => k w input
  | Thrown w input => Thrown w input
  | Waiting => Waiting
  end.

Section Run.

Variable host : Host.

(** Whether [execSync] of a version check succeeds. *)
Variable versionCheck : string -> bool.

(** The text of [createReadme] for the name, the description and the
    type of the project, and what [generator.generate()] writes to
    PROJECT-BLUEPRINT.md ([None] when it throws); both are documents
    whose text no property here depends on. *)
Variable readmeText : string -> string -> string -> string.
Variable blueprintText : fs -> option string.

(** [this.rootDir], which is [process.cwd()], and its base name. *)
Variable rootDir : string.
Variable rootName : string.

(** Step 2 *)
Definition checkPrerequisites (w : fs) (input : list string) : Outcome :=
  if versionCheck "code-insiders --version" && versionCheck "git --version"
     && versionCheck "node --version"
  then Done w input
  else ask (fun cont w input => if saysYes cont then Done w input else Thrown w input) w input.

(** Step 4: the questions of [setupAgents], which changes nothing. *)
Definition setupAgents (w : fs) (input : list string) : Outcome :=
  let existing :=
    List.filter (fun file => existsSync w (ErrorRecovery.agentPath file)) ErrorRecovery.agentFiles in
  if (length existing =? 5)%nat then Done w input
  else ask (fun choice w input =>
              if String.eqb choice "1" then ask (fun _ w input => Done w input) w input
              else Done w input) w input.

(** Step 7 *)
Definition setupGit (projectType : string) (w : fs) (input : list string) : Outcome :=
  andThen
    (if negb (existsSync w ".git") then
       ask (fun initGit w input =>
              if saysYes initGit then
                match execSync host "git init" w with
                | Some w1 => Done w1 input
                | None => Thrown w input
                end
              else Done w input) w input
     else Done w input)
    (fun w input =>
       if negb (existsSync w ".gitignore") then
         ask (fun createGitignore w input =>
                if saysYes createGitignore then
                  match writeFileSync w ".gitignore" (gitignoreText projectType) with
                  | Some w1 => Done w1 input
                  | None => Thrown w input
                  end
                else Done w input) w input
       else Done w input).

(** Step 8 *)
Definition generateDocs (projectType name description : string) (w : fs) (input : list string)
  : Outcome :=
  andThen
    (if negb (existsSync w "README.md") then
       ask (fun createReadme w input =>
              if saysYes createReadme then
                match writeFileSync w "README.md" (readmeText name description projectType) with
                | Some w1 => Done w1 input
                | None => Thrown w input
                end
              else Done w input) w input
     else Done w input)
    (fun w input =>
       ask (fun generateBlueprint w input =>
              if saysYes generateBlueprint then
                match blueprintText w with
                | Some text =>
                    match writeFileSync w "PROJECT-BLUEPRINT.md" text with
                    | Some w1 => Done w1 input
                    | None => Done w input
                    end
                | None => Done w input
                end
              else Done w input) w input).

(** [run]: the eight steps. The final checks that follow are a scan of
    the error recovery tool, which changes nothing and whose failure is
    caught. [Thrown] stands for "Setup failed". *)
Definition run (w : fs) (input : list string) : Outcome :=
  match detectProjectType w input with
  | None => Waiting
  | Some (projectType, input1) =>
      andThen (checkPrerequisites w input1) (fun w input =>
      ask (fun name w input =>
      ask (fun description w input =>
        let name := if String.eqb name "" then rootName else name in
        andThen (setupAgents w input) (fun w input =>
        andThen (setupDirectories projectType w input) (fun w input =>
        andThen (setupTestFramework host projectType w input) (fun w input =>
        andThen (setupGit projectType w input) (fun w input =>
        generateDocs projectType name description w input))))) w input) w input)
  end.

(** [new ErrorRecovery({ scan: true, rootDir: this.rootDir })] *)
Definition finalCheckOptions : ErrorRecovery.Options :=
  {| ErrorRecovery.rootDir := rootDir; ErrorRecovery.rootName := rootName;
     ErrorRecovery.autoFix := false; ErrorRecovery.scanOnly := true;
     ErrorRecovery.verbose := false; ErrorRecovery.category := "all" |}.

(** What [runFinalChecks] reports: the issues found by the run of the
    error recovery tool, or nothing when that run throws, which is
    caught. *)
Definition runFinalChecks (w : fs) (input : list string) : option (list ErrorRecovery.Issue) :=
  match ErrorRecovery.run host finalCheckOptions w input with
  | ErrorRecovery.Completed _ issues _ _ => Some issues
  | _ => None
  end.

End Run.

(** *** Vocabulary of the properties *)

(** If the step completes, [D] holds of the file system and the unread
    lines it leaves; if it throws, [T] does. *)
Definition ends (D T : fs -> list string -> Prop) (o : Outcome) : Prop :=
  match o with
  | Done w input => D w input
  | Thrown w input => T w input
  | Waiting => True
  end.

(** The operator accepts nothing. *)
Definition declines (input : list string) : Prop :=
  Forall (fun answer => saysYes answer = false) input.

(** [w'] is [w] with, at most, plans and plans/.gitkeep added. *)
Definition addsOnlyPlans (w w' : fs) : Prop :=
  (forall p e, w !! p = Some e -> w' !! p = Some e)
  /\ (forall p, w !! p = None -> w' !! p <> None -> p = "plans" \/ p = "plans/.gitkeep").

(** A host on which the installation of Jest succeeds and rewrites
    package.json, as npm does; every manifest parses to the same
    object. *)
Definition npmHost : Host := {|
  JSON_parse := fun _ => Some (JObj [("name", JStr "shop"); ("devDependencies", JObj [])]);
  JSON_stringify := fun _ => "{ ... }";
  gitQuery := fun _ _ => None;
  execSync := fun _ w => Some (<["package.json" := File "{ as npm wrote it }"]>
                                 (<["node_modules" := Dir]> w))
|}.

Definition nodeDir : fs := {["package.json" := File "{ as it was }"]}.

(** The lines of an operator who names the project and then accepts
    nothing. *)
Definition decliningAnswers : list string :=
  ["shop"; "A shop"; "3"; "n"; "n"; "n"; "n"; "n"; "n"; "no"].

End SetupWizard.

(** ** tools/error-recovery.js: the command line *)

Module ErrorRecoveryCLI.
Import Node ErrorRecovery.

(** The object [options] built from the arguments. *)
Record Flags : Type := {
  scan : bool;
  auto : bool;
  verboseFlag : bool;
  categoryArg : option string     (* [None] is undefined *)
}.

Definition noFlags : Flags :=
  {| scan := false; auto := false; verboseFlag := false; categoryArg := None |}.

Definition isOneOf (names : list string) (arg : string) : bool :=
  existsb (String.eqb arg) names.

(** The loop over [process.argv.slice(2)]; [None] when the help is
    asked for, which prints it and exits with status 0. *)
Fixpoint parseArgs (args : list string) (o : Flags) : option Flags :=
  match args with
  | [] => Some o
  | arg :: rest_ =>
      if isOneOf ["--scan"; "-s"] arg then
        parseArgs rest_ {| scan := true; auto := auto o;
                           verboseFlag := verboseFlag o; categoryArg := categoryArg o |}
      else if isOneOf ["--auto"; "-a"] arg then
        parseArgs rest_ {| scan := scan o; auto := true;
                           verboseFlag := verboseFlag o; categoryArg := categoryArg o |}
      else if isOneOf ["--category"; "-c"] arg then
        match rest_ with
        | c :: rest' =>
            parseArgs rest' {| scan := scan o; auto := auto o;
                               verboseFlag := verboseFlag o; categoryArg := Some c |}
        | [] => Some {| scan := scan o; auto := auto o;
                        verboseFlag := verboseFlag o; categoryArg := None |}
        end
      else if isOneOf ["--verbose"; "-v"] arg then
        parseArgs rest_ {| scan := scan o; auto := auto o;
                           verboseFlag := true; categoryArg := categoryArg o |}
      else if isOneOf ["--help"; "-h"] arg then None
      else parseArgs rest_ o
  end.

(** The constructor: [options.x || default]. *)
Definition optionsOf (cwd cwdName : string) (o : Flags) : Options :=
  {| rootDir := cwd; rootName := cwdName;
     autoFix := auto o; scanOnly := scan o; verbose := verboseFlag o;
     category := match categoryArg o with
                 | Some c => if String.eqb c "" then "all" else c
                 | None => "all"
                 end |}.

(** [node tools/error-recovery.js args] in the directory [cwd]. *)
Definition main (host : Host) (cwd cwdName : string) (args : list string)
    (w : fs) (input : list string) : option Result :=
  o ← parseArgs args noFlags;
  Some (run host (optionsOf cwd cwdName o) w input).

(** The arguments that stand for themselves: those that neither take
    the next argument for a value nor ask for the help. *)
Definition standsAlone (arg : string) : bool :=
  negb (isOneOf ["--category"; "-c"; "--help"; "-h"] arg).

Definition isFlag (arg : string) : bool :=
  isOneOf ["--scan"; "-s"; "--auto"; "-a"; "--verbose"; "-v"; "--help"; "-h";
           "--category"; "-c"] arg.

End ErrorRecoveryCLI.

(* ===================================================================== *)
(** * Part II: properties                                                 *)
(* ===================================================================== *)

(** ** The wizard's questions *)

Module ProjectInitFacts.
Import JS ProjectInit.

(** *** Ways of matching *)

Lemma ways_Seq_inv r1 r2 s w :
  In w (ways (Seq r1 r2) s) ->
  exists w1 w2, In w1 (ways r1 s) /\ In w2 (ways r2 (rest w1)) /\
    w = Way (consumed w1 ++ consumed w2) (captures w1 ++ captures w2) (rest w2).
Proof.
  cbn [ways]. intros H. apply in_flat_map in H as (w1 & H1 & H).
  apply in_map_iff in H as (w2 & <- & H2). eauto.
Qed.

Lemma ways_Group_inv r s w :
  In w (ways (Group r) s) ->
  exists w1, In w1 (ways r s) /\ w = Way (consumed w1) (consumed w1 :: captures w1) (rest w1).
Proof.
  cbn [ways]. intros H. apply in_map_iff in H as (w1 & <- & H1). eauto.
Qed.

Lemma ways_Char_inv p s w :
  In w (ways (Char p) s) ->
  exists c, s = c :: rest w /\ p c = true /\ consumed w = [c] /\ captures w = [].
Proof.
  cbn [ways]. destruct s as [|c s']; [intros []|].
  destruct (p c) eqn:E; [|intros []].
  intros [<-|[]]. exists c. auto.
Qed.

(** A literal under the i flag consumes a text whose upper case is the
    literal, and captures nothing. *)
Lemma literal_i_consumed lit : lit <> [] ->
  forall s w, In w (ways (literal_i lit) s) ->
    toUpperCase (consumed w) = lit /\ captures w = [].
Proof.
  induction lit as [|c lit IH]; [congruence|]. intros _ s w H.
  destruct lit as [|c' lit'].
  - apply ways_Char_inv in H as (x & _ & Hx & -> & ->).
    apply N.eqb_eq in Hx. cbn. now rewrite Hx.
  - change (literal_i (c :: c' :: lit'))
      with (Seq (Char (fun x => (upperUnit x =? c)%N)) (literal_i (c' :: lit'))) in H.
    apply ways_Seq_inv in H as (w1 & w2 & H1 & H2 & ->).
    apply ways_Char_inv in H1 as (x & _ & Hx & E1 & C1).
    apply IH in H2 as [E2 C2]; [|congruence].
    apply N.eqb_eq in Hx. cbn [consumed captures]. rewrite E1, C1, C2. split; [|reflexivity].
    unfold toUpperCase in *. cbn. now rewrite Hx, E2.
Qed.

Lemma methodAlternatives_consumed s w :
  In w (ways methodAlternatives s) ->
  In (toUpperCase (consumed w)) httpMethods /\ captures w = [].
Proof.
  unfold methodAlternatives. cbn [ways]. rewrite !in_app_iff.
  intros [H|[H|[H|[H|H]]]];
    apply literal_i_consumed in H as [-> ->]; try (cbn; congruence);
    (split; [cbn; tauto | reflexivity]).
Qed.

(** Whatever line matches, the method recorded is one of the five
    names, in capitals. *)
Lemma parseEndpoint_method line api :
  parseEndpoint line = Some api -> In (method api) httpMethods.
Proof.
  unfold parseEndpoint, matchStart.
  destruct (ways endpointRegex line) as [|w ws] eqn:E; [discriminate|].
  assert (Hw : In w (ways endpointRegex line)) by (rewrite E; now left).
  clear E. unfold endpointRegex in Hw.
  apply ways_Seq_inv in Hw as (w1 & w2 & H1 & _ & ->).
  apply ways_Group_inv in H1 as (wa & Ha & ->).
  apply (methodAlternatives_consumed line) in Ha as [Hm Hc].
  cbn [captures consumed]. rewrite Hc. cbn [app].
  destruct (captures w2) as [|m2 [|m3 [|? ?]]]; try discriminate.
  intros [= <-]. exact Hm.
Qed.

(** *** The endpoint loop *)

Lemma endpointLoop_empty acc input : endpointLoop [] acc input = Some (acc, input).
Proof. destruct input; reflexivity. Qed.

Lemma endpointLoop_step c line acc next input :
  endpointLoop (c :: line) acc (next :: input)
  = endpointLoop next (match parseEndpoint (c :: line) with
                       | Some api => acc ++ [api]
                       | None => acc
                       end) input.
Proof. reflexivity. Qed.

Lemma endpointLoop_collects ls : forall first acc rest_,
  Forall (fun l => l <> []) (first :: ls) ->
  endpointLoop first acc (ls ++ [] :: rest_)
  = Some (acc ++ omap parseEndpoint (first :: ls), rest_).
Proof.
  induction ls as [|l ls IH]; intros first acc rest_ HF;
    inversion HF as [|? ? Hne HF']; subst;
    (destruct first as [|c first']; [congruence|]);
    cbn [app]; rewrite endpointLoop_step.
  - rewrite endpointLoop_empty. cbn [omap list_omap].
    destruct (parseEndpoint (c :: first')); now rewrite ?app_nil_r.
  - rewrite IH by exact HF'.
    change (omap parseEndpoint ((c :: first') :: l :: ls))
      with (match parseEndpoint (c :: first') with
            | Some api => api :: omap parseEndpoint (l :: ls)
            | None => omap parseEndpoint (l :: ls)
            end).
    destruct (parseEndpoint (c :: first')) as [api|]; [|reflexivity].
    now rewrite <- app_assoc.
Qed.

Lemma upperUnit_capital c k :
  (65 <= k <= 90)%N -> upperUnit c = k -> c = k \/ c = (k + 32)%N.
Proof.
  intros Hk. unfold upperUnit.
  destruct ((97 <=? c) && (c <=? 122))%N eqn:E; [|auto].
  apply andb_true_iff in E as [E1 E2]. apply N.leb_le in E1, E2. lia.
Qed.

(** The example line with its method in any mix of cases. *)
Lemma get_in_any_case u :
  toUpperCase u = js "GET" ->
  parseEndpoint (u ++ js " /api/users - Get all users")
  = Some {| method := js "GET"; path := js "/api/users";
            api_description := js "Get all users" |}.
Proof.
  destruct u as [|c1 [|c2 [|c3 [|c4 u]]]]; try discriminate.
  intros [= H1 H2 H3].
  apply upperUnit_capital in H1, H2, H3; try (vm_compute; split; discriminate).
  destruct H1 as [-> | ->], H2 as [-> | ->], H3 as [-> | ->]; vm_compute; reflexivity.
Qed.

(** C7. The line 'GET /api/users - Get all users' parses into the record
    with method GET, path /api/users and description 'Get all users',
    and so it does with its method written in any mix of cases; the
    method recorded is always one of the five names in capitals; and
    the loop, fed non-empty lines and then an empty one, ends at the
    empty line with exactly the records of the lines that match, in
    order: a line that does not match adds nothing and does not stop the
    loop. *)
Theorem endpoint_loop_keeps_matching_lines :
  parseEndpoint (js "GET /api/users - Get all users")
  = Some {| method := js "GET"; path := js "/api/users";
            api_description := js "Get all users" |}
  /\ (forall u, toUpperCase u = js "GET" ->
        parseEndpoint (u ++ js " /api/users - Get all users")
        = Some {| method := js "GET"; path := js "/api/users";
                  api_description := js "Get all users" |})
  /\ (forall line api, parseEndpoint line = Some api -> In (method api) httpMethods)
  /\ (forall first ls acc rest_,
        Forall (fun l => l <> []) (first :: ls) ->
        endpointLoop first acc (ls ++ [] :: rest_)
        = Some (acc ++ omap parseEndpoint (first :: ls), rest_))
  /\ (forall line acc next input,
        line <> [] -> parseEndpoint line = None ->
        endpointLoop line acc (next :: input) = endpointLoop next acc input).
Proof.
  split; [vm_compute; reflexivity|].
  split; [exact get_in_any_case|].
  split; [exact parseEndpoint_method|].
  split; [intros; now apply endpointLoop_collects|].
  intros [|c line] acc next input Hne Hnone; [congruence|].
  rewrite endpointLoop_step. now rewrite Hnone.
Qed.

(** A session of the loop: two lines that match, around two that do
    not. *)
Lemma endpoint_loop_keeps_matching_lines_witness :
  endpointLoop (js "GET /api/users - Get all users") []
    ([js "users"; js "FETCH /api/users - Get them"; js "post /api/users - Create a user"]
       ++ [] :: [js "y"])
  = Some ([ {| method := js "GET"; path := js "/api/users";
               api_description := js "Get all users" |};
            {| method := js "POST"; path := js "/api/users";
               api_description := js "Create a user" |} ],
          [js "y"]).
Proof.
  destruct endpoint_loop_keeps_matching_lines as (_ & _ & _ & H & _).
  rewrite H.
  - vm_compute. reflexivity.
  - repeat constructor; vm_compute; discriminate.
Defined.

(** *** Numbered menus *)

Lemma select_offMenu {A} (table : list A) (fallback : A) (choice : jsstring) :
  offMenu table choice -> select table fallback choice = fallback.
Proof.
  unfold offMenu, select, pred1, index.
  destruct (parseInt choice) as [z|]; [|reflexivity].
  intros Hz. destruct (0 <=? z - 1)%Z eqn:E; [|reflexivity].
  apply Z.leb_le in E.
  destruct Hz as [Hz|Hz]; [lia|].
  replace (nth_error table (Z.to_nat (z - 1))) with (@None A); [reflexivity|].
  symmetry. apply nth_error_None. lia.
Qed.

Lemma menu_offMenu {A} (table : list A) (fallback : A) choice input :
  offMenu table choice -> menu table fallback (choice :: input) = Some (fallback, input).
Proof.
  intros H. unfold menu, bind, prompt, ret. now rewrite select_offMenu.
Qed.



(** A whole session answered off the menu at every numbered menu it
    meets is carried through to the end on the defaults. *)
Example offMenu_session_runs_on_defaults :
  match run (Some (js "shop")) offMenuSession with
  | Some (s, unread) =>
      unread = []
      /\ confirmed s = true
      /\ type (project (config s)) = js "other"
      /\ language (project (config s)) = js "other"
      /\ pattern (architecture (config s)) = js "layered"
      /\ cache (architecture (config s)) = Some (js "redis")
      /\ messageQueue (architecture (config s)) = Some (js "rabbitmq")
      /\ db_type (database (config s)) = js "postgresql"
      /\ auth_type (authentication (config s)) = js "jwt"
      /\ cicd (deployment (config s)) = Some (js "github-actions")
      /\ environments (environment (config s)) = map js ["development"; "production"]
  | None => False
  end.
Proof. vm_compute. repeat split. Qed.

(** What parseInt makes of an answer decides: an answer that begins
    with a numeral of the menu selects that entry, whatever follows. *)
Example numeral_prefix_is_read :
  select types (js "other") (js "2 or so") = js "rest-api"
  /\ select types (js "other") (js " 0x3") = js "graphql-api"
  /\ select types (js "other") (js "1.9") = js "web-app".
Proof. vm_compute. repeat split. Qed.

(** The deployment targets are a multiple choice without a default:
    entries off the menu are dropped. *)
Example deployment_targets_drop_entries_off_the_menu :
  parseTargets (js "9, docker, 2") = [js "kubernetes"]
  /\ parseTargets (js "") = [].
Proof. vm_compute. repeat split. Qed.

(** *** The steps of a session *)

Lemma bind_Some {A B} (m : Wz A) (k : A -> Wz B) input r :
  bind m k input = Some r ->
  exists a input', m input = Some (a, input') /\ k a input' = Some r.
Proof.
  unfold bind. destruct (m input) as [[a input']|]; [|discriminate]. eauto.
Qed.

Lemma ret_Some {A} (a : A) input r : ret a input = Some r -> r = (a, input).
Proof. unfold ret. congruence. Qed.

Ltac invert_bind H :=
  let a := fresh "a" in let i := fresh "input" in let H1 := fresh "Hstep" in
  apply bind_Some in H as (a & i & H1 & H).

Lemma defineDeploymentTargets_docker input dep input' :
  defineDeploymentTargets input = Some (dep, input') ->
  docker dep = includes (targets dep) (js "docker") || includes (targets dep) (js "kubernetes").
Proof.
  unfold defineDeploymentTargets. intros H.
  invert_bind H. invert_bind H. invert_bind H.
  apply ret_Some in H. injection H as Hd _. subst dep. reflexivity.
Qed.

Lemma gatherConfiguration_docker argv input cfg input' :
  gatherConfiguration argv input = Some (cfg, input') ->
  docker (deployment cfg)
  = includes (targets (deployment cfg)) (js "docker")
    || includes (targets (deployment cfg)) (js "kubernetes").
Proof.
  unfold gatherConfiguration. intros H.
  do 7 invert_bind H. apply ret_Some in H. injection H as Hc _. subst cfg.
  cbn [deployment]. eapply defineDeploymentTargets_docker; eauto.
Qed.

Lemma run_confirmed argv input s input' :
  run argv input = Some (s, input') -> confirmed s = true ->
  exists input1,
    gatherConfiguration argv input = Some (config s, input1)
    /\ effects s = createProjectStructure (config s) ++ generateBlueprint (config s)
                   ++ generateTemplates (config s) ++ initializeGit.
Proof.
  unfold run. intros H Hc. invert_bind H. invert_bind H.
  destruct a0; apply ret_Some in H; injection H as Hs _; subst s; cbn in Hc; [|discriminate].
  cbn [config effects]. eauto.
Qed.


Lemma lastWrite_fold file b : forall acc,
  fold_left (lastWrite file) b acc
  = match fold_left (lastWrite file) b None with Some c => Some c | None => acc end.
Proof.
  induction b as [|e b IH]; intros acc; [reflexivity|].
  cbn [fold_left]. rewrite IH. rewrite (IH (lastWrite file None e)).
  destruct (fold_left (lastWrite file) b None); [reflexivity|].
  destruct e as [d|f c|]; cbn [lastWrite]; try reflexivity.
  destruct (streq f file); reflexivity.
Qed.

Lemma written_app file a b :
  written file (a ++ b)
  = match written file b with Some c => Some c | None => written file a end.
Proof. unfold written. rewrite fold_left_app. apply lastWrite_fold. Qed.

Lemma written_EnsureDir file dirs : written file (map EnsureDir dirs) = None.
Proof.
  unfold written. induction dirs as [|d dirs IH]; [reflexivity|]. exact IH.
Qed.

Lemma written_createProjectStructure file cfg :
  written file (createProjectStructure cfg) = None.
Proof.
  unfold createProjectStructure.
  change (EnsureDir (js ".") :: ?l) with ([EnsureDir (js ".")] ++ l).
  apply (written_EnsureDir file (js "." :: _)).
Qed.

Lemma written_generateCICD file cfg :
  streq (js ".github/workflows/ci-cd.yml") file = false ->
  written file (generateCICD cfg) = None.
Proof.
  intros H. unfold generateCICD. destruct (cicd (deployment cfg)) as [p|]; [|reflexivity].
  destruct (streq p _); [|reflexivity].
  unfold written. cbn [fold_left lastWrite]. now rewrite H.
Qed.

Lemma truthy_dockerfileFor lang :
  truthy (dockerfileFor lang) = streq lang (js "nodejs") || streq lang (js "python").
Proof.
  unfold dockerfileFor.
  destruct (streq lang (js "nodejs")); [reflexivity|].
  destruct (streq lang (js "python")); reflexivity.
Qed.

Lemma written_templates_compose cfg :
  written (js "docker-compose.yml") (generateTemplates cfg)
  = if docker (deployment cfg) then Some (Text (composeFor cfg)) else None.
Proof.
  unfold generateTemplates. rewrite !written_app.
  assert (Hci : written (js "docker-compose.yml")
                  match cicd (deployment cfg) with
                  | Some platform => if truthy platform then generateCICD cfg else []
                  | None => []
                  end = None).
  { destruct (cicd (deployment cfg)) as [p|] eqn:E; [|reflexivity].
    destruct (truthy p); [|reflexivity]. now apply written_generateCICD. }
  rewrite Hci. destruct (docker (deployment cfg)).
  - unfold generateDockerfiles. rewrite written_app. reflexivity.
  - reflexivity.
Qed.

Lemma written_templates_dockerfile cfg :
  written (js "Dockerfile") (generateTemplates cfg)
  = if docker (deployment cfg) && truthy (dockerfileFor (language (project cfg)))
    then Some (Text (dockerfileFor (language (project cfg)))) else None.
Proof.
  unfold generateTemplates. rewrite !written_app.
  assert (Hci : written (js "Dockerfile")
                  match cicd (deployment cfg) with
                  | Some platform => if truthy platform then generateCICD cfg else []
                  | None => []
                  end = None).
  { destruct (cicd (deployment cfg)) as [p|] eqn:E; [|reflexivity].
    destruct (truthy p); [|reflexivity]. now apply written_generateCICD. }
  rewrite Hci. destruct (docker (deployment cfg)); [|reflexivity].
  unfold generateDockerfiles. rewrite written_app.
  destruct (truthy (dockerfileFor (language (project cfg)))); reflexivity.
Qed.

Lemma written_session file cfg :
  streq (js "PROJECT-BLUEPRINT.md") file = false ->
  written file (createProjectStructure cfg ++ generateBlueprint cfg
                ++ generateTemplates cfg ++ initializeGit)
  = written file (generateTemplates cfg).
Proof.
  intros H. rewrite !written_app, written_createProjectStructure.
  replace (written file initializeGit) with (@None content) by reflexivity.
  replace (written file (generateBlueprint cfg)) with (@None content).
  - destruct (written file (generateTemplates cfg)); reflexivity.
  - unfold generateBlueprint, written. cbn [fold_left lastWrite]. now rewrite H.
Qed.


(** What a confirmed session writes of the two container files. *)
Lemma session_container_files argv input s input' :
  run argv input = Some (s, input') -> confirmed s = true ->
  written (js "docker-compose.yml") (effects s)
  = (if dockerImplied (config s) then Some (Text (composeFor (config s))) else None)
  /\ written (js "Dockerfile") (effects s)
     = (if dockerImplied (config s)
           && (streq (language (project (config s))) (js "nodejs")
               || streq (language (project (config s))) (js "python"))
        then Some (Text (dockerfileFor (language (project (config s))))) else None).
Proof.
  intros H Hc. destruct (run_confirmed _ _ _ _ H Hc) as (input1 & Hg & ->).
  apply gatherConfiguration_docker in Hg.
  rewrite !written_session by reflexivity.
  rewrite written_templates_compose, written_templates_dockerfile, truthy_dockerfileFor.
  unfold dockerImplied. now rewrite Hg.
Qed.




(** *** The compose file *)

Lemma select_In {A} (table : list A) fallback choice :
  In fallback table -> In (select table fallback choice) table.
Proof.
  intros Hf. unfold select, index.
  destruct (pred1 (parseInt choice)) as [z|]; [|exact Hf].
  destruct (0 <=? z)%Z; [|exact Hf].
  destruct (nth_error table (Z.to_nat z)) as [v|] eqn:E; [|exact Hf].
  eapply nth_error_In; eauto.
Qed.

Lemma menu_In {A} (table : list A) fallback input v input' :
  In fallback table -> menu table fallback input = Some (v, input') -> In v table.
Proof.
  intros Hf H. unfold menu in H. invert_bind H. apply ret_Some in H.
  injection H as Hv _. subst v. now apply select_In.
Qed.

Lemma defineDatabaseRequirements_type input db input' :
  defineDatabaseRequirements input = Some (db, input') ->
  In (db_type db) (js "none" :: databases).
Proof.
  unfold defineDatabaseRequirements. intros H. invert_bind H.
  destruct a.
  - invert_bind H. apply menu_In in Hstep0; [|cbn; tauto].
    destruct (negb (streq a (js "none"))).
    + do 3 invert_bind H. apply ret_Some in H. injection H as Hd _. subst db. now right.
    + apply ret_Some in H. injection H as Hd _. subst db. now right.
  - apply ret_Some in H. injection H as Hd _. subst db. now left.
Qed.

Lemma gatherConfiguration_db_type argv input cfg input' :
  gatherConfiguration argv input = Some (cfg, input') ->
  In (db_type (database cfg)) (js "none" :: databases).
Proof.
  unfold gatherConfiguration. intros H.
  do 7 invert_bind H. apply ret_Some in H. injection H as Hc _. subst cfg.
  cbn [database]. eapply defineDatabaseRequirements_type; eauto.
Qed.

Lemma streq_eq a : forall b, streq a b = true <-> a = b.
Proof.
  induction a as [|x a IH]; intros [|y b]; cbn; try (split; congruence).
  rewrite andb_true_iff, N.eqb_eq, IH. split; [intros [-> ->]; reflexivity|].
  intros [= -> ->]. auto.
Qed.

Lemma lines_cons x l : lines (x :: l) = x ++ nl ++ lines l.
Proof. unfold lines. cbn [flat_map]. now rewrite <- app_assoc. Qed.

Lemma composeDb_image cfg :
  composeDb cfg
  = nl ++ js "  db:" ++ nl
    ++ js "    image: " ++ db_type (database cfg) ++ js ":latest" ++ nl
    ++ composeDbAfterImage cfg.
Proof.
  unfold composeDb, composeDbAfterImage. rewrite !lines_cons.
  now rewrite <- !app_assoc.
Qed.




End ProjectInitFacts.

(** ** Project identity detection *)

Module BlueprintFacts.
Import Node Blueprint.

(** C5, as the code has it. The manifests probed are, in order,
    package.json, requirements.txt, pom.xml and composer.json. A
    package.json, when present, decides alone: the project is reported
    as Node.js/JavaScript whenever the file parses to a value other than
    null (otherwise the analysis throws), whatever else is present.
    Failing that, a requirements.txt gives Python; failing that, a
    pom.xml gives Java/Maven with language Java; failing that, a
    composer.json gives PHP. When none of the four files is present the
    type and language are Unknown, whatever other files there are. *)
Theorem analyzeProjectInfo_order host rootName (w : fs) :
  (existsSync w "package.json" = true ->
     (forall info, analyzeProjectInfo host rootName w = Some info ->
        type info = "Node.js/JavaScript" /\ language info = "JavaScript/TypeScript")
     /\ (forall text pkg, readFileSync w "package.json" = Some text ->
           JSON_parse host text = Some pkg -> pkg <> JNull ->
           exists info, analyzeProjectInfo host rootName w = Some info))
  /\ (existsSync w "package.json" = false -> existsSync w "requirements.txt" = true ->
      analyzeProjectInfo host rootName w
      = Some {| name := JStr rootName; version := JStr "1.0.0"; description := None;
                type := "Python"; language := "Python" |})
  /\ (existsSync w "package.json" = false -> existsSync w "requirements.txt" = false ->
      existsSync w "pom.xml" = true ->
      analyzeProjectInfo host rootName w
      = Some {| name := JStr rootName; version := JStr "1.0.0"; description := None;
                type := "Java/Maven"; language := "Java" |})
  /\ (existsSync w "package.json" = false -> existsSync w "requirements.txt" = false ->
      existsSync w "pom.xml" = false -> existsSync w "composer.json" = true ->
      forall info, analyzeProjectInfo host rootName w = Some info ->
        type info = "PHP" /\ language info = "PHP")
  /\ (existsSync w "package.json" = false -> existsSync w "requirements.txt" = false ->
      existsSync w "pom.xml" = false -> existsSync w "composer.json" = false ->
      analyzeProjectInfo host rootName w = Some (unknownInfo rootName)).
Proof.
  unfold analyzeProjectInfo.
  split; [|split; [|split; [|split]]].
  - intros ->. split.
    + intros info. destruct (readFileSync w "package.json") as [text|]; [|discriminate].
      destruct (JSON_parse host text) as [pkg|]; [|discriminate].
      destruct (get (Some pkg) "name"), (get (Some pkg) "version"), (get (Some pkg) "description");
        try discriminate.
      intros [= <-]. split; reflexivity.
    + intros text pkg -> -> Hp. destruct pkg; try congruence; cbn; eauto.
  - intros -> ->. reflexivity.
  - intros -> -> ->. reflexivity.
  - intros -> -> -> -> info.
    destruct (readFileSync w "composer.json") as [text|]; [|discriminate].
    destruct (JSON_parse host text) as [c|]; [|discriminate].
    destruct (get (Some c) "name"), (get (Some c) "version"); try discriminate.
    intros [= <-]. split; reflexivity.
  - intros -> -> -> ->. reflexivity.
Qed.

Lemma analyzeProjectInfo_order_witness :
  existsSync nodeAndPythonDir "package.json" = true
  /\ existsSync nodeAndPythonDir "requirements.txt" = true
  /\ exists info,
       analyzeProjectInfo (constHost (Some (JObj []))) "shop" nodeAndPythonDir = Some info
       /\ type info = "Node.js/JavaScript".
Proof.
  assert (He : existsSync nodeAndPythonDir "package.json" = true) by (vm_compute; reflexivity).
  split; [exact He|]. split; [vm_compute; reflexivity|].
  destruct (analyzeProjectInfo_order (constHost (Some (JObj []))) "shop" nodeAndPythonDir)
    as (H & _).
  destruct (H He) as [Htype Hret].
  destruct (Hret "{}" (JObj [])) as [info Hinfo];
    [vm_compute; reflexivity | reflexivity | discriminate |].
  exists info. split; [exact Hinfo | apply (Htype info Hinfo)].
Defined.

(** C5 as stated fails: a directory that holds a pyproject.toml only,
    or a build.gradle only, is reported as Unknown. *)
Lemma pyproject_and_gradle_are_unknown :
  analyzeProjectInfo (constHost None) "shop" pyprojectDir = Some (unknownInfo "shop")
  /\ analyzeProjectInfo (constHost None) "shop" gradleDir = Some (unknownInfo "shop").
Proof. split; vm_compute; reflexivity. Qed.

End BlueprintFacts.

(** ** The Error Recovery Tool *)

Module ErrorRecoveryFacts.
Import Node ErrorRecovery.

(** *** The structure of a scan *)

Lemma emits_sret P {A} (a : A) : emits P (sret a).
Proof. split; [intros acc; cbn; now rewrite app_nil_r | constructor]. Qed.

Lemma emits_throw P {A} : emits P (@throw A).
Proof. split; [intros acc; cbn; now rewrite app_nil_r | constructor]. Qed.

Lemma emits_push (P : Issue -> Prop) i : P i -> emits P (push i).
Proof. intros H. split; [intros acc; reflexivity | repeat constructor; exact H]. Qed.

Lemma emits_attempt P {A} (o : option A) : emits P (attempt o).
Proof. destruct o; [apply emits_sret | apply emits_throw]. Qed.

Lemma emits_when P b m : (b = true -> emits P m) -> emits P (when b m).
Proof. destruct b; [auto | intros _; apply emits_sret]. Qed.

Lemma sbind_nil {A B} (m : Scan A) (k : A -> Scan B) :
  (forall acc, m acc = (fst (m []), acc ++ snd (m []))) ->
  (forall a acc, k a acc = (fst (k a []), acc ++ snd (k a []))) ->
  forall acc,
    sbind m k acc
    = match fst (m []) with
      | Some a => (fst (k a []), acc ++ snd (m []) ++ snd (k a []))
      | None => (None, acc ++ snd (m []))
      end.
Proof.
  intros Hm Hk acc. unfold sbind. rewrite Hm. cbn [fst snd].
  destruct (fst (m [])) as [a|]; [|reflexivity].
  rewrite Hk. now rewrite <- app_assoc.
Qed.

Lemma emits_sbind P {A B} (m : Scan A) (k : A -> Scan B) :
  emits P m -> (forall a, emits P (k a)) -> emits P (sbind m k).
Proof.
  intros [Hm Pm] Hk.
  assert (Hk1 : forall a acc, k a acc = (fst (k a []), acc ++ snd (k a [])))
    by (intros a; apply (Hk a)).
  split.
  - intros acc. rewrite (sbind_nil m k Hm Hk1 acc), (sbind_nil m k Hm Hk1 []).
    destruct (fst (m [])) as [a|]; cbn [fst snd app]; reflexivity.
  - rewrite (sbind_nil m k Hm Hk1 []). destruct (fst (m [])) as [a|]; cbn [snd app]; [|exact Pm].
    apply Forall_app. split; [exact Pm | apply (Hk a)].
Qed.

Lemma emits_issues P {A} (m : Scan A) : emits P m -> Forall P (snd (m [])).
Proof. now intros [_ H]. Qed.

Ltac emits_step :=
  lazymatch goal with
  | |- emits _ (sbind _ _) => apply emits_sbind; [|intros ?]
  | |- emits _ (when _ _) => apply emits_when; intros ?
  | |- emits _ (sret _) => apply emits_sret
  | |- emits _ throw => apply emits_throw
  | |- emits _ (attempt _) => apply emits_attempt
  | |- emits _ (push _) => apply emits_push
  | |- emits _ (if ?b then _ else _) => destruct b eqn:?
  | |- emits _ (match ?o with _ => _ end) => destruct o eqn:?
  end.

Section Checks.
Variable host : Host.
Variable opts : Options.
Variable P : Issue -> Prop.

Lemma emits_checkGitIssues w :
  P (gitNotInitialized opts) -> P gitConfigMissing -> P uncommittedChanges ->
  emits P (checkGitIssues host opts w).
Proof. intros. unfold checkGitIssues. repeat emits_step; assumption. Qed.

Lemma emits_validateAgentFiles w files :
  (forall file, In file files -> P (invalidAgent opts file)) ->
  emits P (validateAgentFiles opts w files).
Proof.
  induction files as [|file files IH]; intros HP; cbn [validateAgentFiles].
  - apply emits_sret.
  - repeat emits_step; try (apply HP; now left).
    all: apply IH; intros f Hf; apply HP; now right.
Qed.

Lemma emits_checkAgentFiles w :
  (let missing := List.filter (fun file => negb (existsSync w (agentPath file))) agentFiles in
   missing <> [] -> P (missingAgentFiles missing)) ->
  (forall file, In file agentFiles -> P (invalidAgent opts file)) ->
  emits P (checkAgentFiles opts w).
Proof.
  intros Hm Hi. unfold checkAgentFiles. repeat emits_step.
  - apply Hm. intros E. rewrite E in *. discriminate.
  - now apply emits_validateAgentFiles.
Qed.

Lemma emits_checkTestSetup w :
  P noTestScript -> P noTestFramework -> P noTestSetup ->
  emits P (checkTestSetup host w).
Proof. intros. unfold checkTestSetup. repeat emits_step; assumption. Qed.

Lemma emits_checkDependencies w :
  P dependenciesNotInstalled -> emits P (checkDependencies host w).
Proof. intros. unfold checkDependencies. repeat emits_step; assumption. Qed.

Lemma emits_checkProjectStructure w :
  (existsSync w "README.md" = false -> P noReadme) ->
  (existsSync w ".gitignore" = false -> P noGitignore) ->
  emits P (checkProjectStructure w).
Proof.
  intros H1 H2. unfold checkProjectStructure. repeat emits_step.
  - apply H1. now apply negb_true_iff.
  - apply H2. now apply negb_true_iff.
Qed.

Lemma emits_checkPlansDirectory w :
  (existsSync w "plans" = false -> P noPlansDirectory) ->
  emits P (checkPlansDirectory w).
Proof.
  intros H1. unfold checkPlansDirectory. repeat emits_step.
  apply H1. now apply negb_true_iff.
Qed.

(** The scan emits only the issues of its checks, and those of the
    project structure only under the category all and when the
    artifact is absent. *)
Lemma emits_scanForIssues w :
  P (gitNotInitialized opts) -> P gitConfigMissing -> P uncommittedChanges ->
  (let missing := List.filter (fun file => negb (existsSync w (agentPath file))) agentFiles in
   missing <> [] -> P (missingAgentFiles missing)) ->
  (forall file, In file agentFiles -> P (invalidAgent opts file)) ->
  P noTestScript -> P noTestFramework -> P noTestSetup ->
  P dependenciesNotInstalled ->
  (category opts = "all" -> existsSync w "README.md" = false -> P noReadme) ->
  (category opts = "all" -> existsSync w ".gitignore" = false -> P noGitignore) ->
  (category opts = "all" -> existsSync w "plans" = false -> P noPlansDirectory) ->
  emits P (scanForIssues host opts w).
Proof.
  intros. unfold scanForIssues.
  apply emits_sbind; [apply emits_when; intros _; now apply emits_checkGitIssues|intros _].
  apply emits_sbind; [apply emits_when; intros _; now apply emits_checkAgentFiles|intros _].
  apply emits_sbind; [apply emits_when; intros _; now apply emits_checkTestSetup|intros _].
  apply emits_sbind; [apply emits_when; intros _; now apply emits_checkDependencies|intros _].
  apply emits_when. intros Hall. apply String.eqb_eq in Hall.
  apply emits_sbind; [apply emits_checkProjectStructure; auto|intros _].
  apply emits_checkPlansDirectory; auto.
Qed.

End Checks.

(** *** Severity and fixability *)

(** C2, as the code has it. Whatever the project and the options, an
    issue of the scan with id 'missing_agent_files' has severity "high"
    and is marked fixable; it is pushed when one or more of the five
    agent files are absent from .github/agents/, and the remediation it
    refers to changes nothing (it prints where to copy the files
    from). An issue with id 'no_readme' has severity "low", is fixable,
    and is pushed only when README.md is absent. *)
Theorem issue_severity_and_fixability host opts (w : fs) (i : Issue) :
  In i (snd (scanForIssues host opts w [])) ->
  (id i = "missing_agent_files" ->
     severity i = "high" /\ fixable i = true
     /\ exists missing, fix_ i = Some (FixMissingAgents missing)
          /\ missing <> []
          /\ (forall file, In file missing ->
                In file agentFiles /\ existsSync w (agentPath file) = false)
          /\ forall w' input, runFix host opts (FixMissingAgents missing) w' input = Fixed w' input)
  /\ (id i = "no_readme" ->
        severity i = "low" /\ fixable i = true /\ fix_ i = Some FixReadme
        /\ existsSync w "README.md" = false).
Proof.
  revert i. apply List.Forall_forall. apply emits_issues.
  apply emits_scanForIssues;
    try (split; cbn; intros; discriminate).
  - intros missing Hne. split; [intros _|cbn; discriminate].
    split; [reflexivity|]. split; [reflexivity|].
    exists missing. split; [reflexivity|]. split; [exact Hne|]. split; [|reflexivity].
    intros file Hf. apply filter_In in Hf as [Hin Hf]. split; [exact Hin|].
    now apply negb_true_iff.
  - intros _ Hr. split; [cbn; discriminate|]. intros _. now repeat split.
Qed.

Lemma issue_severity_and_fixability_witness :
  In (missingAgentFiles agentFiles)
     (snd (scanForIssues (constHost None) (autoOptions "all") emptyDir []))
  /\ severity (missingAgentFiles agentFiles) = "high"
  /\ fixable (missingAgentFiles agentFiles) = true.
Proof.
  assert (Hin : In (missingAgentFiles agentFiles)
                   (snd (scanForIssues (constHost None) (autoOptions "all") emptyDir [])))
    by (vm_compute; do 2 right; left; reflexivity).
  split; [exact Hin|].
  destruct (issue_severity_and_fixability _ _ _ _ Hin) as [H _].
  destruct (H eq_refl) as (Hs & Hf & _). split; assumption.
Defined.

(** C2 as stated fails: in an empty directory the scan reports
    missing_agent_files as fixable. *)
Lemma missing_agent_files_is_marked_fixable :
  exists i,
    In i (snd (scanForIssues (constHost None) (autoOptions "all") emptyDir []))
    /\ id i = "missing_agent_files"
    /\ severity i = "high"
    /\ fixable i <> false.
Proof.
  exists (missingAgentFiles agentFiles).
  split; [vm_compute; do 2 right; left; reflexivity|].
  repeat split. discriminate.
Qed.

(** *** The file system *)

Lemma existsSync_true (w : fs) p : existsSync w p = true <-> is_Some (w !! p).
Proof. unfold existsSync. apply bool_decide_eq_true. Qed.

Lemma existsSync_insert (w : fs) p e : existsSync (<[p := e]> w) p = true.
Proof. apply existsSync_true. rewrite lookup_insert_eq. eauto. Qed.

Lemma existsSync_insert_mono (w : fs) p q e :
  existsSync w p = true -> existsSync (<[q := e]> w) p = true.
Proof.
  rewrite !existsSync_true. intros H.
  destruct (decide (q = p)) as [->|Hne]; [rewrite lookup_insert_eq; eauto|].
  now rewrite lookup_insert_ne.
Qed.

Lemma writeFileSync_exists (w w' : fs) p text :
  writeFileSync w p text = Some w' -> existsSync w' p = true.
Proof.
  unfold writeFileSync. destruct (w !! p) as [[|t]|]; intros [= <-]; apply existsSync_insert.
Qed.

Lemma writeFileSync_fails (w : fs) p text :
  writeFileSync w p text = None -> existsSync w p = true.
Proof.
  unfold writeFileSync. destruct (w !! p) as [[|t]|] eqn:E; intros [=].
  apply existsSync_true. eauto.
Qed.

Lemma writeFileSync_mono (w w' : fs) p q text :
  writeFileSync w q text = Some w' -> existsSync w p = true -> existsSync w' p = true.
Proof.
  unfold writeFileSync. destruct (w !! q) as [[|t]|]; intros [= <-]; apply existsSync_insert_mono.
Qed.

Lemma mkdirSync_exists (w w' : fs) p :
  mkdirSync w p = Some w' -> existsSync w' p = true.
Proof.
  unfold mkdirSync. destruct (w !! p) as [[|t]|]; intros [= <-]; apply existsSync_insert.
Qed.

Lemma mkdirSync_fails (w : fs) p : mkdirSync w p = None -> existsSync w p = true.
Proof.
  unfold mkdirSync. destruct (w !! p) as [[|t]|] eqn:E; intros [=].
  apply existsSync_true. eauto.
Qed.

Lemma mkdirSync_mono (w w' : fs) p q :
  mkdirSync w q = Some w' -> existsSync w p = true -> existsSync w' p = true.
Proof.
  unfold mkdirSync. destruct (w !! q) as [[|t]|]; intros [= <-]; apply existsSync_insert_mono.
Qed.

(** *** The remediation loop *)

Section Loop.
Variable host : Host.
Variable opts : Options.
Hypothesis Hauto : autoFix opts = true.

Lemma fixLoop_app q1 : forall q2 w fixes input,
  fixLoop host opts (q1 ++ q2) w fixes input
  = match fixLoop host opts q1 w fixes input with
    | Some (w1, fixes1, input1) => fixLoop host opts q2 w1 fixes1 input1
    | None => None
    end.
Proof.
  induction q1 as [|i q1 IH]; intros q2 w fixes input; [reflexivity|].
  cbn [app fixLoop]. rewrite Hauto.
  destruct (fix_ i) as [f|]; [|apply IH].
  destruct (runFix host opts f w input); [apply IH | apply IH | reflexivity].
Qed.

(** A remediation that asks nothing runs to its end on any input. *)
Lemma runFix_quiet f w input :
  f <> FixGitConfig ->
  exists w', runFix host opts f w input = Fixed w' input
          \/ runFix host opts f w input = Failed w' input.
Proof.
  intros Hf. destruct f; try congruence; cbn [runFix].
  - unfold fixGitInit. destruct (execSync host "git init" w) as [w1|]; [|eauto].
    destruct (execSync host "git add ." w1); eauto.
  - unfold fixMissingAgents. eauto.
  - unfold fixTestScript. destruct (rewritePackageJson _ _ _ _); eauto.
  - unfold fixTestFramework. destruct (execSync host _ w) as [w1|]; [|eauto].
    destruct (rewritePackageJson _ _ _ _); eauto.
  - unfold fixDependencies. destruct (execSync host _ w); eauto.
  - unfold fixReadme. destruct (writeFileSync _ _ _); eauto.
  - unfold fixGitignore. destruct (writeFileSync _ _ _); eauto.
  - unfold fixPlansDirectory. destruct (mkdirSync _ _) as [w1|]; [|eauto].
    destruct (writeFileSync _ _ _); eauto.
Qed.

Lemma fixGitConfig_answered w name email input :
  exists w', fixGitConfig host w (name :: email :: input) = Fixed w' input
          \/ fixGitConfig host w (name :: email :: input) = Failed w' input.
Proof.
  unfold fixGitConfig. destruct (execSync host _ w) as [w1|]; [|eauto].
  destruct (execSync host _ w1); eauto.
Qed.

(** With the automatic flag the loop ends as soon as the operator's
    lines cover what the remediations ask. *)
Lemma fixLoop_ends queue : forall w fixes input,
  linesAsked queue <= length input ->
  exists w' fixes' input', fixLoop host opts queue w fixes input = Some (w', fixes', input').
Proof.
  induction queue as [|i queue IH]; intros w fixes input Hlen; [cbn; eauto|].
  cbn [fixLoop]. rewrite Hauto.
  change (linesAsked (i :: queue)) with (asks i + linesAsked queue) in Hlen.
  unfold asks in Hlen.
  destruct (fix_ i) as [f|] eqn:Ef; [|apply IH; lia].
  destruct f;
    try (match goal with
         | |- context [runFix _ _ ?f _ _] =>
             destruct (runFix_quiet f w input ltac:(discriminate)) as (w' & [-> | ->]);
             apply IH; lia
         end).
  destruct input as [|name [|email input]]; cbn [length] in Hlen; try lia.
  cbn [runFix].
  destruct (fixGitConfig_answered w name email input) as (w' & [-> | ->]); apply IH; lia.
Qed.

(** The three remediations of the project structure, run one after the
    other, leave the three artifacts in place and ask nothing. *)
Lemma fixLoop_structure w fixes input :
  exists w' fixes',
    fixLoop host opts [noReadme; noGitignore; noPlansDirectory] w fixes input
    = Some (w', fixes', input)
    /\ existsSync w' "README.md" = true
    /\ existsSync w' ".gitignore" = true
    /\ existsSync w' "plans" = true.
Proof.
  cbn [fixLoop fix_ noReadme noGitignore noPlansDirectory runFix id]. rewrite Hauto.
  assert (H1 : exists w1 b, fixReadme opts w input = (if b : bool then Fixed w1 input else Failed w1 input)
                /\ existsSync w1 "README.md" = true).
  { unfold fixReadme. destruct (writeFileSync w "README.md" _) as [w1|] eqn:E.
    - exists w1, true. split; [reflexivity|]. eapply writeFileSync_exists; eauto.
    - exists w, false. split; [reflexivity|]. eapply writeFileSync_fails; eauto. }
  destruct H1 as (w1 & b1 & E1 & R1).
  assert (H2 : exists w2 b, fixGitignore w1 input = (if b : bool then Fixed w2 input else Failed w2 input)
                /\ existsSync w2 "README.md" = true /\ existsSync w2 ".gitignore" = true).
  { unfold fixGitignore. destruct (writeFileSync w1 ".gitignore" _) as [w2|] eqn:E.
    - exists w2, true. split; [reflexivity|]. split.
      + eapply writeFileSync_mono; eauto.
      + eapply writeFileSync_exists; eauto.
    - exists w1, false. split; [reflexivity|]. split; [exact R1|].
      eapply writeFileSync_fails; eauto. }
  destruct H2 as (w2 & b2 & E2 & R2 & G2).
  assert (H3 : exists w3 b, fixPlansDirectory w2 input = (if b : bool then Fixed w3 input else Failed w3 input)
                /\ existsSync w3 "README.md" = true /\ existsSync w3 ".gitignore" = true
                /\ existsSync w3 "plans" = true).
  { unfold fixPlansDirectory. destruct (mkdirSync w2 "plans") as [w3|] eqn:E.
    - destruct (writeFileSync w3 "plans/.gitkeep" "") as [w4|] eqn:E'.
      + exists w4, true. split; [reflexivity|].
        repeat split; eapply writeFileSync_mono; eauto.
        * eapply mkdirSync_mono; eauto.
        * eapply mkdirSync_mono; eauto.
        * eapply mkdirSync_exists; eauto.
      + exists w3, false. split; [reflexivity|]. repeat split.
        * eapply mkdirSync_mono; eauto.
        * eapply mkdirSync_mono; eauto.
        * eapply mkdirSync_exists; eauto.
    - exists w2, false. split; [reflexivity|]. repeat split; auto.
      eapply mkdirSync_fails; eauto. }
  destruct H3 as (w3 & b3 & E3 & R3 & G3 & P3).
  rewrite E1. destruct b1; rewrite E2; destruct b2; rewrite E3; destruct b3; eauto 10.
Qed.

End Loop.

Lemma linesAsked_app a b : linesAsked (a ++ b) = linesAsked a + linesAsked b.
Proof. unfold linesAsked. now rewrite map_app, list_sum_app. Qed.

Lemma linesAsked_quiet l : Forall (fun i => asks i = 0) l -> linesAsked l = 0.
Proof.
  induction 1 as [|i l Hi _ IH]; [reflexivity|].
  change (linesAsked (i :: l)) with (asks i + linesAsked l). lia.
Qed.

Lemma linesAsked_filter f l : linesAsked (List.filter f l) <= linesAsked l.
Proof.
  induction l as [|i l IH]; [reflexivity|]. cbn [List.filter].
  change (linesAsked (i :: l)) with (asks i + linesAsked l).
  destruct (f i); [change (linesAsked (i :: List.filter f l)) with (asks i + linesAsked (List.filter f l))|]; lia.
Qed.

Section Convergence.
Variable host : Host.
Variable opts : Options.

Lemma linesAsked_checkGitIssues w :
  linesAsked (snd (checkGitIssues host opts w [])) <= 2.
Proof.
  unfold checkGitIssues, sbind, when.
  destruct (negb (existsSync w ".git"));
    destruct (negb _);
    destruct (gitQuery host "git status --porcelain" w) as [status|];
    try destruct (JS.truthy _); cbn; lia.
Qed.

(** Under the category all, a scan that comes to its end in a directory
    without the three artifacts has found the three defects last; what
    it found before them asks the operator for two lines at most. *)
Lemma scan_all_structure w :
  category opts = "all" ->
  existsSync w "README.md" = false ->
  existsSync w ".gitignore" = false ->
  existsSync w "plans" = false ->
  fst (scanForIssues host opts w []) = Some tt ->
  exists before,
    snd (scanForIssues host opts w []) = before ++ [noReadme; noGitignore; noPlansDirectory]
    /\ linesAsked before <= 2.
Proof.
  intros Hcat Hr Hg Hp.
  assert (WG := proj1 (emits_checkGitIssues host opts (fun _ => True) w I I I)).
  assert (EA := emits_checkAgentFiles opts (fun i => asks i = 0) w
                  (fun _ => eq_refl) (fun _ _ => eq_refl)).
  assert (ET := emits_checkTestSetup host (fun i => asks i = 0) w eq_refl eq_refl eq_refl).
  assert (ED := emits_checkDependencies host (fun i => asks i = 0) w eq_refl).
  destruct EA as [WA QA], ET as [WT QT], ED as [WD QD].
  pose proof (linesAsked_checkGitIssues w) as QG.
  apply linesAsked_quiet in QA, QT, QD.
  destruct (scanForIssues host opts w []) as [o L] eqn:ES. cbn [fst snd]. intros ->.
  revert ES.
  unfold scanForIssues, isCategory. rewrite Hcat. cbn [String.eqb Ascii.eqb Bool.eqb orb andb when].
  unfold checkProjectStructure, checkPlansDirectory. rewrite Hr, Hg, Hp. cbn [negb when].
  unfold sbind, push.
  destruct (checkGitIssues host opts w []) as [[[]|] g]; [|discriminate].
  rewrite WA.
  destruct (checkAgentFiles opts w []) as [[[]|] a]; cbn [fst snd] in *; [|discriminate].
  rewrite WT.
  destruct (checkTestSetup host w []) as [[[]|] t]; cbn [fst snd] in *; [|discriminate].
  rewrite WD.
  destruct (checkDependencies host w []) as [[[]|] d]; cbn [fst snd] in *; [|discriminate].
  intros [= <-]. exists (((g ++ a) ++ t) ++ d). split.
  - now rewrite <- !app_assoc.
  - rewrite !linesAsked_app. lia.
Qed.

(** A scan in a directory that has the three artifacts, or under a
    category other than all, reports none of the three defects. *)
Lemma scan_without_structure_defects w :
  (category opts = "all" ->
   existsSync w "README.md" = true /\ existsSync w ".gitignore" = true
   /\ existsSync w "plans" = true) ->
  forall i, In i (snd (scanForIssues host opts w [])) -> ~ In (id i) structureIds.
Proof.
  intros H. apply List.Forall_forall. apply emits_issues.
  apply emits_scanForIssues;
    try (cbn; intuition discriminate);
    try (intros Hc E; destruct (H Hc) as (? & ? & ?); congruence).
Qed.

Lemma filter_fixable_structure before :
  List.filter (fun issue => fixable issue) (before ++ [noReadme; noGitignore; noPlansDirectory])
  = List.filter (fun issue => fixable issue) before ++ [noReadme; noGitignore; noPlansDirectory].
Proof. now rewrite List.filter_app. Qed.

Hypothesis Hauto : autoFix opts = true.
Hypothesis Hscan : scanOnly opts = false.

(** C8, as the code has it. Take a project directory without
    README.md, .gitignore and plans/, and run the tool once with the
    automatic flag. Whenever that run comes to its end, a second scan
    with the same options reports none of the defects no_readme,
    no_gitignore and no_plans_directory, whatever the category. Under
    the category all the run does come to its end, and leaves the three
    artifacts in place, provided the scan itself does not throw and the
    operator supplies the two lines that the remediation of a missing
    git identity asks for. *)
Theorem auto_fix_convergence (w : fs) (input : list string) :
  existsSync w "README.md" = false ->
  existsSync w ".gitignore" = false ->
  existsSync w "plans" = false ->
  (forall w' issues fixes input',
      run host opts w input = Completed w' issues fixes input' ->
      forall i, In i (snd (scanForIssues host opts w' [])) -> ~ In (id i) structureIds)
  /\ (category opts = "all" ->
      fst (scanForIssues host opts w []) = Some tt ->
      2 <= length input ->
      exists w' issues fixes input',
        run host opts w input = Completed w' issues fixes input'
        /\ existsSync w' "README.md" = true
        /\ existsSync w' ".gitignore" = true
        /\ existsSync w' "plans" = true).
Proof.
  intros Hr Hg Hp. split.
  - intros w' issues fixes input' Hrun. apply scan_without_structure_defects.
    intros Hcat. revert Hrun. unfold run.
    destruct (scanForIssues host opts w []) as [[[]|] L] eqn:ES; [|discriminate].
    destruct (scan_all_structure w Hcat Hr Hg Hp) as (before & EL & _); [now rewrite ES|].
    rewrite ES in EL. cbn [snd] in EL. subst L.
    destruct (before ++ _) eqn:EB; [now destruct before|]. rewrite <- EB. clear EB.
    rewrite Hscan. unfold applyFixes. rewrite filter_fixable_structure.
    rewrite (fixLoop_app host opts Hauto).
    destruct (fixLoop host opts _ w [] input) as [[[w1 f1] i1]|]; [|discriminate].
    destruct (fixLoop_structure host opts Hauto w1 f1 i1) as (w2 & f2 & -> & R & G & P).
    intros [= <- _ _ _]. auto.
  - intros Hcat Hdone Hlen. unfold run.
    destruct (scan_all_structure w Hcat Hr Hg Hp Hdone) as (before & EL & Hask).
    destruct (scanForIssues host opts w []) as [[[]|] L] eqn:ES; [|discriminate].
    cbn [snd] in EL. subst L.
    destruct (before ++ _) eqn:EB; [now destruct before|]. rewrite <- EB. clear EB.
    rewrite Hscan. unfold applyFixes. rewrite filter_fixable_structure.
    rewrite (fixLoop_app host opts Hauto).
    destruct (fixLoop_ends host opts Hauto (List.filter (fun issue => fixable issue) before) w [] input)
      as (w1 & f1 & i1 & ->).
    { pose proof (linesAsked_filter (fun issue => fixable issue) before). lia. }
    destruct (fixLoop_structure host opts Hauto w1 f1 i1) as (w2 & f2 & -> & R & G & P).
    eauto 10.
Qed.

End Convergence.

Lemma auto_fix_convergence_witness :
  exists w' issues fixes input',
    run (constHost None) (autoOptions "all") emptyDir ["Ann"; "ann@example.org"]
    = Completed w' issues fixes input'
    /\ existsSync w' "README.md" = true
    /\ existsSync w' ".gitignore" = true
    /\ existsSync w' "plans" = true
    /\ forall i, In i (snd (scanForIssues (constHost None) (autoOptions "all") w' [])) ->
                 ~ In (id i) structureIds.
Proof.
  destruct (auto_fix_convergence (constHost None) (autoOptions "all") eq_refl eq_refl
              emptyDir ["Ann"; "ann@example.org"]) as [Hagain Hrun];
    [vm_compute; reflexivity | vm_compute; reflexivity | vm_compute; reflexivity |].
  destruct Hrun as (w' & issues & fixes & input' & E & R & G & P);
    [reflexivity | vm_compute; reflexivity | cbn; lia |].
  exists w', issues, fixes, input'. repeat split; try assumption.
  exact (Hagain _ _ _ _ E).
Defined.

(** C8 as stated fails. In a directory without the three artifacts, a
    run with the automatic flag under the category git ends without
    creating README.md; one in which package.json is no JSON text ends
    in the exception thrown by the scan; one in which the git identity
    is missing and the operator types nothing never ends; and one that
    is also given the scan-only flag changes nothing, so that a second
    scan reports no_readme again. *)
Lemma auto_fix_may_create_nothing :
  match run (constHost None) (autoOptions "git") emptyDir ["Ann"; "ann@example.org"] with
  | Completed w' _ _ _ => existsSync w' "README.md" = false
  | _ => False
  end
  /\ existsSync brokenManifestDir "README.md" = false
  /\ run (constHost None) (autoOptions "all") brokenManifestDir ["Ann"; "ann@example.org"] = Crashed
  /\ run (constHost None) (autoOptions "all") emptyDir [] = Pending
  /\ match run (constHost None) autoScanOptions emptyDir ["Ann"; "ann@example.org"] with
     | Completed w' _ _ _ =>
         existsSync w' "README.md" = false
         /\ In noReadme (snd (scanForIssues (constHost None) autoScanOptions w' []))
     | _ => False
     end.
Proof.
  vm_compute. repeat split. do 4 right. left. reflexivity.
Qed.

End ErrorRecoveryFacts.

(** ** The start script *)

Module StartScriptFacts.
Import StartScript.

Lemma poll_never_healthy env :
  (forall n, health env n = false) ->
  forall k retry_count fuel,
    retry_count + k = max_retries -> k < fuel ->
    poll env fuel retry_count = Some (max_retries, waiting retry_count k).
Proof.
  intros Hh. induction k as [|k IH]; intros retry_count fuel Hk Hf.
  - destruct fuel as [|fuel]; [lia|]. cbn [poll].
    replace (retry_count <? max_retries)%nat with false
      by (symmetry; apply Nat.ltb_ge; lia).
    f_equal. f_equal. lia.
  - destruct fuel as [|fuel]; [lia|]. cbn [poll].
    replace (retry_count <? max_retries)%nat with true
      by (symmetry; apply Nat.ltb_lt; lia).
    rewrite Hh. rewrite (IH (retry_count + 1) fuel) by lia.
    unfold waiting. cbn [seq flat_map]. unfold waitingRound at 2. cbn [app].
    replace (S (retry_count + 1)) with (retry_count + 1 + 1) by lia. reflexivity.
Qed.

Lemma waiting_attempts retry_count k : attempts (waiting retry_count k) = k.
Proof.
  unfold waiting, attempts. generalize (retry_count + 1) as j.
  induction k as [|k IH]; intros j; [reflexivity|].
  cbn [seq flat_map]. rewrite List.filter_app, length_app, IH. reflexivity.
Qed.

Lemma waiting_slept retry_count k : slept (waiting retry_count k) = 2 * k.
Proof.
  unfold waiting, slept. generalize (retry_count + 1) as j.
  induction k as [|k IH]; intros j; [reflexivity|].
  cbn [seq flat_map]. rewrite map_app, list_sum_app, IH. cbn. lia.
Qed.

Lemma waiting_sleeps retry_count k :
  Forall (fun e => forall s, e = Sleep s -> s = 2) (waiting retry_count k).
Proof.
  unfold waiting. generalize (retry_count + 1) as j.
  induction k as [|k IH]; intros j; [constructor|].
  cbn [seq flat_map]. apply Forall_app. split; [|apply IH].
  repeat constructor; intros s [=]; congruence.
Qed.

(** The loop always ends: with fuel for more than [max_retries] tests of
    its condition it returns, whatever the health checks answer. *)
Lemma poll_ends env : forall k retry_count fuel,
  retry_count + k = max_retries -> k < fuel ->
  exists n evs, poll env fuel retry_count = Some (n, evs) /\ attempts evs <= k.
Proof.
  induction k as [|k IH]; intros retry_count fuel Hk Hf.
  - destruct fuel as [|fuel]; [lia|]. cbn [poll].
    replace (retry_count <? max_retries)%nat with false
      by (symmetry; apply Nat.ltb_ge; lia).
    eexists _, _. split; [reflexivity|]. cbn. lia.
  - destruct fuel as [|fuel]; [lia|]. cbn [poll].
    replace (retry_count <? max_retries)%nat with true
      by (symmetry; apply Nat.ltb_lt; lia).
    destruct (health env retry_count).
    + eexists _, _. split; [reflexivity|]. cbn. lia.
    + destruct (IH (retry_count + 1) fuel) as (n & evs & -> & Ha); [lia|lia|].
      eexists _, _. split; [reflexivity|]. unfold attempts in *. cbn. lia.
Qed.

(** C9. When the health check never succeeds, the loop makes exactly
    30 checks, sleeps 2 seconds after each (60 seconds in all) and is
    left with retry_count = 30; the script then prints that the API did
    not start in time and exits with status 1. More than 30 tests of the
    loop condition are never needed. *)
Theorem poll_gives_up_after_thirty_attempts env fuel :
  docker_info env = true ->
  docker_compose_found env = true ->
  compose_up env = 0 ->
  (forall n, health env n = false) ->
  max_retries < fuel ->
  exists before polling,
    poll env fuel 0 = Some (max_retries, polling)
    /\ script env fuel
       = Some (before ++ polling
                 ++ [Echo "❌ API did not start in time";
                     Echo "Check logs with: docker-compose logs"], 1)
    /\ attempts before = 0
    /\ attempts polling = 30
    /\ slept polling = 60
    /\ Forall (fun e => forall s, e = Sleep s -> s = 2) polling.
Proof.
  intros Hd Hc Hu Hh Hf.
  pose proof (poll_never_healthy env Hh max_retries 0 fuel eq_refl Hf) as Hp.
  unfold script. rewrite Hd, Hc, Hu. cbn [negb]. rewrite Hp.
  rewrite Nat.eqb_refl.
  eexists _, (waiting 0 max_retries). split; [reflexivity|]. split; [reflexivity|].
  split; [reflexivity|].
  split; [apply waiting_attempts|]. split; [apply waiting_slept | apply waiting_sleeps].
Qed.

Lemma poll_gives_up_after_thirty_attempts_witness :
  exists before polling,
    script neverHealthy 31
    = Some (before ++ polling
              ++ [Echo "❌ API did not start in time";
                  Echo "Check logs with: docker-compose logs"], 1)
    /\ attempts polling = 30
    /\ slept polling = 60.
Proof.
  destruct (poll_gives_up_after_thirty_attempts neverHealthy 31)
    as (before & polling & _ & Hs & _ & Ha & Hz & _);
    [reflexivity | reflexivity | reflexivity | reflexivity | unfold max_retries; lia |].
  exists before, polling. repeat split; assumption.
Defined.

(** The whole run of the script in that environment: 30 health checks
    and 70 seconds of sleep, the first 10 before the loop. *)
Example never_healthy_run :
  match script neverHealthy 31 with
  | Some (trace, status) => status = 1 /\ attempts trace = 30 /\ slept trace = 10 + 60
  | None => False
  end.
Proof. vm_compute. repeat split. Qed.

End StartScriptFacts.

(** ** The quality-assurance role *)

Module QAFacts.
Import QA.

(** C4 fails on the role definition: the tools list of its header names
    'edit', the file-editing capability, which the header of the
    planning role does not. *)
Theorem qa_header_grants_editing :
  In "edit" (tools header)
  /\ grantsEditing (tools header) = true
  /\ grantsEditing planningTools = false.
Proof. split; [cbn; tauto | split; reflexivity]. Qed.

Lemma no_automatic_fail (f : Findings) :
  failingTests f = 0 -> securityVulnerabilities f = 0 -> hardcodedSecrets f = 0 ->
  buildBreakingLintErrors f = 0 -> newFunctionalityUntested f = false ->
  automaticFail f = false.
Proof. unfold automaticFail. now intros -> -> -> -> ->. Qed.




End QAFacts.

(** ** The wizard's endpoints, read and shown *)

Module ProjectInitReviewFacts.
Import JS ProjectInit ProjectInitReview ProjectInitFacts.

(** *** What a way of matching consumes *)

Lemma star_inv p s : forall u r,
  In (u, r) (star p s) -> s = u ++ r /\ Forall (fun c => p c = true) u.
Proof.
  induction s as [|c s IH]; intros u r; cbn [star].
  - intros [[= <- <-]|[]]. split; [reflexivity|constructor].
  - destruct (p c) eqn:E.
    + rewrite in_app_iff. intros [H|[[= <- <-]|[]]].
      * apply in_map_iff in H as ([u' r'] & [= <- <-] & H).
        apply IH in H as [-> HF]. split; [reflexivity|]. constructor; assumption.
      * split; [reflexivity|constructor].
    + intros [[= <- <-]|[]]. split; [reflexivity|constructor].
Qed.

Lemma ways_Star_inv p s w :
  In w (ways (Star p) s) ->
  s = consumed w ++ rest w /\ Forall (fun c => p c = true) (consumed w) /\ captures w = [].
Proof.
  cbn [ways]. intros H. apply in_map_iff in H as ([u r] & <- & H).
  apply star_inv in H as [-> HF]. cbn. auto.
Qed.

Lemma ways_End_inv s w : In w (ways End s) -> s = [] /\ w = Way [] [] [].
Proof. cbn [ways]. destruct s; [|intros []]. intros [<-|[]]. auto. Qed.

Lemma ways_plus_inv p s w :
  In w (ways (plus p) s) ->
  s = consumed w ++ rest w /\ consumed w <> []
  /\ Forall (fun c => p c = true) (consumed w) /\ captures w = [].
Proof.
  unfold plus. intros H. apply ways_Seq_inv in H as (w1 & w2 & H1 & H2 & ->).
  apply ways_Char_inv in H1 as (c & Hs & Hc & E1 & C1).
  apply ways_Star_inv in H2 as (Hr & HF & C2).
  cbn [consumed captures rest]. rewrite E1, C1, C2, Hs, Hr. cbn.
  repeat split; [discriminate|]. constructor; assumption.
Qed.

(** *** The first way of matching *)

Lemma hd_flat_map {A B} (f : A -> list B) l y :
  hd_error (flat_map f l) = Some y ->
  exists x, find (fun x => nonempty (f x)) l = Some x /\ hd_error (f x) = Some y.
Proof.
  induction l as [|a l IH]; [discriminate|]. cbn [flat_map find].
  destruct (f a) as [|b bs] eqn:E; cbn [nonempty app].
  - exact IH.
  - intros [= <-]. exists a. rewrite E. auto.
Qed.

Lemma find_map {A B} (g : A -> B) (P : B -> bool) l :
  find P (map g l) = option_map g (find (fun x => P (g x)) l).
Proof.
  induction l as [|a l IH]; [reflexivity|]. cbn [map find].
  destruct (P (g a)); [reflexivity|exact IH].
Qed.

Lemma find_app_l {A} (P : A -> bool) l1 l2 :
  find P (l1 ++ l2) = match find P l1 with Some x => Some x | None => find P l2 end.
Proof.
  induction l1 as [|a l1 IH]; [reflexivity|]. cbn [app find].
  destruct (P a); [reflexivity|exact IH].
Qed.

Lemma find_agree {A} (P Q : A -> bool) l :
  (forall x, P x = Q x) -> find P l = find Q l.
Proof.
  intros H. induction l as [|a l IH]; [reflexivity|]. cbn [find].
  rewrite H, IH. reflexivity.
Qed.

Lemma star_last p s : In ([], s) (star p s).
Proof.
  destruct s as [|c s]; cbn [star]; [now left|].
  destruct (p c); [apply in_app_iff; right|]; now left.
Qed.

(** Greedy repetition gives a character back only when what follows
    cannot do without it: if the first split accepted by [k] leaves a
    rest that begins with a character of the class, [k] rejects the
    rest without that character. *)
Lemma star_first p (k : jsstring -> bool) s : forall u d r,
  find (fun ur => k (snd ur)) (star p s) = Some (u, d :: r) ->
  p d = true -> k r = false.
Proof.
  induction s as [|c s IH]; intros u d r; cbn [star].
  - cbn [find snd]. destruct (k []); [|discriminate]. intros [= ]; discriminate.
  - destruct (p c) eqn:E.
    + rewrite find_app_l, find_map. cbn [snd].
      match goal with
      | |- context [option_map _ ?t] => destruct t as [[u' r']|] eqn:F
      end; cbn [option_map fst snd].
      * intros [= <- ->] Hd. eapply IH; [exact F|exact Hd].
      * cbn [find snd]. destruct (k (c :: s)); [|discriminate].
        intros [= <- <- <-] _.
        apply (find_none _ _ F ([], s)), star_last.
    + cbn [find snd]. destruct (k (c :: s)); [|discriminate].
      intros [= <- <- <-]. congruence.
Qed.

Lemma hd_ways_Seq r1 r2 s w :
  hd_error (ways (Seq r1 r2) s) = Some w ->
  exists w1 w2,
    find (fun x => nonempty (ways r2 (rest x))) (ways r1 s) = Some w1
    /\ hd_error (ways r2 (rest w1)) = Some w2
    /\ w = Way (consumed w1 ++ consumed w2) (captures w1 ++ captures w2) (rest w2).
Proof.
  cbn [ways]. intros H. apply hd_flat_map in H as (w1 & F & H).
  exists w1.
  assert (F' : find (fun x => nonempty (ways r2 (rest x))) (ways r1 s) = Some w1).
  { rewrite <- F. apply find_agree. intros x.
    destruct (ways r2 (rest x)); reflexivity. }
  destruct (ways r2 (rest w1)) as [|w2 ws]; [discriminate|].
  injection H as <-. exists w2. auto.
Qed.

Lemma hd_In {A} (l : list A) x : hd_error l = Some x -> In x l.
Proof. destruct l; [discriminate|]. intros [= <-]. now left. Qed.

(** Going forward: the first way of a sequence is made of the first
    way of its head, when what follows can go on from there. *)
Lemma ways_Seq_first r1 r2 s w1 w2 :
  hd_error (ways r1 s) = Some w1 ->
  hd_error (ways r2 (rest w1)) = Some w2 ->
  hd_error (ways (Seq r1 r2) s)
  = Some (Way (consumed w1 ++ consumed w2) (captures w1 ++ captures w2) (rest w2)).
Proof.
  cbn [ways]. destruct (ways r1 s) as [|x l]; [discriminate|]. intros [= ->].
  cbn [flat_map]. destruct (ways r2 (rest w1)) as [|y l']; [discriminate|].
  intros [= ->]. reflexivity.
Qed.

Lemma ways_Group_first r s w :
  hd_error (ways r s) = Some w ->
  hd_error (ways (Group r) s) = Some (Way (consumed w) (consumed w :: captures w) (rest w)).
Proof. cbn [ways]. destruct (ways r s); [discriminate|]. intros [= ->]. reflexivity. Qed.

Lemma star_greedy p u : forall r,
  Forall (fun c => p c = true) u -> stops p r ->
  hd_error (star p (u ++ r)) = Some (u, r).
Proof.
  induction u as [|c u IH]; intros r HF Hr.
  - destruct r as [|c r]; [reflexivity|]. cbn in Hr |- *. now rewrite Hr.
  - inversion HF as [|? ? Hc HF']; subst. cbn [app star]. rewrite Hc.
    specialize (IH r HF' Hr).
    destruct (star p (u ++ r)) as [|[u' r'] l]; [discriminate|].
    injection IH as -> ->. reflexivity.
Qed.

Lemma ways_Star_first p u r :
  Forall (fun c => p c = true) u -> stops p r ->
  hd_error (ways (Star p) (u ++ r)) = Some (Way u [] r).
Proof.
  intros HF Hr. cbn [ways]. pose proof (star_greedy p u r HF Hr) as H.
  destruct (star p (u ++ r)) as [|[u' r'] l]; [discriminate|].
  injection H as -> ->. reflexivity.
Qed.

Lemma ways_unit_first c s : hd_error (ways (unit_ c) (c :: s)) = Some (Way [c] [] s).
Proof. unfold unit_. cbn [ways]. now rewrite N.eqb_refl. Qed.

Lemma ways_plus_first p c u r :
  p c = true -> Forall (fun c => p c = true) u -> stops p r ->
  hd_error (ways (plus p) (c :: u ++ r)) = Some (Way (c :: u) [] r).
Proof.
  intros Hc HF Hr. unfold plus.
  rewrite (ways_Seq_first _ _ _ (Way [c] [] (u ++ r)) (Way u [] r)).
  - reflexivity.
  - cbn [ways]. rewrite Hc. reflexivity.
  - cbn [rest]. now apply ways_Star_first.
Qed.

Lemma ways_consumed r : forall s w, In w (ways r s) -> s = consumed w ++ rest w.
Proof.
  induction r as [p|r1 IH1 r2 IH2|r1 IH1 r2 IH2|p|r IH|]; intros s w H.
  - apply ways_Char_inv in H as (c & -> & _ & -> & _). reflexivity.
  - apply ways_Seq_inv in H as (w1 & w2 & H1 & H2 & ->).
    apply IH1 in H1. apply IH2 in H2. cbn [consumed rest].
    rewrite <- app_assoc, <- H2. exact H1.
  - cbn [ways] in H. apply in_app_iff in H as [H|H]; auto.
  - now apply ways_Star_inv in H as (H & _).
  - apply ways_Group_inv in H as (w1 & H1 & ->). cbn [consumed rest]. auto.
  - apply ways_End_inv in H as (-> & ->). reflexivity.
Qed.

Lemma ways_Char_form p s w :
  In w (ways (Char p) s) -> exists c r, w = Way [c] [] r /\ s = c :: r /\ p c = true.
Proof.
  intros H. apply ways_Char_inv in H as (c & Hs & Hc & E1 & E2).
  destruct w as [co ca re]. cbn in *. subst. eauto.
Qed.

Lemma ways_Star_form p s w :
  In w (ways (Star p) s) ->
  exists u r, w = Way u [] r /\ s = u ++ r /\ Forall (fun c => p c = true) u.
Proof.
  intros H. apply ways_Star_inv in H as (Hs & HF & E).
  destruct w as [co ca re]. cbn in *. subst. eauto.
Qed.

Lemma ways_plus_form p s w :
  In w (ways (plus p) s) ->
  exists c u r, w = Way (c :: u) [] r /\ s = c :: u ++ r
    /\ p c = true /\ Forall (fun c => p c = true) u.
Proof.
  unfold plus. intros H. apply ways_Seq_inv in H as (w1 & w2 & H1 & H2 & ->).
  apply ways_Char_form in H1 as (c & r1 & -> & -> & Hc).
  apply ways_Star_form in H2 as (u & r & -> & Hr & HF). cbn in Hr. subst r1.
  exists c, u, r. auto.
Qed.

Lemma descriptionToEnd_first d D :
  isLineTerminator d = false -> Forall (fun c => isLineTerminator c = false) D ->
  hd_error (ways descriptionToEnd (d :: D)) = Some (Way (d :: D) [d :: D] []).
Proof.
  intros Hd HD. unfold descriptionToEnd.
  rewrite (ways_Seq_first _ _ _ (Way (d :: D) [d :: D] []) (Way [] [] [])).
  - cbn [consumed captures rest]. now rewrite app_nil_r.
  - rewrite (ways_Group_first _ _ (Way (d :: D) [] [])); [reflexivity|].
    rewrite <- (app_nil_r D) at 1. apply ways_plus_first.
    + now rewrite Hd.
    + eapply List.Forall_impl; [|exact HD]. cbn. intros c ->. reflexivity.
    + exact I.
  - reflexivity.
Qed.

(** The first way of matching the endpoint expression, taken apart. *)
Lemma endpoint_first_way line w :
  hd_error (ways endpointRegex line) = Some w ->
  exists wa s1 sp1 p sp2 sp3 d D,
    In wa (ways methodAlternatives line)
    /\ rest wa = s1 :: sp1 ++ 47%N :: p ++ sp2 ++ 45%N :: sp3 ++ d :: D
    /\ captures w = [consumed wa; 47%N :: p; d :: D]
    /\ Forall (fun c => isSpace c = true) ((s1 :: sp1) ++ sp2 ++ sp3)
    /\ Forall (fun c => isSpace c = false) p
    /\ Forall (fun c => isLineTerminator c = false) (d :: D)
    /\ (isSpace d = false \/ D = []).
Proof.
  unfold endpointRegex. intros Hw.
  apply hd_ways_Seq in Hw as (w1 & w2 & H1 & H2 & ->).
  apply find_some in H1 as [H1 _].
  apply ways_Group_inv in H1 as (wa & Ha & ->).
  pose proof (methodAlternatives_consumed _ _ Ha) as [_ Hc].
  cbn [consumed captures rest] in *. rewrite Hc.
  apply hd_ways_Seq in H2 as (v1 & v2 & A1 & A2 & ->).
  apply find_some in A1 as [A1 _].
  apply ways_plus_form in A1 as (s1 & sp1 & r1 & -> & Hr1 & Hs1 & HF1). cbn [rest] in A2.
  apply hd_ways_Seq in A2 as (v3 & v4 & A3 & A4 & ->).
  apply find_some in A3 as [A3 _].
  apply ways_Group_inv in A3 as (v5 & A3 & ->).
  apply ways_Seq_inv in A3 as (v6 & v7 & A5 & A6 & ->).
  apply ways_Char_form in A5 as (c47 & r2 & -> & Hr2 & Hc47). cbn [rest] in A6.
  apply ways_Star_form in A6 as (p & r3 & -> & Hr3 & HFp). cbn [rest] in A4.
  apply hd_ways_Seq in A4 as (v8 & v9 & A7 & A8 & ->).
  apply find_some in A7 as [A7 _].
  apply ways_Star_form in A7 as (sp2 & r4 & -> & Hr4 & HF2). cbn [rest] in A8.
  apply hd_ways_Seq in A8 as (v10 & v11 & A9 & A10 & ->).
  apply find_some in A9 as [A9 _].
  apply ways_Char_form in A9 as (c45 & r5 & -> & Hr5 & Hc45). cbn [rest] in A10.
  apply hd_ways_Seq in A10 as (v12 & v13 & A11 & A12 & ->).
  fold descriptionToEnd in A11, A12.
  cbn [ways] in A11. rewrite find_map in A11.
  destruct (find _ (star isSpace r5)) as [[sp3 r6]|] eqn:F; [|discriminate].
  injection A11 as <-. cbn [rest snd] in *.
  pose proof F as F'. apply find_some in F' as [F' _].
  apply star_inv in F' as [Hr6 HF3].
  pose proof (hd_In _ _ A12) as A13. unfold descriptionToEnd in A13.
  apply ways_Seq_inv in A13 as (v14 & v15 & A13 & A14 & E).
  apply ways_Group_inv in A13 as (v16 & A13 & ->).
  apply ways_plus_form in A13 as (d & D & r7 & -> & Hr7 & Hd & HFD). cbn [rest] in A14.
  apply ways_End_inv in A14 as (-> & ->). subst v13.
  apply N.eqb_eq in Hc47, Hc45. rewrite app_nil_r in Hr7. subst.
  apply negb_true_iff in Hd.
  assert (HFD' : Forall (fun c => isLineTerminator c = false) D).
  { eapply List.Forall_impl; [|exact HFD]. cbn. intros c Hc'. now apply negb_true_iff. }
  exists wa, s1, sp1, p, sp2, sp3, d, D.
  cbn [consumed captures rest app]. repeat split; try assumption.
  - constructor; [exact Hs1|]. rewrite !Forall_app. auto.
  - eapply List.Forall_impl; [|exact HFp]. cbn. intros c Hc'. now apply negb_true_iff.
  - constructor; assumption.
  - destruct (isSpace d) eqn:Ed; [right|now left].
    apply (star_first isSpace (fun r => nonempty (ways descriptionToEnd r))) in F;
      [|exact Ed].
    destruct D as [|d' D']; [reflexivity|].
    inversion HFD' as [|? ? Hd' HD']; subst.
    pose proof (descriptionToEnd_first d' D' Hd' HD') as Hfirst.
    destruct (ways descriptionToEnd (d' :: D')); discriminate.
Qed.

(** The anatomy of a line that is recorded. *)
Lemma parseEndpoint_shape line api :
  parseEndpoint line = Some api ->
  exists m sp1 p sp2 sp3,
    line = m ++ sp1 ++ path api ++ sp2 ++ 45%N :: sp3 ++ api_description api
    /\ method api = toUpperCase m
    /\ sp1 <> []
    /\ Forall (fun c => isSpace c = true) (sp1 ++ sp2 ++ sp3)
    /\ path api = 47%N :: p
    /\ Forall (fun c => isSpace c = false) p
    /\ api_description api <> []
    /\ Forall (fun c => isLineTerminator c = false) (api_description api).
Proof.
  unfold parseEndpoint, matchStart.
  destruct (ways endpointRegex line) as [|w ws] eqn:E; [discriminate|].
  assert (Hw : hd_error (ways endpointRegex line) = Some w) by (now rewrite E).
  apply endpoint_first_way in Hw
    as (wa & s1 & sp1 & p & sp2 & sp3 & d & D & Ha & Hr & -> & HS & HP & HD & _).
  intros [= <-]. cbn [method path api_description].
  exists (consumed wa), (s1 :: sp1), p, sp2, sp3.
  rewrite (ways_consumed _ _ _ Ha), Hr. cbn [app]. rewrite <- ?app_assoc.
  repeat split; try assumption; discriminate.
Qed.

Lemma parseEndpoint_description_start line api :
  parseEndpoint line = Some api ->
  exists d D, api_description api = d :: D /\ (isSpace d = false \/ D = []).
Proof.
  unfold parseEndpoint, matchStart.
  destruct (ways endpointRegex line) as [|w ws] eqn:E; [discriminate|].
  assert (Hw : hd_error (ways endpointRegex line) = Some w) by (now rewrite E).
  apply endpoint_first_way in Hw
    as (wa & s1 & sp1 & p & sp2 & sp3 & d & D & Ha & Hr & -> & HS & HP & HD & Hstart).
  intros [= <-]. cbn [api_description]. eauto.
Qed.

(** *** From the record back to the line *)

Lemma endpointRegex_parts : endpointRegex = Seq (Group methodAlternatives) endpointTail.
Proof. reflexivity. Qed.

Lemma method_first M tail :
  In M httpMethods ->
  hd_error (ways (Group methodAlternatives) (M ++ tail)) = Some (Way M [M] tail)
  /\ toUpperCase M = M.
Proof.
  intros [<-|[<-|[<-|[<-|[<-|[]]]]]]; split; reflexivity.
Qed.

Lemma description_first d D :
  Forall (fun c => isLineTerminator c = false) (d :: D) ->
  isSpace d = false \/ D = [] ->
  exists wd,
    hd_error (ways (Seq (Star isSpace) descriptionToEnd) (32%N :: d :: D)) = Some wd
    /\ captures wd = [d :: D].
Proof.
  intros HD Hstart. inversion HD as [|? ? Hd HD']; subst.
  destruct (isSpace d) eqn:Ed.
  - destruct Hstart as [?| ->]; [discriminate|].
    eexists. split.
    + cbn [ways star descriptionToEnd plus]. change (isSpace 32) with true. cbn iota. rewrite Ed.
      cbn. rewrite Hd. cbn. reflexivity.
    + reflexivity.
  - eexists. split.
    + eapply ways_Seq_first.
      * apply (ways_Star_first isSpace [32%N] (d :: D)); [repeat constructor|exact Ed].
      * cbn [rest]. now apply descriptionToEnd_first.
    + reflexivity.
Qed.

Lemma endpointTail_first p t wd :
  Forall (fun c => isSpace c = false) p ->
  hd_error (ways (Seq (Star isSpace) descriptionToEnd) t) = Some wd ->
  exists w,
    hd_error (ways endpointTail (32%N :: 47%N :: p ++ 32%N :: 45%N :: t)) = Some w
    /\ captures w = (47%N :: p) :: captures wd.
Proof.
  intros Hp Hd. eexists. split.
  - unfold endpointTail. eapply ways_Seq_first.
    + apply (ways_plus_first isSpace 32%N [] (47%N :: p ++ 32%N :: 45%N :: t));
        [reflexivity|constructor|reflexivity].
    + cbn [rest]. eapply ways_Seq_first.
      * apply ways_Group_first. eapply ways_Seq_first; [apply ways_unit_first|].
        cbn [rest]. apply ways_Star_first; [|reflexivity].
        eapply List.Forall_impl; [|exact Hp]. cbn. intros c ->. reflexivity.
      * cbn [rest]. eapply ways_Seq_first.
        -- apply (ways_Star_first isSpace [32%N] (45%N :: t)); [repeat constructor|reflexivity].
        -- cbn [rest]. eapply ways_Seq_first; [apply ways_unit_first|].
           cbn [rest]. exact Hd.
  - reflexivity.
Qed.

Lemma endpointText_parses api p d D :
  In (method api) httpMethods ->
  path api = 47%N :: p -> Forall (fun c => isSpace c = false) p ->
  api_description api = d :: D ->
  Forall (fun c => isLineTerminator c = false) (d :: D) ->
  isSpace d = false \/ D = [] ->
  parseEndpoint (endpointText api) = Some api.
Proof.
  intros HM Hpath Hp Hdesc HD Hstart.
  destruct (description_first d D HD Hstart) as (wd & Hwd & Cd).
  destruct (endpointTail_first p _ wd Hp Hwd) as (w & Hw & Cw).
  destruct (method_first (method api)
              (32%N :: 47%N :: p ++ 32%N :: 45%N :: 32%N :: d :: D) HM) as [Hm Hup].
  pose proof (ways_Seq_first _ _ _ _ _ Hm Hw) as H.
  rewrite <- endpointRegex_parts in H.
  unfold parseEndpoint, matchStart, endpointText.
  rewrite Hpath, Hdesc.
  change (method api ++ js " " ++ (47%N :: p) ++ js " - " ++ d :: D)
    with (method api ++ 32%N :: 47%N :: p ++ 32%N :: 45%N :: 32%N :: d :: D).
  destruct (ways endpointRegex _) as [|w0 l]; [discriminate|].
  injection H as ->. cbn [captures app]. rewrite Cw, Cd, Hup.
  destruct api as [m pa de]. cbn in *. now subst.
Qed.

(** X1. A line that is recorded has the anatomy the question announces:
    a method in any mix of cases, white space, a path that begins with
    a slash and holds no white space, a dash with optional white space
    around it, and a description that runs to the end of the line, is
    not empty and holds no line terminator. The record keeps the method
    in capitals, the path and the description, and nothing of the line
    but white space and the dash is dropped. *)
Theorem recorded_endpoint_anatomy line api :
  parseEndpoint line = Some api ->
  exists m sp1 p sp2 sp3,
    line = m ++ sp1 ++ path api ++ sp2 ++ 45%N :: sp3 ++ api_description api
    /\ method api = toUpperCase m
    /\ In (method api) httpMethods
    /\ sp1 <> []
    /\ Forall (fun c => isSpace c = true) (sp1 ++ sp2 ++ sp3)
    /\ path api = 47%N :: p
    /\ Forall (fun c => isSpace c = false) p
    /\ api_description api <> []
    /\ Forall (fun c => isLineTerminator c = false) (api_description api).
Proof.
  intros H. pose proof (parseEndpoint_method _ _ H) as HM.
  apply parseEndpoint_shape in H
    as (m & sp1 & p & sp2 & sp3 & H1 & H2 & H3 & H4 & H5 & H6 & H7 & H8).
  exists m, sp1, p, sp2, sp3. auto 10.
Qed.

Lemma recorded_endpoint_anatomy_witness :
  exists m sp1 p sp2 sp3,
    js "post   /api/users-  Create a user"
    = m ++ sp1 ++ js "/api/users" ++ sp2 ++ 45%N :: sp3 ++ js "Create a user"
    /\ js "POST" = toUpperCase m
    /\ In (js "POST") httpMethods
    /\ sp1 <> []
    /\ Forall (fun c => isSpace c = true) (sp1 ++ sp2 ++ sp3)
    /\ js "/api/users" = 47%N :: p
    /\ Forall (fun c => isSpace c = false) p
    /\ js "Create a user" <> []
    /\ Forall (fun c => isLineTerminator c = false) (js "Create a user").
Proof.
  exact (recorded_endpoint_anatomy
           (js "post   /api/users-  Create a user")
           {| method := js "POST"; path := js "/api/users";
              api_description := js "Create a user" |}
           eq_refl).
Defined.

(** X2. An endpoint that was recorded is shown by the review as a line
    that the wizard reads back to the same endpoint: method, path and
    description survive being printed and typed again. *)
Theorem endpoint_review_line_reads_back line api :
  parseEndpoint line = Some api ->
  parseEndpoint (endpointText api) = Some api.
Proof.
  intros H. pose proof (parseEndpoint_method _ _ H) as HM.
  destruct (parseEndpoint_description_start _ _ H) as (d & D & Hdesc & Hstart).
  apply parseEndpoint_shape in H
    as (m & sp1 & p & sp2 & sp3 & _ & _ & _ & _ & Hpath & Hp & _ & HD).
  rewrite Hdesc in HD. eapply endpointText_parses; eauto.
Qed.

Lemma endpoint_review_line_reads_back_witness :
  parseEndpoint (js "DELETE /api/users/:id - Remove a user")
  = Some {| method := js "DELETE"; path := js "/api/users/:id";
            api_description := js "Remove a user" |}.
Proof.
  exact (endpoint_review_line_reads_back
           (js "delete /api/users/:id -Remove a user")
           {| method := js "DELETE"; path := js "/api/users/:id";
              api_description := js "Remove a user" |}
           eq_refl).
Defined.

End ProjectInitReviewFacts.

(** ** The wizard's sessions *)

Module ProjectInitSessionFacts.
Import JS ProjectInit ProjectInitReview ProjectInitFacts ProjectInitReviewFacts.

(** *** Environment variables *)

Lemma envVarLoop_empty acc input : envVarLoop [] acc input = Some (acc, input).
Proof. destruct input; reflexivity. Qed.

Lemma envVarLoop_step c line acc next input :
  envVarLoop (c :: line) acc (next :: input)
  = envVarLoop next (match parseEnvVar (c :: line) with
                     | Some v => acc ++ [v]
                     | None => acc
                     end) input.
Proof. reflexivity. Qed.

Lemma envVarLoop_collects ls : forall first acc rest_,
  Forall (fun l => l <> []) (first :: ls) ->
  envVarLoop first acc (ls ++ [] :: rest_)
  = Some (acc ++ omap parseEnvVar (first :: ls), rest_).
Proof.
  induction ls as [|l ls IH]; intros first acc rest_ HF;
    inversion HF as [|? ? Hne HF']; subst;
    (destruct first as [|c first']; [congruence|]);
    cbn [app]; rewrite envVarLoop_step.
  - rewrite envVarLoop_empty. cbn [omap list_omap].
    destruct (parseEnvVar (c :: first')); now rewrite ?app_nil_r.
  - rewrite IH by exact HF'.
    change (omap parseEnvVar ((c :: first') :: l :: ls))
      with (match parseEnvVar (c :: first') with
            | Some v => v :: omap parseEnvVar (l :: ls)
            | None => omap parseEnvVar (l :: ls)
            end).
    destruct (parseEnvVar (c :: first')) as [v|]; [|reflexivity].
    now rewrite <- app_assoc.
Qed.

Lemma parseEnvVar_shape line v :
  parseEnvVar line = Some v ->
  exists sp1 sp2,
    line = var_name v ++ sp1 ++ 45%N :: sp2 ++ var_description v
    /\ var_name v <> []
    /\ Forall (fun c => (65 <= c <= 90)%N \/ c = 95%N) (var_name v)
    /\ Forall (fun c => isSpace c = true) (sp1 ++ sp2)
    /\ var_description v <> []
    /\ Forall (fun c => isLineTerminator c = false) (var_description v).
Proof.
  unfold parseEnvVar, matchStart.
  destruct (ways envVarRegex line) as [|w ws] eqn:E; [discriminate|].
  assert (Hw : In w (ways envVarRegex line)) by (rewrite E; now left).
  clear E. unfold envVarRegex in Hw.
  apply ways_Seq_inv in Hw as (v1 & v2 & A1 & A2 & ->).
  apply ways_Group_inv in A1 as (v3 & A1 & ->).
  apply ways_plus_form in A1 as (n & N' & r1 & -> & Hr1 & Hn & HFN). cbn [rest] in A2.
  apply ways_Seq_inv in A2 as (v4 & v5 & A3 & A4 & ->).
  apply ways_Star_form in A3 as (sp1 & r2 & -> & Hr2 & HF1). cbn [rest] in A4.
  apply ways_Seq_inv in A4 as (v6 & v7 & A5 & A6 & ->).
  apply ways_Char_form in A5 as (c45 & r3 & -> & Hr3 & Hc45). cbn [rest] in A6.
  apply ways_Seq_inv in A6 as (v8 & v9 & A7 & A8 & ->).
  apply ways_Star_form in A7 as (sp2 & r4 & -> & Hr4 & HF2). cbn [rest] in A8.
  apply ways_Seq_inv in A8 as (v10 & v11 & A9 & A10 & ->).
  apply ways_Group_inv in A9 as (v12 & A9 & ->).
  apply ways_plus_form in A9 as (d & D & r5 & -> & Hr5 & Hd & HFD). cbn [rest] in A10.
  apply ways_End_inv in A10 as (-> & ->).
  apply N.eqb_eq in Hc45. subst.
  cbn [consumed captures rest app]. intros [= <-]. cbn [var_name var_description].
  exists sp1, sp2. rewrite app_nil_r. cbn [app]. rewrite <- ?app_assoc. cbn [app].
  assert (Hclass : forall c, ((65 <=? c) && (c <=? 90) || (c =? 95))%N = true ->
                             (65 <= c <= 90)%N \/ c = 95%N).
  { intros c Hc. apply orb_true_iff in Hc as [Hc|Hc].
    - apply andb_true_iff in Hc as [H1 H2]. apply N.leb_le in H1, H2. left. lia.
    - apply N.eqb_eq in Hc. now right. }
  repeat split.
  - discriminate.
  - constructor; [now apply Hclass|].
    eapply List.Forall_impl; [|exact HFN]. exact Hclass.
  - rewrite Forall_app. auto.
  - discriminate.
  - constructor; [now apply negb_true_iff|].
    eapply List.Forall_impl; [|exact HFD]. cbn. intros c Hc'. now apply negb_true_iff.
Qed.

(** X3. The loop over the environment variables, fed non-empty lines and
    then an empty one, ends at the empty line with the variables of the
    lines that match, in order; lines that do not match are passed over.
    A line is recorded only when it is a name made of capital letters
    and underscores alone, a dash with optional white space around it,
    and a description that runs to the end of the line; so a name with a
    small letter or a digit is never recorded. *)
Theorem environment_variables_recorded :
  (forall first ls acc rest_,
      Forall (fun l => l <> []) (first :: ls) ->
      envVarLoop first acc (ls ++ [] :: rest_)
      = Some (acc ++ omap parseEnvVar (first :: ls), rest_))
  /\ (forall line v,
        parseEnvVar line = Some v ->
        exists sp1 sp2,
          line = var_name v ++ sp1 ++ 45%N :: sp2 ++ var_description v
          /\ var_name v <> []
          /\ Forall (fun c => (65 <= c <= 90)%N \/ c = 95%N) (var_name v)
          /\ Forall (fun c => isSpace c = true) (sp1 ++ sp2)
          /\ var_description v <> []
          /\ Forall (fun c => isLineTerminator c = false) (var_description v)).
Proof.
  split; [intros; now apply envVarLoop_collects | exact parseEnvVar_shape].
Qed.

Lemma environment_variables_recorded_witness :
  envVarLoop (js "DATABASE_URL - PostgreSQL connection string") []
    ([js "S3_BUCKET - Bucket of uploads"; js "api_key - Key of the API"; js "API_KEY-Key of the API"]
       ++ [] :: [js "1"])
  = Some ([ {| var_name := js "DATABASE_URL";
               var_description := js "PostgreSQL connection string" |};
            {| var_name := js "API_KEY"; var_description := js "Key of the API" |} ],
          [js "1"]).
Proof.
  destruct environment_variables_recorded as (H & _).
  rewrite H.
  - vm_compute. reflexivity.
  - repeat constructor; vm_compute; discriminate.
Defined.

(** *** Numbered menus, on the menu *)

Lemma trimStart_spaces ws s :
  Forall (fun c => isSpace c = true) ws -> trimStart (ws ++ s) = trimStart s.
Proof.
  induction 1 as [|c ws Hc _ IH]; [reflexivity|]. cbn [app trimStart]. now rewrite Hc.
Qed.

Lemma trimStart_nonspace c s : isSpace c = false -> trimStart (c :: s) = c :: s.
Proof. intros H. cbn [trimStart]. now rewrite H. Qed.

Lemma digitPrefix_cons R c d s :
  radixDigit R c = Some d -> digitPrefix R (c :: s) = d :: digitPrefix R s.
Proof. intros H. cbn [digitPrefix]. now rewrite H. Qed.

Lemma parseInt_numeral ws (k : nat) tail :
  Forall (fun c => isSpace c = true) ws ->
  1 <= k <= 9 ->
  digitPrefix 10 tail = [] ->
  parseInt (ws ++ N.of_nat (48 + k) :: tail) = Some (Z.of_nat k).
Proof.
  intros Hws Hk Htail. unfold parseInt. rewrite (trimStart_spaces _ _ Hws).
  assert (Hcases : k = 1 \/ k = 2 \/ k = 3 \/ k = 4 \/ k = 5 \/ k = 6 \/ k = 7 \/ k = 8 \/ k = 9)
    by lia.
  destruct Hcases as [->|[->|[->|[->|[->|[->|[->|[->| ->]]]]]]]];
    match goal with
    | |- context [N.of_nat ?n] =>
        let c := eval vm_compute in (N.of_nat n) in
        change (N.of_nat n) with c
    end;
    (rewrite trimStart_nonspace by reflexivity);
    cbv beta iota zeta;
    (erewrite digitPrefix_cons by reflexivity);
    rewrite Htail; reflexivity.
Qed.

(** X4. An answer that is a numeral of the menu, with white space before
    it and anything but a digit after it, selects the entry of that
    number. *)
Theorem numeral_selects_its_entry {A} (table : list A) (fallback : A) ws (k : nat) tail :
  Forall (fun c => isSpace c = true) ws ->
  1 <= k <= 9 ->
  k <= length table ->
  digitPrefix 10 tail = [] ->
  nth_error table (k - 1) = Some (select table fallback (ws ++ N.of_nat (48 + k) :: tail)).
Proof.
  intros Hws Hk Hlen Htail. unfold select. rewrite (parseInt_numeral _ _ _ Hws Hk Htail).
  unfold pred1, index.
  replace (0 <=? Z.of_nat k - 1)%Z with true by (symmetry; apply Z.leb_le; lia).
  replace (Z.to_nat (Z.of_nat k - 1)) with (k - 1) by lia.
  destruct (nth_error table (k - 1)) as [v|] eqn:E; [reflexivity|].
  apply nth_error_None in E. lia.
Qed.

Lemma numeral_selects_its_entry_witness :
  nth_error databases (3 - 1)
  = Some (select databases (js "postgresql") (js "  " ++ N.of_nat (48 + 3) :: js ") mongo")).
Proof.
  apply (numeral_selects_its_entry databases (js "postgresql") (js "  ") 3 (js ") mongo")).
  - repeat constructor.
  - lia.
  - vm_compute. lia.
  - reflexivity.
Defined.

(** *** Deployment targets *)

Lemma includes_In l x : includes l x = true <-> In x l.
Proof.
  unfold includes. rewrite existsb_exists. split.
  - intros (y & Hy & E). apply streq_eq in E. now subst.
  - intros H. exists x. split; [exact H|]. now apply streq_eq.
Qed.

Lemma In_omap {A B} (f : A -> option B) l y :
  In y (omap f l) <-> exists x, In x l /\ f x = Some y.
Proof.
  induction l as [|a l IH]; cbn [omap list_omap].
  - split; [intros []|intros (x & [] & _)].
  - change (In y (match f a with Some b => b :: omap f l | None => omap f l end)
            <-> exists x, In x (a :: l) /\ f x = Some y).
    destruct (f a) as [b|] eqn:E; cbn [In]; rewrite IH; split.
    + intros [<-|(x & Hx & Hf)]; eauto.
    + intros (x & [<-|Hx] & Hf); [left; congruence|eauto].
    + intros (x & Hx & Hf); eauto.
    + intros (x & [<-|Hx] & Hf); [congruence|eauto].
Qed.

Lemma length_omap {A B} (f : A -> option B) l : length (omap f l) <= length l.
Proof.
  induction l as [|a l IH]; [reflexivity|].
  change (length (match f a with Some b => b :: omap f l | None => omap f l end)
          <= S (length l)).
  destruct (f a); cbn [length]; lia.
Qed.

Lemma index_deployTargets n :
  (index deployTargets (pred1 n) = Some (js "docker") <-> n = Some 1%Z)
  /\ (index deployTargets (pred1 n) = Some (js "kubernetes") <-> n = Some 2%Z).
Proof.
  destruct n as [z|]; cbn [pred1 index]; [|split; split; discriminate].
  destruct (0 <=? z - 1)%Z eqn:E.
  - apply Z.leb_le in E.
    destruct (Z.to_nat (z - 1)) as [|[|[|[|[|[|[|[|[|k]]]]]]]]] eqn:Ek;
      (split; (split; [intros H; vm_compute in H; try discriminate H; f_equal; lia
                      | intros [= ->]; discriminate Ek || reflexivity])).
  - apply Z.leb_gt in E. split; split; try discriminate; intros [= ->]; lia.
Qed.

Lemma index_In {A} (table : list A) n v : index table n = Some v -> In v table.
Proof.
  unfold index. destruct n as [z|]; [|discriminate].
  destruct (0 <=? z)%Z; [|discriminate]. apply nth_error_In.
Qed.

(** X5. Containerization follows from the entries of the answer: the
    flag [docker] is set exactly when one of the comma-separated entries
    reads, for parseInt, as 1 or as 2. Every target recorded is a name
    of the menu, and there are at most as many as entries. *)
Theorem docker_flag_follows_from_entries deployChoice input dep input' :
  defineDeploymentTargets (deployChoice :: input) = Some (dep, input') ->
  (docker dep = true
   <-> exists entry, In entry (split 44 deployChoice)
         /\ (parseInt (trim entry) = Some 1%Z \/ parseInt (trim entry) = Some 2%Z))
  /\ Forall (fun t => In t deployTargets) (targets dep)
  /\ length (targets dep) <= length (split 44 deployChoice).
Proof.
  unfold defineDeploymentTargets. intros H.
  invert_bind H. cbn in Hstep. injection Hstep as <- <-.
  invert_bind H. invert_bind H. apply ret_Some in H. injection H as Hd _. subst dep.
  cbn [docker targets]. unfold parseTargets. split; [|split].
  - rewrite orb_true_iff, !includes_In, !In_omap. split.
    + intros [(e & He & Hi)|(e & He & Hi)]; exists e; (split; [exact He|]);
        apply index_deployTargets in Hi; auto.
    + intros (e & He & [Hi|Hi]); [left|right]; exists e; (split; [exact He|]);
        apply index_deployTargets; exact Hi.
  - apply List.Forall_forall. intros t Ht. apply In_omap in Ht as (e & _ & Hi).
    eapply index_In; eauto.
  - apply length_omap.
Qed.

Lemma docker_flag_follows_from_entries_witness :
  exists dep,
    defineDeploymentTargets (map js ["3, 02 ,x"; "n"; "next"]) = Some (dep, [js "next"])
    /\ docker dep = true
    /\ targets dep = map js ["aws"; "kubernetes"].
Proof.
  destruct (defineDeploymentTargets (map js ["3, 02 ,x"; "n"; "next"]))
    as [[dep unread]|] eqn:E; [|vm_compute in E; discriminate].
  pose proof E as E'. vm_compute in E'. injection E' as Hd Hu. subst unread.
  exists dep. split; [reflexivity|].
  pose proof (docker_flag_follows_from_entries (js "3, 02 ,x") (map js ["n"; "next"]) dep
                [js "next"] E) as (Hdocker & _ & _).
  split; [|rewrite <- Hd; reflexivity].
  apply Hdocker. exists (js " 02 "). split; [vm_compute; tauto|]. right. reflexivity.
Defined.

(** *** What the optional fields of a configuration depend on *)

Lemma streq_false a b : streq a b = false <-> a <> b.
Proof.
  split.
  - intros H E. apply streq_eq in E. congruence.
  - intros H. destruct (streq a b) eqn:E; [|reflexivity]. apply streq_eq in E. contradiction.
Qed.

Ltac step_ret H :=
  apply ret_Some in H; injection H as H ?; subst.

Lemma gatherProjectInfo_inv argv input p input' :
  gatherProjectInfo argv input = Some (p, input') ->
  In (type p) types /\ In (language p) languages
  /\ (frontend p <> None <-> type p = js "web-app")
  /\ (forall f, frontend p = Some f -> In f frameworks).
Proof.
  unfold gatherProjectInfo. intros H. do 4 invert_bind H.
  apply menu_In in Hstep1; [|cbn; tauto]. apply menu_In in Hstep2; [|cbn; tauto].
  destruct (streq a1 (js "web-app")) eqn:E.
  - invert_bind H. invert_bind Hstep3. apply menu_In in Hstep4; [|cbn; tauto].
    step_ret Hstep3. step_ret H. cbn [type language frontend]. apply streq_eq in E.
    split; [assumption|]. split; [assumption|]. split; [split; [auto|discriminate]|].
    intros f [= <-]. assumption.
  - invert_bind H. step_ret Hstep3. step_ret H. cbn [type language frontend].
    apply streq_false in E.
    split; [assumption|]. split; [assumption|]. split; [split; congruence|discriminate].
Qed.

Lemma defineArchitecture_inv input a input' :
  defineArchitecture input = Some (a, input') ->
  In (pattern a) patterns
  /\ requiresAuth a = None /\ rateLimit a = None /\ apiVersioning a = None.
Proof.
  unfold defineArchitecture. intros H. do 3 invert_bind H.
  apply menu_In in Hstep; [|cbn; tauto].
  do 3 invert_bind H. step_ret H.
  cbn [pattern requiresAuth rateLimit apiVersioning]. auto.
Qed.

Lemma defineAPIs_inv p a input eps a' input' :
  requiresAuth a = None /\ rateLimit a = None /\ apiVersioning a = None ->
  defineAPIs p a input = Some ((eps, a'), input') ->
  pattern a' = pattern a /\ components a' = components a
  /\ (type p = js "cli-tool" \/ type p = js "library" -> eps = [])
  /\ (requiresAuth a' <> None <-> eps <> [])
  /\ (rateLimit a' <> None <-> eps <> [])
  /\ (apiVersioning a' <> None <-> eps <> []).
Proof.
  intros (N1 & N2 & N3). unfold defineAPIs.
  destruct (streq (type p) (js "cli-tool") || streq (type p) (js "library")) eqn:E.
  - intros H. apply ret_Some in H. injection H as -> -> _.
    rewrite N1, N2, N3. repeat split; congruence.
  - apply orb_false_iff in E as [E1 E2]. apply streq_false in E1, E2.
    intros H. invert_bind H. destruct a0.
    + do 2 invert_bind H. destruct a1 as [|e eps'].
      * apply ret_Some in H. injection H as -> -> _.
        rewrite N1, N2, N3. repeat split; try congruence; tauto.
      * do 3 invert_bind H. apply ret_Some in H. injection H as -> -> _.
        cbn [pattern components requiresAuth rateLimit apiVersioning].
        repeat split; try congruence; try tauto; discriminate.
    + apply ret_Some in H. injection H as -> -> _.
      rewrite N1, N2, N3. repeat split; try congruence; tauto.
Qed.

Lemma defineDatabaseRequirements_inv input db input' :
  defineDatabaseRequirements input = Some (db, input') ->
  (entities db <> None <-> db_type db <> js "none")
  /\ (migrations db <> None <-> db_type db <> js "none")
  /\ (seeding db <> None <-> db_type db <> js "none").
Proof.
  unfold defineDatabaseRequirements. intros H. invert_bind H. destruct a.
  - invert_bind H. destruct (streq a (js "none")) eqn:E; cbn [negb] in H.
    + step_ret H. cbn [db_type entities migrations seeding].
      apply streq_eq in E. repeat split; congruence.
    + do 3 invert_bind H. step_ret H. cbn [db_type entities migrations seeding].
      apply streq_false in E. repeat split; congruence.
  - step_ret H. cbn [db_type entities migrations seeding]. repeat split; congruence.
Qed.

Lemma none_not_authType : ~ In (js "none") authTypes.
Proof. vm_compute. intuition discriminate. Qed.

Lemma defineAuthentication_inv input au input' :
  defineAuthentication input = Some (au, input') ->
  In (auth_type au) (js "none" :: authTypes)
  /\ (rbac au <> None <-> auth_type au <> js "none")
  /\ (socialLogin au <> None <-> auth_type au <> js "none")
  /\ (roles au <> None <-> rbac au = Some true).
Proof.
  unfold defineAuthentication. intros H. invert_bind H. destruct a.
  - do 3 invert_bind H. apply menu_In in Hstep0; [|cbn; tauto].
    assert (Hne : a <> js "none") by (intros ->; exact (none_not_authType Hstep0)).
    destruct a1.
    + invert_bind H. invert_bind Hstep3. step_ret Hstep3. step_ret H.
      cbn [auth_type rbac socialLogin roles].
      split; [now right|]. repeat split; try congruence; try discriminate; try tauto.
    + invert_bind H. step_ret Hstep3. step_ret H.
      cbn [auth_type rbac socialLogin roles].
      split; [now right|]. repeat split; try congruence; try discriminate; try tauto.
  - step_ret H. cbn [auth_type rbac socialLogin roles].
    split; [now left|]. repeat split; try congruence; tauto.
Qed.

(** X6. What a gathered configuration leaves undefined, and when. The
    frontend is set exactly for a web application; the entities, the
    migration and the seeding flags exactly when a database was chosen;
    social login and role-based access exactly when authentication was;
    the roles exactly when role-based access was accepted; and the three
    flags of the API (authentication, rate limit, versioning) exactly
    when an endpoint was recorded. A command-line tool or a library has
    no endpoint. So the review and the blueprint, which read the length
    of the entities whenever the database type is not 'none', never read
    it from an undefined value. *)
Theorem configuration_optional_fields argv input cfg input' :
  gatherConfiguration argv input = Some (cfg, input') ->
  (frontend (project cfg) <> None <-> type (project cfg) = js "web-app")
  /\ (entities (database cfg) <> None <-> db_type (database cfg) <> js "none")
  /\ (migrations (database cfg) <> None <-> db_type (database cfg) <> js "none")
  /\ (seeding (database cfg) <> None <-> db_type (database cfg) <> js "none")
  /\ (socialLogin (authentication cfg) <> None <-> auth_type (authentication cfg) <> js "none")
  /\ (rbac (authentication cfg) <> None <-> auth_type (authentication cfg) <> js "none")
  /\ (roles (authentication cfg) <> None <-> rbac (authentication cfg) = Some true)
  /\ (requiresAuth (architecture cfg) <> None <-> apis cfg <> [])
  /\ (rateLimit (architecture cfg) <> None <-> apis cfg <> [])
  /\ (apiVersioning (architecture cfg) <> None <-> apis cfg <> [])
  /\ (type (project cfg) = js "cli-tool" \/ type (project cfg) = js "library" -> apis cfg = []).
Proof.
  unfold gatherConfiguration. intros H. do 7 invert_bind H.
  apply ret_Some in H. injection H as Hc _. subst cfg.
  cbn [project architecture apis database authentication].
  apply gatherProjectInfo_inv in Hstep as (_ & _ & Hfe & _).
  apply defineArchitecture_inv in Hstep0 as (_ & Harch).
  destruct a1 as [eps a']. apply (defineAPIs_inv _ _ _ _ _ _ Harch) in Hstep1
    as (_ & _ & Hcli & Hra & Hrl & Hav).
  apply defineDatabaseRequirements_inv in Hstep2 as (He & Hm & Hs).
  apply defineAuthentication_inv in Hstep3 as (_ & Hrb & Hso & Hro).
  cbn [fst snd]. repeat split; tauto.
Qed.

Lemma configuration_optional_fields_witness :
  exists cfg,
    gatherConfiguration (Some (js "shop")) nodePostgresSession = Some (cfg, [js "yes"])
    /\ entities (database cfg) <> None
    /\ roles (authentication cfg) = None.
Proof.
  destruct (gatherConfiguration (Some (js "shop")) nodePostgresSession)
    as [[cfg unread]|] eqn:E; [|vm_compute in E; discriminate].
  pose proof E as E'. vm_compute in E'. injection E' as Hc Hu. subst unread.
  exists cfg. split; [reflexivity|].
  pose proof (configuration_optional_fields _ _ _ _ E)
    as (_ & He & _ & _ & _ & _ & Hro & _).
  split.
  - apply He. rewrite <- Hc. vm_compute. discriminate.
  - destruct (roles (authentication cfg)) eqn:Er; [|reflexivity].
    assert (Hr : rbac (authentication cfg) = Some true) by (apply Hro; discriminate).
    rewrite <- Hc in Hr. vm_compute in Hr. discriminate.
Defined.

(** *** The files of a session *)

Lemma run_unconfirmed argv input s input' :
  run argv input = Some (s, input') -> confirmed s = false -> effects s = [].
Proof.
  unfold run. intros H Hc. invert_bind H. invert_bind H.
  destruct a0; apply ret_Some in H; injection H as Hs _; subst s; cbn in Hc |- *;
    [discriminate|reflexivity].
Qed.

Lemma lastWrite_In file effs : forall acc c,
  fold_left (lastWrite file) effs acc = Some c ->
  acc = Some c \/ In (WriteFile file c) effs.
Proof.
  induction effs as [|e effs IH]; intros acc c; cbn [fold_left]; [auto|].
  intros H. apply IH in H as [H|H]; [|right; now right].
  destruct e as [d|f c'|]; cbn [lastWrite] in H; auto.
  destruct (streq f file) eqn:E; [|auto].
  apply streq_eq in E. subst f. injection H as ->. right. now left.
Qed.

Lemma written_In file effs c : written file effs = Some c -> In (WriteFile file c) effs.
Proof. intros H. apply lastWrite_In in H as [H|H]; [discriminate|exact H]. Qed.

(** The names under which a session can write. *)
Lemma session_WriteFile_names cfg file c :
  In (WriteFile file c)
     (createProjectStructure cfg ++ generateBlueprint cfg ++ generateTemplates cfg ++ initializeGit) ->
  In file (map js ["PROJECT-BLUEPRINT.md"; ".gitignore"; "README.md"; ".env.example";
                   "Dockerfile"; "docker-compose.yml"; ".github/workflows/ci-cd.yml"]).
Proof.
  rewrite !in_app_iff. intros [H|[H|[H|H]]].
  - unfold createProjectStructure in H. destruct H as [H|H]; [discriminate|].
    apply in_map_iff in H as (d & [=] & _).
  - destruct H as [[= <- _]|[]]. cbn [map In]. tauto.
  - unfold generateTemplates in H. rewrite !in_app_iff in H.
    destruct H as [H|[H|[H|[H|H]]]].
    + destruct H as [[= <- _]|[]]. cbn [map In]. tauto.
    + destruct H as [[= <- _]|[]]. cbn [map In]. tauto.
    + destruct H as [[= <- _]|[]]. cbn [map In]. tauto.
    + destruct (docker (deployment cfg)); [|destruct H].
      unfold generateDockerfiles in H. apply in_app_iff in H as [H|H].
      * destruct (truthy _); [|destruct H]. destruct H as [[= <- _]|[]]. cbn [map In]. tauto.
      * destruct H as [[= <- _]|[]]. cbn [map In]. tauto.
    + destruct (cicd (deployment cfg)) as [pl|]; [|destruct H].
      destruct (truthy pl); [|destruct H]. unfold generateCICD in H.
      destruct (cicd (deployment cfg)) as [pl'|]; [|destruct H].
      destruct (streq pl' _); [|destruct H].
      destruct H as [H|[[= <- _]|[]]]; [discriminate|]. cbn [map In]. tauto.
  - destruct H as [H|[]]. discriminate.
Qed.

Lemma written_generateDockerfiles file cfg :
  streq (js "Dockerfile") file = false -> streq (js "docker-compose.yml") file = false ->
  written file (generateDockerfiles cfg) = None.
Proof.
  intros H1 H2. unfold generateDockerfiles. rewrite written_app.
  destruct (truthy _); unfold written; cbn [fold_left lastWrite]; now rewrite ?H1, ?H2.
Qed.

Lemma written_docker_part file cfg :
  streq (js "Dockerfile") file = false -> streq (js "docker-compose.yml") file = false ->
  written file (if docker (deployment cfg) then generateDockerfiles cfg else []) = None.
Proof.
  intros H1 H2. destruct (docker (deployment cfg)); [|reflexivity].
  now apply written_generateDockerfiles.
Qed.

Lemma written_cicd_part file cfg :
  streq (js ".github/workflows/ci-cd.yml") file = false ->
  written file (match cicd (deployment cfg) with
                | Some platform => if truthy platform then generateCICD cfg else []
                | None => []
                end) = None.
Proof.
  intros H. destruct (cicd (deployment cfg)) as [pl|]; [|reflexivity].
  destruct (truthy pl); [|reflexivity]. now apply written_generateCICD.
Qed.

Lemma written_templates_workflow cfg :
  written (js ".github/workflows/ci-cd.yml") (generateTemplates cfg)
  = match cicd (deployment cfg) with
    | Some platform =>
        if streq platform (js "github-actions") then Some WorkflowContent else None
    | None => None
    end.
Proof.
  unfold generateTemplates. rewrite !written_app.
  destruct (cicd (deployment cfg)) as [pl|] eqn:E.
  - destruct (truthy pl) eqn:T.
    + unfold generateCICD. rewrite E.
      destruct (streq pl (js "github-actions")); [reflexivity|].
      now rewrite written_docker_part.
    + destruct pl; [|discriminate]. now rewrite written_docker_part.
  - now rewrite written_docker_part.
Qed.



End ProjectInitSessionFacts.

(** ** The lines of .env.example *)

Module ProjectInitTemplateFacts.
Import JS ProjectInit ProjectInitFacts ProjectInitTemplates ProjectInitSessionFacts.

Lemma split_line sep line post :
  Forall (fun c => c <> sep) line ->
  split sep (line ++ sep :: post) = line :: split sep post.
Proof.
  induction line as [|c line IH]; intros Hl; cbn [app split].
  - now rewrite N.eqb_refl.
  - inversion Hl as [|? ? Hc Hl']; subst.
    replace (c =? sep)%N with false by (symmetry; now apply N.eqb_neq).
    now rewrite (IH Hl').
Qed.

Lemma commentLine_one_line line v :
  parseEnvVar line = Some v -> Forall (fun c => c <> 10%N) (commentLine v).
Proof.
  intros H. apply parseEnvVar_shape in H as (sp1 & sp2 & _ & _ & _ & _ & _ & Hd).
  unfold commentLine. apply Forall_app. split.
  - repeat constructor; vm_compute; discriminate.
  - eapply List.Forall_impl; [|exact Hd]. intros c Hc ->. discriminate.
Qed.

Lemma assignmentLine_one_line line v :
  parseEnvVar line = Some v -> Forall (fun c => c <> 10%N) (assignmentLine v).
Proof.
  intros H. apply parseEnvVar_shape in H as (sp1 & sp2 & _ & _ & Hn & _ & _ & _).
  unfold assignmentLine. apply Forall_app. split.
  - eapply List.Forall_impl; [|exact Hn]. intros c [Hc| ->]; [lia|discriminate].
  - repeat constructor; vm_compute; discriminate.
Qed.

Lemma literal_one_line (l : jsstring) :
  forallb (fun c => negb (c =? 10)%N) l = true -> Forall (fun c => c <> 10%N) l.
Proof.
  intros H. apply List.Forall_forall. intros c Hc ->.
  rewrite forallb_forall in H. now specialize (H _ Hc).
Qed.

Lemma envVars_lines variables :
  Forall (fun v => exists line, parseEnvVar line = Some v) variables ->
  variables <> [] ->
  split 10 (10%N :: join (nl ++ nl)
                      (map (fun v => js "# " ++ var_description v ++ nl ++ var_name v ++ js "=")
                           variables) ++ [10%N])
  = flat_map (fun v => [[]; commentLine v; assignmentLine v]) variables ++ [[]].
Proof.
  set (entry := fun v => js "# " ++ var_description v ++ nl ++ var_name v ++ js "=").
  induction variables as [|v vs IH]; intros Hv Hne; [congruence|].
  inversion Hv as [|? ? [line Hline] Hvs]; subst.
  pose proof (commentLine_one_line line v Hline) as Hc.
  pose proof (assignmentLine_one_line line v Hline) as Ha.
  change (split 10 (10%N :: ?s)) with ([] :: split 10 s).
  destruct vs as [|v' vs'].
  - cbn [map join flat_map app].
    replace (entry v ++ [10%N])
      with (commentLine v ++ 10%N :: assignmentLine v ++ 10%N :: [])
      by (unfold entry, commentLine, assignmentLine, nl; now rewrite <- !app_assoc).
    now rewrite (split_line _ _ _ Hc), (split_line _ _ _ Ha).
  - specialize (IH Hvs ltac:(discriminate)).
    change (flat_map ?f (v :: ?l)) with ([[]; commentLine v; assignmentLine v] ++ flat_map f l).
    rewrite <- app_assoc, <- IH.
    change (map entry (v :: ?l)) with (entry v :: map entry l).
    change (join ?sep (?x :: map entry (v' :: vs')))
      with (x ++ sep ++ join sep (map entry (v' :: vs'))).
    replace ((entry v ++ (nl ++ nl) ++ join (nl ++ nl) (map entry (v' :: vs'))) ++ [10%N])
      with (commentLine v ++ 10%N :: assignmentLine v ++ 10%N ::
              (10%N :: join (nl ++ nl) (map entry (v' :: vs')) ++ [10%N]))
      by (unfold entry at 2, commentLine, assignmentLine, nl; rewrite <- !app_assoc; reflexivity).
    now rewrite (split_line _ _ _ Hc), (split_line _ _ _ Ha).
Qed.

Lemma envTemplate_lines cfg :
  Forall (fun v => exists line, parseEnvVar line = Some v) (variables (environment cfg)) ->
  exists template,
    generateEnvTemplate cfg = [WriteFile (js ".env.example") (Text template)]
    /\ split 10 template
       = [js "# Environment Configuration";
          js "# Copy this file to .env and fill in the values"]
         ++ variableLines (variables (environment cfg)) ++ [[]].
Proof.
  intros Hv. eexists. split; [reflexivity|].
  unfold lines. cbn [flat_map]. rewrite app_nil_r.
  set (envVars := join _ _).
  replace ((js "# Environment Configuration" ++ nl)
           ++ (js "# Copy this file to .env and fill in the values" ++ nl)
           ++ ([] ++ nl) ++ envVars ++ nl)
    with (js "# Environment Configuration" ++ 10%N ::
          js "# Copy this file to .env and fill in the values" ++ 10%N ::
          (10%N :: envVars ++ [10%N]))
    by (unfold nl; rewrite <- !app_assoc; reflexivity).
  rewrite !split_line by (apply literal_one_line; vm_compute; reflexivity).
  unfold envVars. destruct (variables (environment cfg)) as [|v vs] eqn:E; [reflexivity|].
  rewrite envVars_lines; [reflexivity|exact Hv|discriminate].
Qed.

Lemma envVarLoop_parsed input : forall first acc variables input',
  Forall (fun v => exists line, parseEnvVar line = Some v) acc ->
  envVarLoop first acc input = Some (variables, input') ->
  Forall (fun v => exists line, parseEnvVar line = Some v) variables.
Proof.
  induction input as [|next input IH]; intros first acc variables input' Hacc H;
    destruct first as [|c first'].
  - rewrite envVarLoop_empty in H. now injection H as <- _.
  - discriminate.
  - rewrite envVarLoop_empty in H. now injection H as <- _.
  - rewrite envVarLoop_step in H. apply IH in H; [exact H|].
    destruct (parseEnvVar (c :: first')) as [v|] eqn:E; [|exact Hacc].
    apply Forall_app. split; [exact Hacc|]. constructor; [eauto|constructor].
Qed.

Lemma gathered_variables_parsed argv input cfg input' :
  gatherConfiguration argv input = Some (cfg, input') ->
  Forall (fun v => exists line, parseEnvVar line = Some v) (variables (environment cfg)).
Proof.
  unfold gatherConfiguration. intros H. do 7 invert_bind H.
  apply ret_Some in H. injection H as Hc _. subst cfg. cbn [environment].
  unfold defineEnvironment in Hstep5. do 3 invert_bind Hstep5.
  apply ret_Some in Hstep5. injection Hstep5 as He _. subst a5. cbn [variables].
  eapply envVarLoop_parsed; [constructor|eassumption].
Qed.

(** X29. project-init.js, [generateEnvTemplate] after [defineEnvironment]:
    the lines of .env.example. For a configuration gathered by the
    wizard the file is the two lines of the heading, then for each
    variable in order an empty line, the description as a comment and
    the name followed by '=' (two empty lines when there is no
    variable), and an empty last line. So every line of the file is
    empty, or a comment, or the assignment of a recorded variable: a
    description adds no line of its own. *)
Theorem env_template_lines argv input cfg input' :
  gatherConfiguration argv input = Some (cfg, input') ->
  exists template,
    generateEnvTemplate cfg = [WriteFile (js ".env.example") (Text template)]
    /\ split 10 template
       = [js "# Environment Configuration";
          js "# Copy this file to .env and fill in the values"]
         ++ variableLines (variables (environment cfg)) ++ [[]]
    /\ forall line, In line (split 10 template) ->
         line = []
         \/ (exists text, line = 35%N :: text)
         \/ (exists v, In v (variables (environment cfg)) /\ line = var_name v ++ js "=").
Proof.
  intros Hg. pose proof (gathered_variables_parsed _ _ _ _ Hg) as Hv.
  destruct (envTemplate_lines cfg Hv) as (template & Hw & E).
  exists template. split; [exact Hw|]. split; [exact E|]. rewrite E. intros line Hin.
  apply in_app_or in Hin as [Hin|Hin].
  { right; left. destruct Hin as [<-|[<-|[]]]; eexists; vm_compute; reflexivity. }
  apply in_app_or in Hin as [Hin|[<-|[]]]; [|now left].
  unfold variableLines in Hin.
  destruct (variables (environment cfg)) as [|v0 vs] eqn:Evs.
  { destruct Hin as [<-|[<-|[]]]; now left. }
  apply in_flat_map in Hin as (v & Hin & [<-|[<-|[<-|[]]]]).
  - now left.
  - right; left. exists (32%N :: var_description v). reflexivity.
  - right; right. exists v. split; [exact Hin|reflexivity].
Qed.

Lemma env_template_lines_witness :
  exists cfg template,
    gatherConfiguration (Some (js "shop")) nodePostgresSession = Some (cfg, [js "yes"])
    /\ generateEnvTemplate cfg = [WriteFile (js ".env.example") (Text template)]
    /\ split 10 template
       = map js ["# Environment Configuration";
                 "# Copy this file to .env and fill in the values";
                 "";
                 "# PostgreSQL connection string";
                 "DATABASE_URL=";
                 ""].
Proof.
  destruct (gatherConfiguration (Some (js "shop")) nodePostgresSession)
    as [[cfg unread]|] eqn:E; [|vm_compute in E; discriminate].
  pose proof E as E'. vm_compute in E'. injection E' as Hc Hu. subst unread.
  destruct (env_template_lines _ _ _ _ E) as (template & Hw & Hl & _).
  exists cfg, template. split; [reflexivity|]. split; [exact Hw|].
  rewrite Hl, <- Hc. vm_compute. reflexivity.
Defined.

End ProjectInitTemplateFacts.

(** ** Runs of the error recovery tool *)

Module ErrorRecoveryRunFacts.
Import Node ErrorRecovery ErrorRecoveryFacts.

(** *** The issue records *)

(** X8. Every issue a scan reports is well formed: its severity is one
    of high, medium, low and info, and it is marked fixable exactly
    when it refers to a remediation, so that the loop of applyFixes
    never meets a fixable issue without one. *)
Theorem reported_issues_are_well_formed host opts (w : fs) (i : Issue) :
  In i (snd (scanForIssues host opts w [])) ->
  In (severity i) ["high"; "medium"; "low"; "info"]
  /\ (fixable i = true <-> fix_ i <> None).
Proof.
  revert i. apply List.Forall_forall. apply emits_issues.
  apply emits_scanForIssues; intros;
    (split; [cbn; tauto | cbn; split; congruence]).
Qed.

Lemma reported_issues_are_well_formed_witness :
  In (severity noPlansDirectory) ["high"; "medium"; "low"; "info"]
  /\ (fixable noPlansDirectory = true <-> fix_ noPlansDirectory <> None).
Proof.
  apply (reported_issues_are_well_formed (constHost None) (autoOptions "all") emptyDir).
  vm_compute. tauto.
Defined.

(** *** Categories *)

Section Categories.
Variable host : Host.
Variable opts : Options.

Lemma emits_scan_by_category (P : Issue -> Prop) w :
  (isCategory opts "git" = true ->
   P (gitNotInitialized opts) /\ P gitConfigMissing /\ P uncommittedChanges) ->
  (isCategory opts "agents" = true ->
   (forall missing, P (missingAgentFiles missing))
   /\ (forall file, In file agentFiles -> P (invalidAgent opts file))) ->
  (isCategory opts "tests" = true ->
   P noTestScript /\ P noTestFramework /\ P noTestSetup) ->
  (isCategory opts "deps" = true -> P dependenciesNotInstalled) ->
  (category opts = "all" -> P noReadme /\ P noGitignore /\ P noPlansDirectory) ->
  emits P (scanForIssues host opts w).
Proof.
  intros Hgit Hagents Htests Hdeps Hall. unfold scanForIssues.
  apply emits_sbind; [apply emits_when; intros Hc|intros _].
  { destruct (Hgit Hc) as (? & ? & ?). now apply emits_checkGitIssues. }
  apply emits_sbind; [apply emits_when; intros Hc|intros _].
  { destruct (Hagents Hc) as (? & ?). apply emits_checkAgentFiles; auto. }
  apply emits_sbind; [apply emits_when; intros Hc|intros _].
  { destruct (Htests Hc) as (? & ? & ?). now apply emits_checkTestSetup. }
  apply emits_sbind; [apply emits_when; intros Hc|intros _].
  { apply emits_checkDependencies; auto. }
  apply emits_when. intros Hc. apply String.eqb_eq in Hc.
  destruct (Hall Hc) as (? & ? & ?).
  apply emits_sbind; [apply emits_checkProjectStructure; auto|intros _].
  apply emits_checkPlansDirectory; auto.
Qed.

Lemma isCategory_true c :
  isCategory opts c = true -> category opts = "all" \/ category opts = c.
Proof.
  unfold isCategory. intros H. apply orb_true_iff in H as [H|H];
    apply String.eqb_eq in H; auto.
Qed.

Lemma isCategory_false c :
  category opts <> "all" -> category opts <> c -> isCategory opts c = false.
Proof.
  intros H1 H2. unfold isCategory. apply orb_false_iff.
  split; apply String.eqb_neq; assumption.
Qed.

End Categories.

(** X9. A scan restricted to a category reports the issues of that
    category's check and no others: under git the three git issues,
    under agents the missing and the invalid agent files, under tests
    the three test issues, under deps the missing node_modules. The
    defects of the project structure (README.md, .gitignore, plans/) are
    reported under no category but all. *)
Theorem category_scan_is_confined host opts (w : fs) (i : Issue) :
  In i (snd (scanForIssues host opts w [])) ->
  category opts <> "all" ->
  (category opts = "git"
   /\ In i [gitNotInitialized opts; gitConfigMissing; uncommittedChanges])
  \/ (category opts = "agents"
      /\ ((exists missing, i = missingAgentFiles missing)
          \/ (exists file, In file agentFiles /\ i = invalidAgent opts file)))
  \/ (category opts = "tests" /\ In i [noTestScript; noTestFramework; noTestSetup])
  \/ (category opts = "deps" /\ i = dependenciesNotInstalled).
Proof.
  intros Hi Hall. revert i Hi. apply List.Forall_forall. apply emits_issues.
  apply emits_scan_by_category.
  - intros Hc. apply isCategory_true in Hc as [Hc|Hc]; [contradiction|].
    repeat split; left; (split; [exact Hc|cbn; tauto]).
  - intros Hc. apply isCategory_true in Hc as [Hc|Hc]; [contradiction|].
    split; [intros missing|intros file Hf]; right; left; (split; [exact Hc|]); eauto.
  - intros Hc. apply isCategory_true in Hc as [Hc|Hc]; [contradiction|].
    repeat split; right; right; left; (split; [exact Hc|cbn; tauto]).
  - intros Hc. apply isCategory_true in Hc as [Hc|Hc]; [contradiction|].
    right; right; right. auto.
  - contradiction.
Qed.

Lemma category_scan_is_confined_witness :
  In gitConfigMissing (snd (scanForIssues (constHost None) (autoOptions "git") emptyDir []))
  /\ In gitConfigMissing [gitNotInitialized (autoOptions "git"); gitConfigMissing; uncommittedChanges].
Proof.
  assert (Hi : In gitConfigMissing
                 (snd (scanForIssues (constHost None) (autoOptions "git") emptyDir [])))
    by (vm_compute; right; left; reflexivity).
  split; [exact Hi|].
  destruct (category_scan_is_confined (constHost None) (autoOptions "git") emptyDir _ Hi)
    as [[_ H]|[[H _]|[[H _]|[H _]]]]; [discriminate|exact H|discriminate..].
Defined.

Lemma run_unknown_category host opts (w : fs) (input : list string) :
  ~ In (category opts) ["all"; "git"; "agents"; "tests"; "deps"] ->
  scanForIssues host opts w [] = (Some tt, [])
  /\ run host opts w input = Completed w [] [] input.
Proof.
  intros H.
  assert (Hne : forall c, In c ["all"; "git"; "agents"; "tests"; "deps"] -> category opts <> c)
    by (intros c Hc E; apply H; now rewrite E).
  assert (Hscan : scanForIssues host opts w [] = (Some tt, [])).
  { unfold scanForIssues.
    rewrite !isCategory_false by (apply Hne; cbn; tauto).
    replace (String.eqb (category opts) "all") with false
      by (symmetry; apply String.eqb_neq, Hne; cbn; tauto).
    reflexivity. }
  split; [exact Hscan|]. unfold run. now rewrite Hscan.
Qed.

(** X10. A category the tool does not know runs no check at all: the scan
    reports nothing, and the run ends at once as a clean one, leaving
    the project and the operator's lines untouched. *)
Theorem unknown_category_finds_nothing host opts (w : fs) (input : list string) :
  ~ In (category opts) ["all"; "git"; "agents"; "tests"; "deps"] ->
  scanForIssues host opts w [] = (Some tt, [])
  /\ run host opts w input = Completed w [] [] input.
Proof. exact (run_unknown_category host opts w input). Qed.

Lemma unknown_category_finds_nothing_witness :
  run (constHost None) (autoOptions "test") emptyDir ["y"] = Completed emptyDir [] [] ["y"].
Proof.
  apply (unknown_category_finds_nothing (constHost None) (autoOptions "test") emptyDir ["y"]).
  cbn. intros [H|[H|[H|[H|[H|[]]]]]]; discriminate H.
Defined.

(** *** The remediation loop with an operator *)

Section Operator.
Variable host : Host.
Variable opts : Options.

Lemma fixLoop_declined queue : forall w fixes input,
  autoFix opts = false ->
  length queue <= length input ->
  Forall (fun answer => saysYes answer = false) (firstn (length queue) input) ->
  fixLoop host opts queue w fixes input = Some (w, fixes, skipn (length queue) input).
Proof.
  induction queue as [|i queue IH]; intros w fixes input Hauto Hlen Hno; [reflexivity|].
  destruct input as [|answer input]; [cbn in Hlen; lia|].
  cbn [length firstn] in Hno. inversion Hno as [|? ? Ha Hno']; subst.
  cbn [fixLoop]. rewrite Hauto, Ha. cbn [length skipn].
  apply IH; [exact Hauto | cbn in Hlen; lia | exact Hno'].
Qed.

(** The identifiers recorded as fixed are added in the order of the
    queue, each at most once per issue of the queue. *)
Lemma fixLoop_fixes queue : forall w fixes input w' fixes' input',
  fixLoop host opts queue w fixes input = Some (w', fixes', input') ->
  exists added, fixes' = fixes ++ added /\ sublist added (map id queue).
Proof.
  induction queue as [|i queue IH]; intros w fixes input w' fixes' input'.
  - cbn. intros [= <- <- <-]. exists []. rewrite app_nil_r. split; [reflexivity|constructor].
  - cbn [fixLoop map].
    assert (Hskip : forall w1 i1,
      fixLoop host opts queue w1 fixes i1 = Some (w', fixes', input') ->
      exists added, fixes' = fixes ++ added /\ sublist added (id i :: map id queue)).
    { intros w1 i1 H. apply IH in H as (added & -> & Hs).
      exists added. split; [reflexivity|]. now constructor. }
    destruct (if autoFix opts then _ else _) as [[[|] input1]|]; [| |discriminate].
    + destruct (fix_ i) as [f|]; [|apply Hskip].
      destruct (runFix host opts f w input1) as [w1 i1|w1 i1|]; [|apply Hskip|discriminate].
      intros H. apply IH in H as (added & -> & Hs).
      exists (id i :: added). rewrite <- app_assoc. split; [reflexivity|]. now constructor.
    + apply Hskip.
Qed.

End Operator.

(** X11. An operator who runs the tool without the automatic flag and
    declines every remediation leaves the project as it was: one line
    is read for each fixable issue, nothing is fixed, and the file
    system is unchanged. Only the answers y and Y accept; the answer
    'yes' declines. *)
Theorem declining_changes_nothing host opts (w : fs) (input : list string) issues :
  autoFix opts = false -> scanOnly opts = false ->
  scanForIssues host opts w [] = (Some tt, issues) ->
  let asked := length (List.filter (fun issue => fixable issue) issues) in
  asked <= length input ->
  Forall (fun answer => saysYes answer = false) (firstn asked input) ->
  run host opts w input = Completed w issues [] (skipn asked input).
Proof.
  intros Hauto Hscan Hs asked Hlen Hno. unfold run. rewrite Hs, Hscan.
  unfold applyFixes. rewrite (fixLoop_declined host opts _ w [] input Hauto Hlen Hno).
  destruct issues; reflexivity.
Qed.

Lemma declining_changes_nothing_witness :
  run (constHost None)
      {| rootDir := "/work/shop"; rootName := "shop"; autoFix := false;
         scanOnly := false; verbose := false; category := "all" |}
      emptyDir ["n"; "yes"; ""; "no"; "N"; " y"; "ok"]
  = Completed emptyDir
      (snd (scanForIssues (constHost None)
              {| rootDir := "/work/shop"; rootName := "shop"; autoFix := false;
                 scanOnly := false; verbose := false; category := "all" |}
              emptyDir []))
      [] ["ok"].
Proof.
  refine (declining_changes_nothing (constHost None)
            {| rootDir := "/work/shop"; rootName := "shop"; autoFix := false;
               scanOnly := false; verbose := false; category := "all" |}
            emptyDir ["n"; "yes"; ""; "no"; "N"; " y"; "ok"] _ eq_refl eq_refl _ _ _).
  - vm_compute. reflexivity.
  - vm_compute. lia.
  - vm_compute. repeat constructor.
Defined.

(** X12. What a run records as fixed is drawn from what it found: the
    identifiers fixed are identifiers of fixable issues of the scan, in
    the order in which the scan reported them, none more often than it
    was reported. *)
Theorem fixes_are_drawn_from_fixable_issues host opts (w : fs) input w' issues fixes input' :
  run host opts w input = Completed w' issues fixes input' ->
  issues = snd (scanForIssues host opts w [])
  /\ sublist fixes (map id (List.filter (fun issue => fixable issue) issues)).
Proof.
  unfold run. destruct (scanForIssues host opts w []) as [[[]|] found]; [|discriminate].
  cbn [snd].
  assert (Hnil : forall l : list string, sublist [] l) by (intros l; apply sublist_nil_l).
  destruct found as [|i found]; [intros [= <- <- <- <-]; auto|].
  destruct (scanOnly opts); [intros [= <- <- <- <-]; auto|].
  unfold applyFixes.
  destruct (fixLoop host opts _ w [] input) as [[[w1 fixes1] input1]|] eqn:E; [|discriminate].
  intros [= <- <- <- <-]. split; [reflexivity|].
  apply fixLoop_fixes in E as (added & -> & Hs). exact Hs.
Qed.

Lemma fixes_are_drawn_from_fixable_issues_witness :
  exists w' issues fixes,
    run (constHost None) (autoOptions "all") emptyDir ["Ann"; "ann@example.org"]
    = Completed w' issues fixes []
    /\ sublist fixes (map id (List.filter (fun issue => fixable issue) issues)).
Proof.
  destruct (run (constHost None) (autoOptions "all") emptyDir ["Ann"; "ann@example.org"])
    as [w' issues fixes input'| |] eqn:E; [|vm_compute in E; discriminate..].
  assert (Hin : input' = []) by (vm_compute in E; congruence). subst input'.
  exists w', issues, fixes. split; [reflexivity|].
  exact (proj2 (fixes_are_drawn_from_fixable_issues _ _ _ _ _ _ _ _ E)).
Defined.

(** *** The test setup *)

Lemma checkTestSetup_noTestSetup host (w : fs) :
  In noTestSetup (snd (checkTestSetup host w []))
  <-> existsSync w "package.json" = false
      /\ existsSync w "pytest.ini" = false
      /\ existsSync w "pom.xml" = false.
Proof.
  destruct (existsSync w "package.json") eqn:Epkg.
  - split; [|intros [[=] _]].
    intros Hin. exfalso. revert Hin.
    assert (HP : Forall (fun i => i <> noTestSetup) (snd (checkTestSetup host w []))).
    { apply emits_issues. unfold checkTestSetup. rewrite Epkg.
      apply emits_sbind; [|intros has].
      - repeat emits_step; discriminate.
      - rewrite andb_false_r. apply emits_sret. }
    intros Hin. rewrite List.Forall_forall in HP. exact (HP _ Hin eq_refl).
  - unfold checkTestSetup. rewrite Epkg.
    destruct (existsSync w "pytest.ini") eqn:Epy;
      [|destruct (existsSync w "pom.xml") eqn:Epom]; cbn.
    + split; [intros []|intros (_ & [=] & _)].
    + split; [intros []|intros (_ & _ & [=])].
    + split; [auto|]. intros _. now left.
Qed.

(** X13. The check of the test setup reports no_test_setup exactly when
    the project has none of package.json, pytest.ini and pom.xml. A
    project with a package.json never gets this report, whatever its
    scripts; one with a pom.xml alone counts as set up. *)
Theorem no_test_setup_reported host (w : fs) :
  In noTestSetup (snd (checkTestSetup host w []))
  <-> existsSync w "package.json" = false
      /\ existsSync w "pytest.ini" = false
      /\ existsSync w "pom.xml" = false.
Proof. exact (checkTestSetup_noTestSetup host w). Qed.

(** *** Rewriting package.json *)

Lemma assoc_setField_eq key v fields : assoc key (setField key v fields) = Some v.
Proof.
  induction fields as [|[k v0] fields IH]; cbn [setField assoc].
  - now rewrite String.eqb_refl.
  - destruct (String.eqb k key) eqn:E; cbn [assoc]; rewrite E; [reflexivity|exact IH].
Qed.

Lemma assoc_setField_ne key k v fields :
  k <> key -> assoc k (setField key v fields) = assoc k fields.
Proof.
  intros Hne. induction fields as [|[k0 v0] fields IH]; cbn [setField assoc].
  - replace (String.eqb key k) with false; [reflexivity|].
    symmetry. apply String.eqb_neq. congruence.
  - destruct (String.eqb k0 key) eqn:E; cbn [assoc].
    + apply String.eqb_eq in E. subst k0.
      replace (String.eqb key k) with false; [reflexivity|].
      symmetry. apply String.eqb_neq. congruence.
    + destruct (String.eqb k0 k); [reflexivity|exact IH].
Qed.

Lemma setTestScript_other_fields create cmd pkg pkg' :
  setTestScript create cmd pkg = Some pkg' ->
  forall k, k <> "scripts" -> get (Some pkg') k = get (Some pkg) k.
Proof.
  unfold setTestScript. intros H k Hk.
  destruct pkg as [| | | |items|fields]; try discriminate.
  - destruct create; [|discriminate]. now injection H as <-.
  - destruct (if create && negb (truthy (assoc "scripts" fields)) then _ else _)
      as [[| | | |items|sf]|]; try discriminate; injection H as <-; [reflexivity|].
    cbn [get]. f_equal. now apply assoc_setField_ne.
Qed.

(** X14. Setting the test script keeps the rest of the manifest. When the
    manifest is an object, the result is an object in which every field
    but [scripts] is as before; and either [scripts] was an array and
    nothing changed at all, or [scripts] is now an object whose [test]
    is the command and whose other entries are those it had (none, when
    it was created). *)
Theorem setTestScript_keeps_other_fields create cmd fields pkg' :
  setTestScript create cmd (JObj fields) = Some pkg' ->
  exists fields',
    pkg' = JObj fields'
    /\ (forall k, k <> "scripts" -> assoc k fields' = assoc k fields)
    /\ ((exists items, assoc "scripts" fields = Some (JArr items) /\ fields' = fields)
        \/ (exists sf sf',
              assoc "scripts" fields' = Some (JObj sf')
              /\ assoc "test" sf' = Some (JStr cmd)
              /\ (forall k, k <> "test" -> assoc k sf' = assoc k sf)
              /\ (assoc "scripts" fields = Some (JObj sf)
                  \/ (sf = [] /\ create = true /\ truthy (assoc "scripts" fields) = false)))).
Proof.
  unfold setTestScript.
  destruct (create && negb (truthy (assoc "scripts" fields))) eqn:Ec.
  - intros [= <-]. eexists. split; [reflexivity|].
    split; [intros k Hk; now apply assoc_setField_ne|].
    right. exists [], (setField "test" (JStr cmd) []).
    rewrite assoc_setField_eq. split; [reflexivity|]. split; [reflexivity|].
    split; [intros k Hk; now apply assoc_setField_ne|].
    right. apply andb_true_iff in Ec as [-> Ht]. apply negb_true_iff in Ht. auto.
  - destruct (assoc "scripts" fields) as [[| | | |items|sf]|] eqn:Es; try discriminate.
    + intros [= <-]. exists fields. split; [reflexivity|]. split; [reflexivity|].
      left. eauto.
    + intros [= <-]. eexists. split; [reflexivity|].
      split; [intros k Hk; now apply assoc_setField_ne|].
      right. exists sf, (setField "test" (JStr cmd) sf).
      rewrite !assoc_setField_eq. split; [reflexivity|]. split; [reflexivity|].
      split; [intros k Hk; now apply assoc_setField_ne|]. now left.
Qed.

Lemma setTestScript_keeps_other_fields_witness :
  exists fields',
    setTestScript false "jest"
      (JObj [("name", JStr "shop");
             ("scripts", JObj [("start", JStr "node ."); ("test", JStr "mocha")]);
             ("version", JStr "1.0.0")])
    = Some (JObj fields')
    /\ assoc "name" fields' = Some (JStr "shop")
    /\ assoc "version" fields' = Some (JStr "1.0.0").
Proof.
  destruct (setTestScript_keeps_other_fields false "jest"
              [("name", JStr "shop");
               ("scripts", JObj [("start", JStr "node ."); ("test", JStr "mocha")]);
               ("version", JStr "1.0.0")]
              _ eq_refl) as (fields' & E & Hother & _).
  exists fields'. split; [rewrite <- E; reflexivity|].
  split; [rewrite (Hother "name")|rewrite (Hother "version")]; (reflexivity || discriminate).
Defined.

End ErrorRecoveryRunFacts.

(** ** Runs of the start script *)

Module StartScriptRunFacts.
Import StartScript StartScriptFacts.

Lemma poll_first_healthy env k : forall retry_count fuel,
  (forall j, retry_count <= j < retry_count + k -> health env j = false) ->
  health env (retry_count + k) = true ->
  retry_count + k < max_retries -> k < fuel ->
  poll env fuel retry_count
  = Some (retry_count + k, waiting retry_count k ++ [curl; Echo "✓ API is ready!"]).
Proof.
  induction k as [|k IH]; intros retry_count fuel Hno Hyes Hlt Hf;
    (destruct fuel as [|fuel]; [lia|]); cbn [poll];
    (replace (retry_count <? max_retries)%nat with true by (symmetry; apply Nat.ltb_lt; lia)).
  - rewrite Nat.add_0_r in *. rewrite Hyes. reflexivity.
  - rewrite (Hno retry_count) by lia.
    rewrite (IH (retry_count + 1) fuel); [| |replace (retry_count + 1 + k) with (retry_count + S k) by lia; assumption|lia|lia].
    + unfold waiting. cbn [seq flat_map]. unfold waitingRound at 2. cbn [app].
      replace (S (retry_count + 1)) with (retry_count + 1 + 1) by lia.
      replace (retry_count + 1 + k) with (retry_count + S k) by lia. reflexivity.
    + intros j Hj. apply Hno. lia.
Qed.

(** How the loop is left, whatever the health checks answer. *)
Lemma poll_result env : forall k retry_count fuel,
  retry_count + k = max_retries -> k < fuel ->
  exists n evs,
    poll env fuel retry_count = Some (n, evs)
    /\ attempts evs <= k
    /\ n <= max_retries
    /\ (n = max_retries <-> forall j, retry_count <= j < max_retries -> health env j = false).
Proof.
  induction k as [|k IH]; intros retry_count fuel Hk Hf;
    (destruct fuel as [|fuel]; [lia|]); cbn [poll].
  - replace (retry_count <? max_retries)%nat with false by (symmetry; apply Nat.ltb_ge; lia).
    eexists _, _. split; [reflexivity|]. split; [cbn; lia|]. split; [lia|].
    split; [intros _ j Hj; lia|intros _; lia].
  - replace (retry_count <? max_retries)%nat with true by (symmetry; apply Nat.ltb_lt; lia).
    destruct (health env retry_count) eqn:Eh.
    + eexists _, _. split; [reflexivity|]. split; [cbn; lia|]. split; [lia|].
      split; [lia|]. intros Hall. rewrite Hall in Eh by lia. discriminate.
    + destruct (IH (retry_count + 1) fuel) as (n & evs & -> & Ha & Hn & Hiff); [lia|lia|].
      eexists _, _. split; [reflexivity|].
      split; [unfold attempts in *; cbn; lia|]. split; [exact Hn|].
      rewrite Hiff. split.
      * intros Hall j Hj. destruct (Nat.eq_dec j retry_count) as [->|Hne]; [exact Eh|].
        apply Hall. lia.
      * intros Hall j Hj. apply Hall. lia.
Qed.

(** X15. When Docker runs, docker-compose is installed and the services
    start, the script is ready at the first health check that
    succeeds: if that is check number k (from 0, with k below 30), the
    script makes k + 1 checks, sleeps 10 seconds before the loop and 2
    after each failed check, prints the access points and exits with
    status 0. *)
Theorem script_ready_at_first_healthy_check env fuel k :
  docker_info env = true ->
  docker_compose_found env = true ->
  compose_up env = 0 ->
  (forall j, j < k -> health env j = false) ->
  health env k = true ->
  k < max_retries -> k < fuel ->
  exists before polling,
    script env fuel = Some (before ++ polling ++ readyMessage, 0)
    /\ attempts before = 0 /\ slept before = 10
    /\ attempts polling = k + 1 /\ slept polling = 2 * k.
Proof.
  intros Hd Hc Hu Hno Hyes Hk Hf.
  assert (Hp : poll env fuel 0 = Some (k, waiting 0 k ++ [curl; Echo "✓ API is ready!"])).
  { apply (poll_first_healthy env k 0 fuel); try assumption.
    intros j Hj. apply Hno. lia. }
  unfold script. rewrite Hd, Hc, Hu. cbn [negb]. rewrite Hp.
  replace (k =? max_retries)%nat with false by (symmetry; apply Nat.eqb_neq; lia).
  eexists _, _. split; [reflexivity|]. split; [reflexivity|]. split; [reflexivity|].
  unfold attempts, slept.
  rewrite List.filter_app, length_app, map_app, list_sum_app.
  fold (attempts (waiting 0 k)). fold (slept (waiting 0 k)).
  rewrite waiting_attempts, waiting_slept. cbn. lia.
Qed.

Lemma script_ready_at_first_healthy_check_witness :
  exists before polling,
    script {| docker_info := true; docker_compose_found := true; compose_up := 0;
              health := fun n => (3 <=? n)%nat |} 31
    = Some (before ++ polling ++ readyMessage, 0)
    /\ attempts polling = 3 + 1 /\ slept polling = 2 * 3.
Proof.
  destruct (script_ready_at_first_healthy_check
              {| docker_info := true; docker_compose_found := true; compose_up := 0;
                 health := fun n => (3 <=? n)%nat |} 31 3)
    as (before & polling & Hs & _ & _ & Ha & Hz);
    [reflexivity | reflexivity | reflexivity
    | intros j Hj; apply Nat.leb_gt; exact Hj
    | reflexivity | unfold max_retries; lia | lia |].
  exists before, polling. auto.
Defined.

(** X16. The exit status of the script. With room for more than 30 tests
    of the loop condition the script always ends. It exits with status
    0 exactly when Docker runs, docker-compose is installed, the
    services start and one of the first 30 health checks succeeds. It
    makes at most 30 health checks, and none at all unless the services
    were started. *)
Theorem script_exit_status env fuel :
  max_retries < fuel ->
  exists trace status,
    script env fuel = Some (trace, status)
    /\ (status = 0
        <-> docker_info env = true /\ docker_compose_found env = true
            /\ compose_up env = 0
            /\ exists k, k < max_retries /\ health env k = true)
    /\ attempts trace <= max_retries
    /\ (0 < attempts trace ->
        docker_info env = true /\ docker_compose_found env = true /\ compose_up env = 0).
Proof.
  intros Hf. unfold script.
  destruct (docker_info env) eqn:Hd; cbn [negb].
  2:{ eexists _, _. split; [reflexivity|]. split; [|split; [cbn; lia|cbn; lia]].
      split; [discriminate|intros ([=] & _)]. }
  destruct (docker_compose_found env) eqn:Hc; cbn [negb].
  2:{ eexists _, _. split; [reflexivity|]. split; [|split; [cbn; lia|cbn; lia]].
      split; [discriminate|intros (_ & [=] & _)]. }
  destruct (compose_up env) as [|status] eqn:Hu.
  2:{ eexists _, _. split; [reflexivity|]. split; [|split; [cbn; lia|cbn; lia]].
      split; [discriminate|intros (_ & _ & [=] & _)]. }
  destruct (poll_result env max_retries 0 fuel eq_refl Hf) as (n & evs & -> & Ha & Hn & Hiff).
  destruct (n =? max_retries)%nat eqn:En.
  - apply Nat.eqb_eq in En. eexists _, _. split; [reflexivity|].
    split; [|split].
    + split; [discriminate|]. intros (_ & _ & _ & k & Hk & Hh).
      rewrite (proj1 Hiff En k) in Hh by lia. discriminate.
    + unfold attempts in *. rewrite !List.filter_app, !length_app. cbn. lia.
    + auto.
  - apply Nat.eqb_neq in En. eexists _, _. split; [reflexivity|].
    split; [|split].
    + split; [intros _|reflexivity]. repeat split.
      destruct (List.existsb (health env) (seq 0 max_retries)) eqn:Ex.
      * apply existsb_exists in Ex as (k & Hk & Hh). apply in_seq in Hk. exists k. split; [lia|exact Hh].
      * exfalso. apply En, Hiff. intros j Hj.
        destruct (health env j) eqn:Ej; [|reflexivity].
        assert (Hex : List.existsb (health env) (seq 0 max_retries) = true)
          by (apply existsb_exists; exists j; split; [apply in_seq; lia|exact Ej]).
        congruence.
    + unfold attempts in *. rewrite !List.filter_app, !length_app. cbn. lia.
    + auto.
Qed.

Lemma script_exit_status_witness :
  exists trace status,
    script {| docker_info := true; docker_compose_found := true; compose_up := 2;
              health := fun _ => true |} 31 = Some (trace, status)
    /\ status <> 0 /\ attempts trace = 0.
Proof.
  destruct (script_exit_status
              {| docker_info := true; docker_compose_found := true; compose_up := 2;
                 health := fun _ => true |} 31)
    as (trace & status & Hs & Hiff & _ & Hnone); [unfold max_retries; lia|].
  exists trace, status. split; [exact Hs|]. split.
  - intros H0. apply Hiff in H0 as (_ & _ & [=] & _).
  - destruct (attempts trace) eqn:Ea; [reflexivity|].
    destruct Hnone as (_ & _ & [=]). lia.
Defined.

End StartScriptRunFacts.

(** ** The quality standards *)

Module QAStandardsFacts.
Import QA.

(** X17. The two lists of the quality standards do not overlap: each
    automatic FAIL condition breaks one of the minimum standards for
    PASS, so that no phase both meets the minimum standards and fails
    automatically. The converse does not hold: a phase with lint errors
    that do not break the build misses the minimum standards and meets
    no automatic FAIL condition. *)
Theorem automatic_fail_breaks_a_minimum_standard :
  (forall f, automaticFail f = true -> meetsMinimumStandards f = false)
  /\ (exists f, meetsMinimumStandards f = false /\ automaticFail f = false).
Proof.
  split.
  - intros f. unfold automaticFail, meetsMinimumStandards.
    rewrite !orb_true_iff, !Nat.ltb_lt.
    intros [[[[H|H]|H]|H]|H].
    + replace (securityVulnerabilities f =? 0)%nat with false
        by (symmetry; apply Nat.eqb_neq; lia). reflexivity.
    + replace (failingTests f =? 0)%nat with false
        by (symmetry; apply Nat.eqb_neq; lia). now rewrite !andb_false_r.
    + replace (buildBreakingLintErrors f + otherLintErrors f =? 0)%nat with false
        by (symmetry; apply Nat.eqb_neq; lia). now rewrite !andb_false_r.
    + rewrite H. now rewrite !andb_false_r.
    + replace (hardcodedSecrets f =? 0)%nat with false
        by (symmetry; apply Nat.eqb_neq; lia). now rewrite !andb_false_r.
  - exists {| securityVulnerabilities := 0; hardcodedSecrets := 0; failingTests := 0;
              buildBreakingLintErrors := 0; otherLintErrors := 1; lintWarnings := 0;
              newFunctionalityUntested := false; coverage := Some 90%N;
              publicApiUndocumented := false; styleInconsistencies := false;
              internalFunctionsUndocumented := false; minorPerformanceConcerns := false;
              todoComments := false |}.
    split; reflexivity.
Qed.

End QAStandardsFacts.

(** ** The analysis of the blueprint generator *)

Module BlueprintAnalysisFacts.
Import JS Node BlueprintAnalysis ProjectInitFacts ProjectInitReviewFacts.

(** *** Substrings *)

Lemma startsWith_spec needle : forall text,
  ProjectInit.startsWith needle text = true <-> exists post, text = needle ++ post.
Proof.
  induction needle as [|x needle IH]; intros text; cbn [ProjectInit.startsWith].
  - split; [intros _; now exists text|reflexivity].
  - destruct text as [|y text].
    + split; [discriminate|intros (post & [=])].
    + rewrite andb_true_iff, N.eqb_eq, IH. split.
      * intros (-> & post & ->). now exists post.
      * intros (post & [= -> ->]). eauto.
Qed.

Lemma occursIn_spec needle : forall text,
  ProjectInit.occursIn needle text = true <-> exists pre post, text = pre ++ needle ++ post.
Proof.
  induction text as [|y text IH]; cbn [ProjectInit.occursIn].
  - rewrite orb_false_r, startsWith_spec. split.
    + intros (post & ->). now exists [], post.
    + intros (pre & post & H). destruct pre; [now exists post|discriminate].
  - rewrite orb_true_iff, startsWith_spec, IH. split.
    + intros [(post & ->)|(pre & post & ->)]; [now exists [], post|now exists (y :: pre), post].
    + intros ([|z pre] & post & H); [left; now exists post|].
      injection H as -> ->. right. eauto.
Qed.

Lemma suffixes_spec s : forall t, In t (suffixes s) <-> exists pre, s = pre ++ t.
Proof.
  induction s as [|c s IH]; intros t; cbn [suffixes In].
  - split.
    + intros [<-|[]]. now exists [].
    + intros (pre & H). left. symmetry in H. apply app_eq_nil in H as [_ ->]. reflexivity.
  - rewrite IH. split.
    + intros [<-|(pre & ->)]; [now exists []|now exists (c :: pre)].
    + intros ([|z pre] & H); [left; now rewrite H|].
      injection H as -> ->. right. eauto.
Qed.

Lemma test_spec r name :
  test r name = true <-> exists pre t w, name = pre ++ t /\ In w (ways r t).
Proof.
  unfold test. rewrite existsb_exists. split.
  - intros (t & Ht & Hw). apply suffixes_spec in Ht as (pre & ->).
    destruct (ways r t) as [|w ws] eqn:E; [discriminate|].
    exists pre, t, w. split; [reflexivity|]. rewrite E. now left.
  - intros (pre & t & w & -> & Hw). exists t. split; [apply suffixes_spec; eauto|].
    destruct (ways r t); [destruct Hw|reflexivity].
Qed.

Lemma ways_Seq_intro r1 r2 s w1 w2 :
  In w1 (ways r1 s) -> In w2 (ways r2 (rest w1)) ->
  In (Way (consumed w1 ++ consumed w2) (captures w1 ++ captures w2) (rest w2))
     (ways (Seq r1 r2) s).
Proof.
  intros H1 H2. cbn [ways]. apply in_flat_map. exists w1. split; [exact H1|].
  apply in_map_iff. exists w2. auto.
Qed.

(** The one pattern with a star: some character that is no line
    terminator, followed by 'log', anywhere in the name. *)
Lemma log_pattern_spec name :
  test (globRegex (js "*.log")) name = true
  <-> exists pre c post, name = pre ++ c :: js "log" ++ post /\ isLineTerminator c = false.
Proof.
  rewrite test_spec. split.
  - intros (pre & t & w & -> & Hw).
    change (globRegex (js "*.log"))
      with (Seq (Star notLineTerminator)
              (Seq (Char notLineTerminator) (Seq (unit_ 108) (Seq (unit_ 111) (unit_ 103))))) in Hw.
    apply ways_Seq_inv in Hw as (v1 & v2 & A1 & A2 & _).
    apply ways_Star_form in A1 as (u & r1 & -> & -> & _). cbn [rest] in A2.
    apply ways_Seq_inv in A2 as (v3 & v4 & A3 & A4 & _).
    apply ways_Char_form in A3 as (c & r2 & -> & -> & Hc). cbn [rest] in A4.
    apply ways_Seq_inv in A4 as (v5 & v6 & A5 & A6 & _).
    apply ways_Char_form in A5 as (l & r3 & -> & -> & Hl). cbn [rest] in A6.
    apply ways_Seq_inv in A6 as (v7 & v8 & A7 & A8 & _).
    apply ways_Char_form in A7 as (o & r4 & -> & -> & Ho). cbn [rest] in A8.
    apply ways_Char_form in A8 as (g & r5 & -> & -> & Hg).
    apply N.eqb_eq in Hl, Ho, Hg. subst.
    exists (pre ++ u), c, r5. rewrite <- app_assoc. split; [reflexivity|].
    now apply negb_true_iff.
  - intros (pre & c & post & -> & Hc).
    exists pre, (c :: js "log" ++ post).
    eexists. split; [reflexivity|].
    change (globRegex (js "*.log"))
      with (Seq (Star notLineTerminator)
              (Seq (Char notLineTerminator) (Seq (unit_ 108) (Seq (unit_ 111) (unit_ 103))))).
    apply (ways_Seq_intro _ _ _ (Way [] [] (c :: js "log" ++ post))).
    + cbn [ways]. apply in_map_iff. exists ([], c :: js "log" ++ post).
      split; [reflexivity|apply star_last].
    + cbn [rest]. apply (ways_Seq_intro _ _ _ (Way [c] [] (js "log" ++ post))).
      * cbn [ways]. unfold notLineTerminator. rewrite Hc. now left.
      * cbn [rest]. left. reflexivity.
Qed.

(** X18. What the file structure leaves out. A name is excluded exactly
    when it contains one of the words node_modules, .git, dist, build,
    coverage, .env and plans anywhere in it, or contains 'log' after at
    least one character: the patterns are matched as substrings, and
    the dot of '*.log' as any character. So .gitignore, .github and
    build.gradle are excluded along with .git and build, and so is any
    name such as catalog or changelog.md. *)
Theorem shouldExclude_by_substring name :
  shouldExclude name = true
  <-> (exists word pre post,
         In word ["node_modules"; ".git"; "dist"; "build"; "coverage"; ".env"; "plans"]
         /\ name = pre ++ js word ++ post)
      \/ (exists pre c post, name = pre ++ c :: js "log" ++ post /\ isLineTerminator c = false).
Proof.
  assert (Hword : forall word,
    hasStar (js word) = false ->
    (matchesPattern name (js word) = true
     <-> exists pre post, name = pre ++ js word ++ post)).
  { intros word Hs. unfold matchesPattern. rewrite Hs.
    rewrite orb_true_iff, occursIn_spec, streq_eq. split.
    - intros [->|H]; [exists [], []; now rewrite app_nil_r|exact H].
    - auto. }
  assert (Hlog : matchesPattern name (js "*.log") = true
                 <-> exists pre c post,
                       name = pre ++ c :: js "log" ++ post /\ isLineTerminator c = false).
  { unfold matchesPattern. change (hasStar (js "*.log")) with true. cbv iota.
    apply log_pattern_spec. }
  unfold shouldExclude. rewrite existsb_exists. split.
  - intros (pattern & Hin & Hm). unfold excludePatterns in Hin. cbn [map In] in Hin.
    destruct Hin as [<-|[<-|[<-|[<-|[<-|[<-|[<-|[<-|[]]]]]]]]];
      try (apply Hword in Hm as (pre & post & H); [|reflexivity];
           left; eexists _, pre, post; split; [|exact H]; cbn [In]; tauto).
    right. now apply Hlog.
  - intros [(word & pre & post & Hw & H)|H].
    + exists (js word). split.
      * unfold excludePatterns. cbn [In] in Hw. cbn [map In].
        destruct Hw as [<-|[<-|[<-|[<-|[<-|[<-|[<-|[]]]]]]]]; tauto.
      * apply Hword; [|eauto].
        cbn [In] in Hw. destruct Hw as [<-|[<-|[<-|[<-|[<-|[<-|[<-|[]]]]]]]]; reflexivity.
    + exists (js "*.log"). split; [unfold excludePatterns; cbn [map In]; tauto|].
      now apply Hlog.
Qed.

(** Names the file structure leaves out, and names it keeps. *)
Example excluded_names :
  Forall (fun nm => shouldExclude (js nm) = true)
         [".git"; ".gitignore"; ".github"; "build.gradle"; "rebuild.sh"; ".env.example";
          "catalog"; "changelog.md"; "server.log"]
  /\ Forall (fun nm => shouldExclude (js nm) = false) ["log"; "logs"; "src"; "README.md"].
Proof. split; repeat constructor. Qed.

(** *** The directory tree *)

Lemma dirent_induction (P : dirent -> Prop) :
  (forall nm, P (FileEntry nm)) ->
  (forall nm, P (Unreadable nm)) ->
  (forall nm, P (DirEntry nm None)) ->
  (forall nm entries, Forall P entries -> P (DirEntry nm (Some entries))) ->
  forall d, P d.
Proof.
  intros Hf Hu Hn Hs. fix IH 1. intros [nm|nm [entries|]|nm];
    [apply Hf| |apply Hn|apply Hu].
  apply Hs. revert entries. fix IHl 1. intros [|x entries]; constructor.
  - apply IH.
  - apply IHl.
Qed.

Lemma buildDirectoryTree_listing maxLevel level nm entries :
  buildDirectoryTree maxLevel level (DirEntry nm (Some entries))
  = if (maxLevel <? level)%nat then None
    else if shouldExclude nm then None
    else Some (DirNode nm (omap (childTree maxLevel level) entries)).
Proof.
  cbn [buildDirectoryTree]. destruct (maxLevel <? level)%nat; [reflexivity|].
  destruct (shouldExclude nm); reflexivity.
Qed.

Lemma height_children nm children n :
  Forall (fun c => height c < n) children -> height (DirNode nm children) <= n.
Proof.
  cbn [height]. induction 1 as [|c cs Hc _ IH]; cbn [fold_right]; lia.
Qed.

Lemma buildDirectoryTree_bounds maxLevel d : forall level t,
  buildDirectoryTree maxLevel level d = Some t ->
  height t <= S maxLevel - level
  /\ Forall (fun nm => shouldExclude nm = false) (names t).
Proof.
  induction d as [nm|nm|nm|nm entries IH] using dirent_induction; intros level t.
  - cbn [buildDirectoryTree]. destruct (maxLevel <? level)%nat; discriminate.
  - cbn [buildDirectoryTree]. destruct (maxLevel <? level)%nat; discriminate.
  - cbn [buildDirectoryTree]. destruct (maxLevel <? level)%nat; [discriminate|].
    destruct (shouldExclude nm) eqn:E; [discriminate|]. intros [= <-].
    split; [cbn; lia|]. cbn. repeat constructor. exact E.
  - rewrite buildDirectoryTree_listing.
    destruct (maxLevel <? level)%nat eqn:El; [discriminate|]. apply Nat.ltb_ge in El.
    destruct (shouldExclude nm) eqn:E; [discriminate|]. intros [= <-].
    assert (Hch : Forall (fun c => height c < S maxLevel - level
                                   /\ Forall (fun nm => shouldExclude nm = false) (names c))
                         (omap (childTree maxLevel level) entries)).
    { apply List.Forall_forall. intros c Hc.
      apply ProjectInitSessionFacts.In_omap in Hc as (child & Hin & Hc).
      rewrite List.Forall_forall in IH. specialize (IH child Hin).
      destruct child as [cn|cn listing|cn]; cbn [childTree] in Hc.
      - destruct (shouldExclude cn) eqn:Ec; [discriminate|]. injection Hc as <-.
        split; [cbn; lia|]. cbn. repeat constructor. exact Ec.
      - pose proof Hc as Hc'. apply IH in Hc as [Hh Hn]. split; [|exact Hn].
        assert (S level <= maxLevel).
        { destruct (maxLevel <? S level)%nat eqn:E1.
          - cbn [buildDirectoryTree] in Hc'. rewrite E1 in Hc'. discriminate.
          - apply Nat.ltb_ge in E1. exact E1. }
        lia.
      - discriminate. }
    split.
    + apply height_children. eapply List.Forall_impl; [|exact Hch]. cbn. tauto.
    + cbn [names]. constructor; [exact E|].
      apply List.Forall_forall. intros x Hx. apply in_flat_map in Hx as (c & Hc & Hx).
      rewrite List.Forall_forall in Hch. destruct (Hch c Hc) as [_ Hn].
      rewrite List.Forall_forall in Hn. auto.
Qed.

(** X19. The file structure recorded for the blueprint is a tree under
    the root directory in which no way down is longer than four steps
    (directories are followed to level 3, and the entries of those are
    the last ones kept) and in which no name is one that shouldExclude
    rejects; its root carries the name of the root directory. Nothing is
    recorded (null) when the root is no directory or its own name is
    excluded. *)
Theorem file_structure_bounds root :
  (forall t,
     analyzeFileStructure root = Some (Some t) ->
     height t <= 4
     /\ Forall (fun nm => shouldExclude nm = false) (names t)
     /\ exists nm listing children, root = DirEntry nm listing /\ t = DirNode nm children)
  /\ (analyzeFileStructure root = Some None
      <-> (exists nm, root = FileEntry nm)
          \/ (exists nm listing, root = DirEntry nm listing /\ shouldExclude nm = true)).
Proof.
  split.
  - intros t H. destruct root as [nm|nm listing|nm]; cbn [analyzeFileStructure] in H;
      [|assert (H' : buildDirectoryTree 3 0 (DirEntry nm listing) = Some t) by congruence
       |discriminate].
    + cbn in H. discriminate.
    + pose proof (buildDirectoryTree_bounds 3 _ 0 t H') as [Hh Hn].
      split; [lia|]. split; [exact Hn|].
      cbn [buildDirectoryTree] in H'. cbn [Nat.ltb Nat.leb] in H'.
      destruct (shouldExclude nm); [discriminate|]. injection H' as <-. eauto.
  - destruct root as [nm|nm listing|nm]; cbn [analyzeFileStructure buildDirectoryTree].
    + split; [eauto|reflexivity].
    + cbn [Nat.ltb Nat.leb]. destruct (shouldExclude nm) eqn:E.
      * split; [eauto|reflexivity].
      * split; [discriminate|].
        intros [(x & [=])|(x & l & [= -> ->] & Hx)]. congruence.
    + split; [discriminate|]. intros [(x & [=])|(x & l & [=] & _)].
Qed.

Lemma file_structure_bounds_witness :
  exists t,
    analyzeFileStructure nestedDir = Some (Some t)
    /\ height t <= 4
    /\ names t = map js ["shop"; "a"; "b"; "c"; "kept.js"].
Proof.
  exists (DirNode (js "shop")
            [DirNode (js "a") [DirNode (js "b") [DirNode (js "c") [FileNode (js "kept.js")]]]]).
  assert (H : analyzeFileStructure nestedDir
              = Some (Some (DirNode (js "shop")
                  [DirNode (js "a") [DirNode (js "b") [DirNode (js "c") [FileNode (js "kept.js")]]]])))
    by (vm_compute; reflexivity).
  split; [exact H|]. split; [|reflexivity].
  exact (proj1 (proj1 (file_structure_bounds nestedDir) _ H)).
Defined.

(** *** requirements.txt *)

Lemma Forall_trimStart (P : N -> Prop) s : Forall P s -> Forall P (trimStart s).
Proof.
  induction 1 as [|c s Hc Hs IH]; [constructor|]. cbn [trimStart].
  destruct (isSpace c); [exact IH|now constructor].
Qed.

Lemma Forall_trim (P : N -> Prop) s : Forall P s -> Forall P (trim s).
Proof.
  intros H. unfold trim, trimEnd.
  apply List.Forall_rev, Forall_trimStart, List.Forall_rev, Forall_trimStart, H.
Qed.

Lemma beforeSpecifier_free line :
  Forall (fun c => isSpecifier c = false) (beforeSpecifier line).
Proof.
  induction line as [|c line IH]; [constructor|]. cbn [beforeSpecifier].
  destruct (isSpecifier c) eqn:E; constructor; assumption.
Qed.

Lemma trimStart_head s c t : trimStart s = c :: t -> isSpace c = false.
Proof.
  induction s as [|x s IH]; [discriminate|]. cbn [trimStart].
  destruct (isSpace x) eqn:E; [exact IH|]. intros [= <- _]. exact E.
Qed.

Lemma trimStart_keeps_last l c :
  isSpace c = false -> exists l', trimStart (l ++ [c]) = l' ++ [c].
Proof.
  intros Hc. induction l as [|x l IH]; cbn [app trimStart].
  - rewrite Hc. now exists [].
  - destruct (isSpace x); [exact IH|]. now exists (x :: l).
Qed.

Lemma trim_cons c s : isSpace c = false -> exists t, trim (c :: s) = c :: t.
Proof.
  intros Hc. unfold trim, trimEnd. cbn [trimStart]. rewrite Hc. cbn [rev].
  destruct (trimStart_keeps_last (rev s) c Hc) as (l' & ->).
  rewrite rev_app_distr. cbn. eauto.
Qed.

Lemma trim_first s c t : trim s = c :: t -> isSpace c = false.
Proof.
  unfold trim. destruct (trimStart s) as [|c0 t0] eqn:E; [discriminate|].
  pose proof (trimStart_head _ _ _ E) as Hc0.
  unfold trimEnd. cbn [rev].
  destruct (trimStart_keeps_last (rev t0) c0 Hc0) as (l' & ->).
  rewrite rev_app_distr. cbn. intros [= <- _]. exact Hc0.
Qed.

Lemma trim_last s i c : trim s = i ++ [c] -> isSpace c = false.
Proof.
  unfold trim, trimEnd. intros H.
  apply (f_equal (@rev N)) in H. rewrite rev_involutive, rev_app_distr in H. cbn in H.
  eapply trimStart_head; eauto.
Qed.

Lemma trim_nonspace s : Forall (fun c => isSpace c = false) s -> trim s = s.
Proof.
  intros H. assert (Hs : forall l, Forall (fun c => isSpace c = false) l -> trimStart l = l).
  { intros l Hl. destruct Hl as [|c l Hc Hl]; [reflexivity|]. cbn [trimStart]. now rewrite Hc. }
  unfold trim, trimEnd. rewrite (Hs s H), Hs by (now apply List.Forall_rev).
  apply rev_involutive.
Qed.

Lemma beforeSpecifier_app nm tail :
  Forall (fun c => isSpecifier c = false) nm ->
  match tail with [] => True | spec :: _ => isSpecifier spec = true end ->
  beforeSpecifier (nm ++ tail) = nm.
Proof.
  intros Hn Ht. induction Hn as [|c nm Hc _ IH]; cbn [app beforeSpecifier].
  - destruct tail as [|spec tail]; [reflexivity|]. cbn [beforeSpecifier]. now rewrite Ht.
  - rewrite Hc, IH. reflexivity.
Qed.

Lemma requirements_In text c nm tail :
  In ((c :: nm) ++ tail) (split 10 text) ->
  Forall (fun x => isSpace x = false /\ isSpecifier x = false) (c :: nm) ->
  c <> 35%N ->
  match tail with [] => True | spec :: _ => isSpecifier spec = true end ->
  In (c :: nm) (requirements text).
Proof.
  intros Hin Hname Hc Htail. unfold requirements.
  apply in_map_iff. exists ((c :: nm) ++ tail). split.
  - unfold requirementName. rewrite beforeSpecifier_app; [| |exact Htail].
    + apply trim_nonspace. eapply List.Forall_impl; [|exact Hname]. cbn. tauto.
    + eapply List.Forall_impl; [|exact Hname]. cbn. tauto.
  - apply filter_In. split; [exact Hin|].
    unfold isRequirement. inversion Hname as [|? ? [Hsp _] _]; subst.
    destruct (trim_cons c (nm ++ tail) Hsp) as (t & Ht).
    cbn [app]. rewrite Ht. cbn [JS.truthy andb].
    apply negb_true_iff, N.eqb_neq, Hc.
Qed.

(** X20. What is read from requirements.txt. A dependency is recorded for
    each line that is not blank and does not begin with '#': the text
    before the first '=', '<' or '>', trimmed. So a name recorded holds
    none of these three characters and neither begins nor ends with
    white space, and a line that is a name alone, or a name followed at
    once by a version specifier, yields that name. *)
Theorem requirement_names text :
  length (requirements text) <= length (split 10 text)
  /\ (forall nm, In nm (requirements text) ->
        Forall (fun c => isSpecifier c = false) nm
        /\ (forall c t, nm = c :: t -> isSpace c = false)
        /\ (forall i c, nm = i ++ [c] -> isSpace c = false))
  /\ (forall c nm tail,
        In ((c :: nm) ++ tail) (split 10 text) ->
        Forall (fun x => isSpace x = false /\ isSpecifier x = false) (c :: nm) ->
        c <> 35%N ->
        match tail with [] => True | spec :: _ => isSpecifier spec = true end ->
        In (c :: nm) (requirements text)).
Proof.
  unfold requirements. split; [|split].
  - rewrite length_map. apply List.filter_length_le.
  - intros nm Hin. apply in_map_iff in Hin as (line & <- & _). unfold requirementName.
    split; [apply Forall_trim, beforeSpecifier_free|].
    split; [intros c t H; eapply trim_first; eauto|intros i c H; eapply trim_last; eauto].
  - intros c nm tail. fold (requirements text). apply requirements_In.
Qed.

Lemma requirement_names_witness :
  In (js "Flask") (requirements pinnedRequirements)
  /\ requirements pinnedRequirements = [js "Flask"; js "requests"; js "# pinned"; []].
Proof.
  split; [|vm_compute; reflexivity].
  destruct (requirement_names pinnedRequirements) as (_ & _ & H).
  apply (H 70%N (js "lask") (js ">=2.0")).
  - vm_compute. tauto.
  - repeat constructor.
  - discriminate.
  - reflexivity.
Defined.

(** *** Patterns and recommendations *)

Lemma existsb_incl {A} (p : A -> bool) l l' :
  (forall x, In x l -> In x l') -> existsb p l = true -> existsb p l' = true.
Proof.
  intros Hincl H. apply existsb_exists in H as (x & Hx & Hp).
  apply existsb_exists. eauto.
Qed.

Lemma found_mono (b b' : bool) (label x : string) :
  (b = true -> b' = true) ->
  In x (if b then [label] else []) -> In x (if b' then [label] else []).
Proof. destruct b; [|intros _ []]. intros H. now rewrite H. Qed.

Lemma found_length_mono (b b' : bool) (label : string) :
  (b = true -> b' = true) ->
  length (if b then [label] else []) <= length (if b' then [label] else []).
Proof. destruct b; [|cbn; lia]. intros H. now rewrite H. Qed.

(** X21. Detection only grows with the dependencies: a project that
    declares every dependency of another, in the same directory, is
    found to follow every pattern the other follows, category by
    category, and counts at least as many. There are eleven patterns
    in all. *)
Theorem detectPatterns_monotone deps deps' (w : fs) :
  (forall d, In d (allDependencies deps) -> In d (allDependencies deps')) ->
  (forall label,
     (In label (frontend (detectPatterns deps w)) -> In label (frontend (detectPatterns deps' w)))
     /\ (In label (backend (detectPatterns deps w)) -> In label (backend (detectPatterns deps' w)))
     /\ (In label (database (detectPatterns deps w)) -> In label (database (detectPatterns deps' w)))
     /\ (In label (testing (detectPatterns deps w)) -> In label (testing (detectPatterns deps' w)))
     /\ (In label (deployment (detectPatterns deps w))
         -> In label (deployment (detectPatterns deps' w))))
  /\ getPatternCount (detectPatterns deps w) <= getPatternCount (detectPatterns deps' w)
  /\ getPatternCount (detectPatterns deps' w) <= 11.
Proof.
  intros Hincl.
  assert (Hm : forall p, existsb p (allDependencies deps) = true ->
                         existsb p (allDependencies deps') = true)
    by (intros p; now apply existsb_incl).
  split; [|split].
  - intros label. unfold detectPatterns.
    cbn [frontend backend database testing deployment].
    repeat split; rewrite !in_app_iff; intros H;
      repeat (destruct H as [H|H]); eauto 6 using found_mono.
  - unfold getPatternCount, detectPatterns.
    cbn [frontend backend database testing deployment]. rewrite !length_app.
    repeat match goal with
    | |- context [length (if existsb ?p (allDependencies deps) then [?l] else [])] =>
        let H := fresh in
        pose proof (found_length_mono (existsb p (allDependencies deps))
                      (existsb p (allDependencies deps')) l (Hm p)) as H;
        generalize dependent (length (if existsb p (allDependencies deps) then [l] else []));
        intros
    end.
    lia.
  - unfold getPatternCount, detectPatterns.
    cbn [frontend backend database testing deployment]. rewrite !length_app.
    repeat match goal with
    | |- context [if ?b then [?l] else []] =>
        let H := fresh in
        assert (H : length (if b then [l] else []) <= 1) by (destruct b; cbn; lia);
        generalize dependent (length (if b then [l] else [])); intros
    end.
    lia.
Qed.

Lemma detectPatterns_monotone_witness :
  In "Unit Testing"
     (testing (detectPatterns {| runtime := Some [js "express"; js "Jest"]; development := None |} ∅))
  /\ In "Unit Testing"
        (testing (detectPatterns {| runtime := Some [js "express"];
                                    development := Some [js "Jest"; js "graphql-tag"] |} ∅)).
Proof.
  assert (H : In "Unit Testing"
                (testing (detectPatterns {| runtime := Some [js "express"; js "Jest"];
                                            development := None |} ∅)))
    by (vm_compute; tauto).
  split; [exact H|].
  refine (proj1 (proj2 (proj2 (proj2 (proj1
    (detectPatterns_monotone
       {| runtime := Some [js "express"; js "Jest"]; development := None |}
       {| runtime := Some [js "express"]; development := Some [js "Jest"; js "graphql-tag"] |}
       ∅ _) "Unit Testing")))) H).
  intros d Hd. vm_compute in Hd. vm_compute. tauto.
Defined.



End BlueprintAnalysisFacts.

(** ** The setup wizard *)

Module SetupWizardFacts.
Import Node SetupWizard ErrorRecoveryFacts.

(** *** The project type *)

Lemma detected_head (w : fs) :
  hd_error (detected w)
  = if existsSync w "package.json" then Some "Node.js"
    else if existsSync w "requirements.txt" || existsSync w "pyproject.toml" then Some "Python"
    else if existsSync w "pom.xml" || existsSync w "build.gradle" then Some "Java"
    else if existsSync w "Gemfile" then Some "Ruby"
    else if existsSync w "composer.json" then Some "PHP"
    else if existsSync w "go.mod" then Some "Go"
    else if existsSync w "Cargo.toml" then Some "Rust"
    else None.
Proof.
  unfold detected, detectors. cbn [List.filter snd].
  destruct (existsSync w "package.json"); [reflexivity|].
  destruct (existsSync w "requirements.txt" || existsSync w "pyproject.toml"); [reflexivity|].
  destruct (existsSync w "pom.xml" || existsSync w "build.gradle"); [reflexivity|].
  destruct (existsSync w "Gemfile"); [reflexivity|].
  destruct (existsSync w "composer.json"); [reflexivity|].
  destruct (existsSync w "go.mod"); [reflexivity|].
  destruct (existsSync w "Cargo.toml"); reflexivity.
Qed.

(** X23. The setup wizard and the blueprint generator name the type of
    the same project. Where the blueprint generator finds a Node.js, a
    Python or a Maven project the wizard detects Node.js, Python or
    Java; where it finds a PHP project the wizard detects PHP unless a
    pyproject.toml, a build.gradle or a Gemfile comes first. The wizard
    knows more manifests: a project it cannot place is Unknown to the
    blueprint generator too, but a project with a pyproject.toml, a
    build.gradle, a Gemfile, a go.mod or a Cargo.toml alone is placed by
    the wizard and Unknown to the blueprint generator. *)
Theorem project_type_detection_agrees host rootName (w : fs) info :
  Blueprint.analyzeProjectInfo host rootName w = Some info ->
  (Blueprint.type info = "Node.js/JavaScript" -> hd_error (detected w) = Some "Node.js")
  /\ (Blueprint.type info = "Python" -> hd_error (detected w) = Some "Python")
  /\ (Blueprint.type info = "Java/Maven" ->
      existsSync w "pyproject.toml" = false -> hd_error (detected w) = Some "Java")
  /\ (Blueprint.type info = "PHP" ->
      existsSync w "pyproject.toml" = false -> existsSync w "build.gradle" = false ->
      existsSync w "Gemfile" = false ->
      hd_error (detected w) = Some "PHP")
  /\ (detected w = [] -> Blueprint.type info = "Unknown")
  /\ (Blueprint.type info = "Unknown" ->
      existsSync w "package.json" = false /\ existsSync w "requirements.txt" = false
      /\ existsSync w "pom.xml" = false /\ existsSync w "composer.json" = false).
Proof.
  intros H.
  assert (Hnil : detected w = [] -> hd_error (detected w) = None) by (intros ->; reflexivity).
  rewrite detected_head in *.
  unfold Blueprint.analyzeProjectInfo in H.
  destruct (existsSync w "package.json") eqn:E1.
  { destruct (readFileSync w "package.json"); [|discriminate].
    destruct (JSON_parse host _) as [pkg|]; [|discriminate].
    destruct (get _ "name") as [n|]; [|discriminate].
    destruct (get _ "version") as [v|]; [|discriminate].
    destruct (get _ "description") as [d|]; [|discriminate].
    injection H as <-. cbn [Blueprint.type].
    repeat split; try discriminate; intros Hd; specialize (Hnil Hd); discriminate. }
  destruct (existsSync w "requirements.txt") eqn:E2.
  { injection H as <-. cbn [Blueprint.type orb].
    repeat split; try discriminate; intros Hd; specialize (Hnil Hd); discriminate. }
  destruct (existsSync w "pom.xml") eqn:E3.
  { injection H as <-. cbn [Blueprint.type orb].
    repeat split; try discriminate.
    - intros _ ->. reflexivity.
    - intros Hd. specialize (Hnil Hd).
      destruct (existsSync w "pyproject.toml"); discriminate. }
  destruct (existsSync w "composer.json") eqn:E4.
  { destruct (readFileSync w "composer.json"); [|discriminate].
    destruct (JSON_parse host _) as [composer|]; [|discriminate].
    destruct (get _ "name") as [n|]; [|discriminate].
    destruct (get _ "version") as [v|]; [|discriminate].
    injection H as <-. cbn [Blueprint.type orb].
    repeat split; try discriminate.
    - intros _ -> -> ->. reflexivity.
    - intros Hd. specialize (Hnil Hd).
      destruct (existsSync w "pyproject.toml"), (existsSync w "build.gradle"),
        (existsSync w "Gemfile"); discriminate. }
  injection H as <-. cbn [Blueprint.type orb].
  repeat split; try discriminate; reflexivity.
Qed.

Lemma project_type_detection_agrees_witness :
  hd_error (detected Blueprint.pyprojectDir) = Some "Python"
  /\ Blueprint.type (Blueprint.unknownInfo "shop") = "Unknown"
  /\ existsSync Blueprint.pyprojectDir "requirements.txt" = false.
Proof.
  destruct (project_type_detection_agrees (constHost None) "shop" Blueprint.pyprojectDir
              (Blueprint.unknownInfo "shop") eq_refl) as (_ & _ & _ & _ & _ & H).
  split; [reflexivity|]. split; [reflexivity|]. apply H. reflexivity.
Defined.

(** *** Directories *)

Lemma ensureDir_lookup (w : fs) dir p :
  ensureDir w dir !! p = match w !! p with
                         | Some e => Some e
                         | None => if decide (p = dir) then Some Dir else None
                         end.
Proof.
  unfold ensureDir, existsSync.
  destruct (decide (p = dir)) as [->|Hne].
  - destruct (w !! dir) as [e|] eqn:E.
    + rewrite bool_decide_eq_true_2 by eauto. now rewrite E.
    + rewrite bool_decide_eq_false_2 by (intros [? ?]; congruence).
      now rewrite lookup_insert_eq.
  - destruct (bool_decide _).
    + destruct (w !! p); reflexivity.
    + rewrite lookup_insert_ne by congruence. destruct (w !! p); reflexivity.
Qed.

Lemma ensureDirs_lookup dirs : forall (w : fs) p,
  fold_left ensureDir dirs w !! p
  = match w !! p with
    | Some e => Some e
    | None => if bool_decide (p ∈ dirs) then Some Dir else None
    end.
Proof.
  induction dirs as [|d dirs IH]; intros w p; cbn [fold_left].
  - rewrite bool_decide_eq_false_2 by (apply not_elem_of_nil). destruct (w !! p); reflexivity.
  - rewrite IH, ensureDir_lookup. destruct (w !! p) as [e|]; [reflexivity|].
    destruct (decide (p = d)) as [->|Hne].
    + rewrite bool_decide_eq_true_2 by (apply elem_of_cons; now left). reflexivity.
    + destruct (bool_decide (p ∈ dirs)) eqn:E.
      * apply bool_decide_eq_true in E.
        rewrite bool_decide_eq_true_2 by (apply elem_of_cons; now right). reflexivity.
      * apply bool_decide_eq_false in E.
        rewrite bool_decide_eq_false_2; [reflexivity|].
        intros H. apply elem_of_cons in H as [?|?]; congruence.
Qed.

Lemma askFor_dirs present dir dirs input dirs' input' :
  askFor present dir dirs input = Some (dirs', input') ->
  (dirs' = dirs \/ dirs' = dirs ++ [dir]) /\ length input' <= length input.
Proof.
  unfold askFor. destruct present; [intros [= <- <-]; auto|].
  destruct input as [|answer input]; [discriminate|].
  destruct (saysYes answer); intros [= <- <-]; cbn; auto.
Qed.

Lemma setupDirectories_dirs projectType (w : fs) input :
  match (if String.eqb projectType "Node.js" then
           match askFor (existsSync w "src") "src" ["plans"] input with
           | Some (dirs, input1) =>
               askFor (existsSync w "tests" || existsSync w "__tests__") "tests" dirs input1
           | None => None
           end
         else Some (["plans"], input)) with
  | Some (dirs, _) =>
      In "plans" dirs
      /\ (forall p, In p dirs ->
            p = "plans" \/ (projectType = "Node.js" /\ (p = "src" \/ p = "tests")))
  | None => projectType = "Node.js" /\ length input < 2
  end.
Proof.
  destruct (String.eqb projectType "Node.js") eqn:E.
  - apply String.eqb_eq in E.
    destruct (askFor (existsSync w "src") "src" ["plans"] input) as [[dirs input1]|] eqn:E1.
    + pose proof (askFor_dirs _ _ _ _ _ _ E1) as [Hd1 Hl1].
      destruct (askFor _ "tests" dirs input1) as [[dirs' input2]|] eqn:E2.
      * pose proof (askFor_dirs _ _ _ _ _ _ E2) as [Hd2 _].
        destruct Hd1 as [->| ->], Hd2 as [->| ->]; cbn [app In];
          (split; [tauto|intros p Hp; intuition (subst; auto)]).
      * split; [exact E|]. unfold askFor in E1, E2.
        destruct (existsSync w "tests" || existsSync w "__tests__"); [discriminate|].
        destruct input1; [|destruct (saysYes _); discriminate].
        destruct (existsSync w "src"); [injection E1 as _ ->; cbn; lia|].
        destruct input as [|a [|b input]]; cbn; try lia.
        destruct (saysYes a); discriminate.
    + split; [exact E|]. unfold askFor in E1.
      destruct (existsSync w "src"); [discriminate|].
      destruct input; [cbn; lia|destruct (saysYes _); discriminate].
  - split; [now left|]. intros p [<-|[]]. now left.
Qed.

(** X24. The directories the wizard sets up. When the step ends normally,
    plans/ and plans/.gitkeep exist, so that the error recovery tool has
    no plans directory to miss; nothing that existed before is changed;
    and nothing is created but plans, plans/.gitkeep and, for a Node.js
    project, src and tests. The step throws only when plans is a file,
    and waits for the operator only in a Node.js project. *)
Theorem setupDirectories_outcome projectType (w : fs) input :
  match setupDirectories projectType w input with
  | Done w' input' =>
      existsSync w' "plans" = true
      /\ existsSync w' "plans/.gitkeep" = true
      /\ ErrorRecovery.checkPlansDirectory w' [] = (Some tt, [])
      /\ (forall p e, w !! p = Some e -> w' !! p = Some e)
      /\ (forall p, w !! p = None -> w' !! p <> None ->
            p = "plans" \/ p = "plans/.gitkeep"
            \/ (projectType = "Node.js" /\ (p = "src" \/ p = "tests")))
  | Thrown w' input' => exists text, w !! "plans" = Some (File text)
  | Waiting => projectType = "Node.js" /\ length input < 2
  end.
Proof.
  unfold setupDirectories. pose proof (setupDirectories_dirs projectType w input) as Hd.
  destruct (if String.eqb projectType "Node.js" then _ else _) as [[dirs input']|];
    [|exact Hd].
  destruct Hd as [Hplans Hdirs].
  set (w1 := fold_left ensureDir dirs w).
  assert (Hkeep : forall p e, w !! p = Some e -> w1 !! p = Some e).
  { intros p e Hp. unfold w1. now rewrite ensureDirs_lookup, Hp. }
  assert (Hnew : forall p, w !! p = None -> w1 !! p <> None ->
                   p = "plans" \/ (projectType = "Node.js" /\ (p = "src" \/ p = "tests"))).
  { intros p Hp. unfold w1. rewrite ensureDirs_lookup, Hp.
    destruct (bool_decide (p ∈ dirs)) eqn:E; [|congruence].
    apply bool_decide_eq_true, list_elem_of_In in E. auto. }
  assert (Hp1 : existsSync w1 "plans" = true).
  { apply existsSync_true. unfold w1. rewrite ensureDirs_lookup.
    destruct (w !! "plans"); [eauto|].
    rewrite bool_decide_eq_true_2 by (now apply list_elem_of_In). eauto. }
  assert (Hcheck : forall w2 : fs, existsSync w2 "plans" = true ->
                     ErrorRecovery.checkPlansDirectory w2 [] = (Some tt, [])).
  { intros w2 H2. unfold ErrorRecovery.checkPlansDirectory. now rewrite H2. }
  destruct (existsSync w1 "plans/.gitkeep") eqn:Ek.
  - repeat split; auto. intros p Hp Hp'. destruct (Hnew p Hp Hp'); auto.
  - destruct (w1 !! "plans") as [[|text]|] eqn:Epl.
    + unfold writeFileSync.
      assert (Hk : w1 !! "plans/.gitkeep" = None).
      { destruct (w1 !! "plans/.gitkeep") eqn:E; [|reflexivity].
        assert (existsSync w1 "plans/.gitkeep" = true) by (apply existsSync_true; eauto).
        congruence. }
      rewrite Hk.
      split; [now apply existsSync_insert_mono|]. split; [apply existsSync_insert|].
      split; [apply Hcheck; now apply existsSync_insert_mono|]. split.
      * intros p e Hp. destruct (decide (p = "plans/.gitkeep")) as [->|Hne].
        -- apply Hkeep in Hp. congruence.
        -- rewrite lookup_insert_ne by congruence. now apply Hkeep.
      * intros p Hp Hp'. destruct (decide (p = "plans/.gitkeep")) as [->|Hne]; [auto|].
        rewrite lookup_insert_ne in Hp' by congruence. destruct (Hnew p Hp Hp'); auto.
    + exists text. destruct (w !! "plans") as [e|] eqn:E.
      * apply Hkeep in E. congruence.
      * unfold w1 in Epl. rewrite ensureDirs_lookup, E in Epl.
        destruct (bool_decide _); discriminate.
    + apply existsSync_true in Hp1 as [e He]. congruence.
Qed.

(** *** Testing *)

Lemma js_app a b : JS.js (a +:+ b) = JS.js a ++ JS.js b.
Proof.
  unfold JS.js. rewrite <- map_app. f_equal.
  induction a as [|c a IH]; [reflexivity|].
  change (String c a +:+ b) with (String c (a +:+ b)).
  cbn [list_ascii_of_string app]. f_equal. exact IH.
Qed.

Lemma split_first sep line : forall post,
  Forall (fun c => c <> sep) line ->
  exists others, JS.split sep (line ++ sep :: post) = line :: others.
Proof.
  induction line as [|c line IH]; intros post Hl; cbn [app JS.split].
  - rewrite N.eqb_refl. eauto.
  - inversion Hl as [|? ? Hc Hl']; subst.
    replace (c =? sep)%N with false by (symmetry; now apply N.eqb_neq).
    destruct (IH post Hl') as (others & ->). eauto.
Qed.

Lemma split_later sep line post : forall pre,
  Forall (fun c => c <> sep) line ->
  exists first others,
    JS.split sep (pre ++ sep :: line ++ sep :: post) = first :: others /\ In line others.
Proof.
  intros pre Hl. induction pre as [|c pre IH]; cbn [app JS.split].
  - rewrite N.eqb_refl. destruct (split_first sep line post Hl) as (others & ->).
    eexists _, _. split; [reflexivity|now left].
  - destruct IH as (first & others & -> & Hin).
    destruct (c =? sep)%N; eexists _, _; (split; [reflexivity|]); [now right|exact Hin].
Qed.

Lemma pytest_required requirements :
  In (JS.js "pytest") (BlueprintAnalysis.requirements (JS.js (requirements +:+ pytestLines))).
Proof.
  apply (BlueprintAnalysisFacts.requirements_In _ 112%N (JS.js "ytest") []).
  - rewrite js_app.
    change (JS.js pytestLines)
      with (10%N :: JS.js "pytest" ++ 10%N :: JS.js "pytest-cov" ++ [10%N]).
    destruct (split_later 10 (JS.js "pytest") (JS.js "pytest-cov" ++ [10%N]) (JS.js requirements))
      as (first & others & -> & Hin); [repeat constructor; discriminate|].
    rewrite app_nil_r. now right.
  - repeat constructor.
  - discriminate.
  - exact I.
Qed.

(** X25. The wizard's pytest setup, seen from the other tools. In a
    project without a package.json whose requirements do not mention
    pytest, accepting the wizard's offer appends pytest and pytest-cov
    to requirements.txt, creating the file if need be. The blueprint
    generator then reads pytest among the dependencies and detects
    unit testing. The error recovery tool looks for pytest.ini and
    pom.xml instead: it reports no_test_setup after the step exactly
    when it did before. *)
Theorem pytest_setup_across_tools host (w : fs) answer input requirements :
  existsSync w "package.json" = false ->
  (if existsSync w "requirements.txt" then readFileSync w "requirements.txt" else Some "")
  = Some requirements ->
  includes requirements "pytest" = false ->
  saysYes answer = true ->
  exists w',
    setupTestFramework host "Python" w (answer :: input) = Done w' input
    /\ readFileSync w' "requirements.txt" = Some (requirements +:+ pytestLines)
    /\ (exists deps,
          BlueprintAnalysis.analyzeDependencies host w' = Some deps
          /\ In "Unit Testing"
                (BlueprintAnalysis.testing (BlueprintAnalysis.detectPatterns deps w')))
    /\ (In ErrorRecovery.noTestSetup (snd (ErrorRecovery.checkTestSetup host w' []))
        <-> In ErrorRecovery.noTestSetup (snd (ErrorRecovery.checkTestSetup host w []))).
Proof.
  intros Hpkg Hreq Hinc Hyes.
  exists (<["requirements.txt" := File (requirements +:+ pytestLines)]> w).
  set (w' := <["requirements.txt" := File (requirements +:+ pytestLines)]> w).
  assert (Hsame : forall p, p <> "requirements.txt" -> existsSync w' p = existsSync w p).
  { intros p Hp. unfold existsSync, w'. now rewrite lookup_insert_ne by congruence. }
  assert (Hread : readFileSync w' "requirements.txt" = Some (requirements +:+ pytestLines)).
  { unfold readFileSync, w'. now rewrite lookup_insert_eq. }
  split; [|split; [exact Hread|split]].
  - unfold setupTestFramework. cbn [String.eqb Ascii.eqb Bool.eqb]. rewrite Hreq, Hinc, Hyes.
    reflexivity.
  - unfold BlueprintAnalysis.analyzeDependencies.
    rewrite Hsame, Hpkg by discriminate.
    replace (existsSync w' "requirements.txt") with true
      by (symmetry; apply existsSync_insert).
    rewrite Hread. cbn [mbind option_bind]. eexists. split; [reflexivity|].
    unfold BlueprintAnalysis.detectPatterns. cbn [BlueprintAnalysis.testing].
    apply in_app_iff. left.
    replace (existsb _ _) with true; [now left|]. symmetry.
    apply existsb_exists. exists (JS.js "pytest").
    split; [|reflexivity].
    unfold BlueprintAnalysis.allDependencies.
    cbn [BlueprintAnalysis.runtime BlueprintAnalysis.development].
    rewrite app_nil_r. apply pytest_required.
  - rewrite !ErrorRecoveryRunFacts.checkTestSetup_noTestSetup.
    rewrite !Hsame by discriminate. reflexivity.
Qed.

Lemma pytest_setup_across_tools_witness :
  exists w',
    setupTestFramework (constHost None) "Python" Blueprint.pyprojectDir ["y"] = Done w' []
    /\ readFileSync w' "requirements.txt" = Some pytestLines
    /\ In ErrorRecovery.noTestSetup
          (snd (ErrorRecovery.checkTestSetup (constHost None) w' [])).
Proof.
  destruct (pytest_setup_across_tools (constHost None) Blueprint.pyprojectDir "y" [] ""
              eq_refl eq_refl eq_refl eq_refl) as (w' & Hstep & Hread & _ & Hrec).
  exists w'. split; [exact Hstep|]. split; [exact Hread|].
  apply Hrec. vm_compute. tauto.
Defined.

(** X26. The manifest the wizard writes after installing Jest. The
    manifest is parsed before the installation and written back after
    it with the test script set to jest. So package.json ends as the
    wizard read it, with that script: its dependencies are those of
    before the installation, among which there is no test framework,
    and whatever the installation wrote to package.json is
    overwritten. *)
Theorem jest_setup_writes_stale_manifest host (w w1 : fs) answer input text pkg pkg' :
  readFileSync w "package.json" = Some text ->
  JSON_parse host text = Some pkg ->
  hasTestFramework pkg = Some false ->
  saysYes answer = true ->
  execSync host "npm install --save-dev jest" w = Some w1 ->
  ErrorRecovery.setTestScript true "jest" pkg = Some pkg' ->
  w1 !! "package.json" <> Some Dir ->
  exists w',
    setupTestFramework host "Node.js" w (answer :: input) = Done w' input
    /\ readFileSync w' "package.json"
       = Some (JSON_stringify host pkg' +:+ ErrorRecovery.newline)
    /\ get (Some pkg') "dependencies" = get (Some pkg) "dependencies"
    /\ get (Some pkg') "devDependencies" = get (Some pkg) "devDependencies"
    /\ hasTestFramework pkg' = Some false
    /\ (forall p, p <> "package.json" -> w' !! p = w1 !! p).
Proof.
  intros Hread Hparse Hhas Hyes Hnpm Hset Hdir.
  pose proof (ErrorRecoveryRunFacts.setTestScript_other_fields _ _ _ _ Hset) as Hother.
  exists (<["package.json" := File (JSON_stringify host pkg' +:+ ErrorRecovery.newline)]> w1).
  split; [|split; [|split; [|split; [|split]]]].
  - unfold setupTestFramework. cbn [String.eqb Ascii.eqb Bool.eqb].
    replace (existsSync w "package.json") with true.
    2:{ symmetry. apply existsSync_true. unfold readFileSync in Hread.
        destruct (w !! "package.json"); [eauto|discriminate]. }
    cbn [negb]. rewrite Hread, Hparse, Hhas, Hyes.
    unfold installJest. rewrite Hnpm, Hset. unfold writeFileSync.
    destruct (w1 !! "package.json") as [[|t]|]; [congruence|reflexivity|reflexivity].
  - unfold readFileSync. now rewrite lookup_insert_eq.
  - apply Hother. discriminate.
  - apply Hother. discriminate.
  - unfold hasTestFramework in *. rewrite !Hother by discriminate. exact Hhas.
  - intros p Hp. now rewrite lookup_insert_ne by congruence.
Qed.

Lemma jest_setup_writes_stale_manifest_witness :
  exists w',
    setupTestFramework npmHost "Node.js" nodeDir ["y"] = Done w' []
    /\ readFileSync w' "package.json" = Some ("{ ... }" +:+ ErrorRecovery.newline)
    /\ existsSync w' "node_modules" = true.
Proof.
  destruct (jest_setup_writes_stale_manifest npmHost nodeDir
              (<["package.json" := File "{ as npm wrote it }"]> (<["node_modules" := Dir]> nodeDir))
              "y" [] "{ as it was }"
              (JObj [("name", JStr "shop"); ("devDependencies", JObj [])])
              (JObj [("name", JStr "shop"); ("devDependencies", JObj []);
                     ("scripts", JObj [("test", JStr "jest")])])
              eq_refl eq_refl eq_refl eq_refl eq_refl eq_refl)
    as (w' & Hstep & Hread & _ & _ & _ & Hrest).
  - rewrite lookup_insert_eq. discriminate.
  - exists w'. split; [exact Hstep|]. split; [exact Hread|].
    apply existsSync_true. rewrite (Hrest "node_modules") by discriminate.
    rewrite lookup_insert_ne by discriminate. rewrite lookup_insert_eq. eauto.
Defined.

End SetupWizardFacts.

(** ** Runs of the setup wizard *)

Module SetupWizardRunFacts.
Import Node SetupWizard ErrorRecoveryFacts SetupWizardFacts.

Lemma ends_andThen (D1 T1 D2 T2 : fs -> list string -> Prop) o k :
  ends D1 T1 o ->
  (forall w input, T1 w input -> T2 w input) ->
  (forall w input, D1 w input -> ends D2 T2 (k w input)) ->
  ends D2 T2 (andThen o k).
Proof. destruct o as [w input|w input|]; cbn; auto. Qed.

Lemma ends_ask (D T : fs -> list string -> Prop) k w input :
  (forall answer input', input = answer :: input' -> ends D T (k answer w input')) ->
  ends D T (ask k w input).
Proof. destruct input as [|answer input']; cbn; [auto|]. intros H. now apply H. Qed.

Lemma ends_impl (D1 T1 D2 T2 : fs -> list string -> Prop) o :
  ends D1 T1 o ->
  (forall w input, D1 w input -> D2 w input) ->
  (forall w input, T1 w input -> T2 w input) ->
  ends D2 T2 o.
Proof. destruct o; cbn; auto. Qed.

Section Declined.
Variable host : Host.
Variable versionCheck : string -> bool.
Variable readmeText : string -> string -> string -> string.
Variable blueprintText : fs -> option string.
Variable rootDir rootName : string.

(** The file system is [w] still, and the operator goes on declining. *)
Definition untouched (w : fs) : fs -> list string -> Prop :=
  fun w' input' => w' = w /\ declines input'.

(** The step does not throw. *)
Definition never : fs -> list string -> Prop := fun _ _ => False.

Lemma declines_cons answer input :
  declines (answer :: input) -> saysYes answer = false /\ declines input.
Proof. intros H. inversion H; subst. auto. Qed.

Lemma checkPrerequisites_declined w input :
  declines input -> ends (untouched w) (untouched w) (checkPrerequisites versionCheck w input).
Proof.
  intros Hd. unfold checkPrerequisites.
  destruct (_ && _ && _); [split; auto|].
  apply ends_ask. intros answer input' ->. apply declines_cons in Hd as [-> Hd].
  split; auto.
Qed.

Lemma setupAgents_declined w input :
  declines input -> ends (untouched w) never (setupAgents w input).
Proof.
  intros Hd. unfold setupAgents. destruct (_ =? 5)%nat; [split; auto|].
  apply ends_ask. intros choice input' ->. apply declines_cons in Hd as [_ Hd].
  destruct (String.eqb choice "1"); [|split; auto].
  apply ends_ask. intros enter input'' ->. apply declines_cons in Hd as [_ Hd]. split; auto.
Qed.

Lemma setupTestFramework_declined projectType w input :
  declines input -> ends (untouched w) (untouched w) (setupTestFramework host projectType w input).
Proof.
  intros Hd. unfold setupTestFramework.
  destruct (String.eqb projectType "Node.js").
  - destruct (negb _); [split; auto|].
    destruct (readFileSync w "package.json"); [|split; auto].
    destruct (JSON_parse host _) as [pkg|]; [|split; auto].
    destruct (hasTestFramework pkg) as [[|]|]; try (split; auto; fail).
    destruct input as [|answer input']; [exact I|].
    apply declines_cons in Hd as [-> Hd]. split; auto.
  - destruct (String.eqb projectType "Python"); [|split; auto].
    destruct (if existsSync w "requirements.txt" then _ else _); [|split; auto].
    destruct (negb _); [|split; auto].
    destruct input as [|answer input']; [exact I|].
    apply declines_cons in Hd as [-> Hd]. split; auto.
Qed.

Lemma setupGit_declined projectType w input :
  declines input -> ends (untouched w) never (setupGit host projectType w input).
Proof.
  intros Hd. unfold setupGit.
  apply (ends_andThen (untouched w) never); [|auto|].
  - destruct (negb _); [|split; auto].
    apply ends_ask. intros answer input' ->. apply declines_cons in Hd as [-> Hd]. split; auto.
  - intros w' input' [-> Hd']. destruct (negb _); [|split; auto].
    apply ends_ask. intros answer input'' ->. apply declines_cons in Hd' as [-> Hd']. split; auto.
Qed.

Lemma generateDocs_declined projectType name description w input :
  declines input ->
  ends (untouched w) never
       (generateDocs readmeText blueprintText projectType name description w input).
Proof.
  intros Hd. unfold generateDocs.
  apply (ends_andThen (untouched w) never); [|auto|].
  - destruct (negb _); [|split; auto].
    apply ends_ask. intros answer input' ->. apply declines_cons in Hd as [-> Hd]. split; auto.
  - intros w' input' [-> Hd'].
    apply ends_ask. intros answer input'' ->. apply declines_cons in Hd' as [-> Hd']. split; auto.
Qed.

Lemma askFor_declined present dir dirs input :
  declines input ->
  match askFor present dir dirs input with
  | Some (dirs', input') => dirs' = dirs /\ declines input'
  | None => True
  end.
Proof.
  intros Hd. unfold askFor. destruct present; [auto|].
  destruct input as [|answer input']; [exact I|].
  apply declines_cons in Hd as [-> Hd]. auto.
Qed.

Lemma ensureDir_present (w : fs) dir e : w !! dir = Some e -> ensureDir w dir = w.
Proof.
  intros H. unfold ensureDir. now rewrite (proj2 (existsSync_true w dir)) by eauto.
Qed.

Lemma setupDirectories_declined projectType w input :
  declines input ->
  ends (fun w' input' => addsOnlyPlans w w' /\ existsSync w' "plans" = true /\ declines input')
       (fun w' _ => w' = w)
       (setupDirectories projectType w input).
Proof.
  intros Hd. unfold setupDirectories.
  assert (Hdirs : match (if String.eqb projectType "Node.js" then
                           match askFor (existsSync w "src") "src" ["plans"] input with
                           | Some (dirs, input1) =>
                               askFor (existsSync w "tests" || existsSync w "__tests__")
                                      "tests" dirs input1
                           | None => None
                           end
                         else Some (["plans"], input)) with
                  | Some (dirs, input') => dirs = ["plans"] /\ declines input'
                  | None => True
                  end).
  { destruct (String.eqb projectType "Node.js"); [|auto].
    pose proof (askFor_declined (existsSync w "src") "src" ["plans"] input Hd) as H1.
    destruct (askFor _ "src" _ _) as [[dirs input1]|]; [|exact I]. destruct H1 as [-> H1].
    apply (askFor_declined _ "tests" ["plans"] input1 H1). }
  destruct (if String.eqb projectType "Node.js" then _ else _) as [[dirs input']|]; [|exact I].
  destruct Hdirs as [-> Hd']. cbn [fold_left].
  set (w1 := ensureDir w "plans").
  assert (Hkeep : forall p e, w !! p = Some e -> w1 !! p = Some e).
  { intros p e Hp. unfold w1. now rewrite ensureDir_lookup, Hp. }
  assert (Hnew : forall p, w !! p = None -> w1 !! p <> None -> p = "plans").
  { intros p Hp. unfold w1. rewrite ensureDir_lookup, Hp.
    destruct (decide (p = "plans")); [auto|congruence]. }
  assert (Hp1 : existsSync w1 "plans" = true).
  { apply existsSync_true. unfold w1. rewrite ensureDir_lookup.
    destruct (w !! "plans"); [eauto|]. rewrite decide_True by reflexivity. eauto. }
  assert (H1 : addsOnlyPlans w w1) by (split; [exact Hkeep|intros p Hp Hp'; left; auto]).
  destruct (existsSync w1 "plans/.gitkeep") eqn:Ek; [cbn; auto|].
  destruct (w1 !! "plans") as [[|text]|] eqn:Epl.
  - unfold writeFileSync.
    assert (Hk : w1 !! "plans/.gitkeep" = None).
    { destruct (w1 !! "plans/.gitkeep") eqn:E; [|reflexivity].
      assert (existsSync w1 "plans/.gitkeep" = true) by (apply existsSync_true; eauto).
      congruence. }
    rewrite Hk. cbn [ends]. split; [|split; [now apply existsSync_insert_mono|exact Hd']].
    split.
    + intros p e Hp. destruct (decide (p = "plans/.gitkeep")) as [->|Hne].
      * apply Hkeep in Hp. congruence.
      * rewrite lookup_insert_ne by congruence. now apply Hkeep.
    + intros p Hp Hp'. destruct (decide (p = "plans/.gitkeep")) as [->|Hne]; [auto|].
      rewrite lookup_insert_ne in Hp' by congruence. left. auto.
  - cbn [ends]. unfold w1 in Epl |- *. rewrite ensureDir_lookup in Epl.
    destruct (w !! "plans") as [e|] eqn:E; [now apply (ensureDir_present w "plans" e)|].
    rewrite decide_True in Epl by reflexivity. discriminate.
  - apply existsSync_true in Hp1. rewrite Epl in Hp1. now destruct Hp1.
Qed.

Lemma detectProjectType_declined w input :
  declines input ->
  match detectProjectType w input with
  | Some (_, input') => declines input'
  | None => True
  end.
Proof.
  intros Hd. unfold detectProjectType. destruct (detected w); [|exact Hd].
  destruct input as [|answer input']; [exact I|]. now apply declines_cons in Hd as [_ Hd].
Qed.

Lemma run_declined w input :
  declines input ->
  ends (fun w' _ => addsOnlyPlans w w' /\ existsSync w' "plans" = true)
       (fun w' _ => addsOnlyPlans w w')
       (run host versionCheck readmeText blueprintText rootName w input).
Proof.
  intros Hd. unfold run.
  pose proof (detectProjectType_declined w input Hd) as H0.
  destruct (detectProjectType w input) as [[projectType input1]|]; [|exact I].
  assert (Hsame : addsOnlyPlans w w) by (split; [auto|congruence]).
  apply (ends_andThen (untouched w) (untouched w));
    [now apply checkPrerequisites_declined|now intros w' i [-> _]|].
  intros w' i [-> Hd1].
  apply ends_ask. intros name i2 ->. apply declines_cons in Hd1 as [_ Hd2].
  apply ends_ask. intros description i3 ->. apply declines_cons in Hd2 as [_ Hd3].
  apply (ends_andThen (untouched w) never);
    [now apply setupAgents_declined|now intros w' i []|].
  intros w' i [-> Hd4].
  eapply ends_andThen; [now apply setupDirectories_declined|now intros w' i' ->|].
  intros w5 i5 (H5 & Hp5 & Hd5). cbv beta.
  apply (ends_andThen (untouched w5) (untouched w5));
    [now apply setupTestFramework_declined|now intros w' i' [-> _]|].
  intros w' i6 [-> Hd6].
  apply (ends_andThen (untouched w5) never);
    [now apply setupGit_declined|now intros w' i' []|].
  intros w' i7 [-> Hd7].
  eapply ends_impl; [now apply generateDocs_declined| |].
  - intros w' i' [-> _]. auto.
  - now intros w' i' [].
Qed.

Lemma finalCheck_finds_plans w input issues :
  existsSync w "plans" = true ->
  runFinalChecks host rootDir rootName w input = Some issues ->
  Forall (fun issue => ErrorRecovery.id issue <> "no_plans_directory") issues.
Proof.
  intros Hp. unfold runFinalChecks, ErrorRecovery.run.
  pose proof (emits_issues (fun issue => ErrorRecovery.id issue <> "no_plans_directory")
                (ErrorRecovery.scanForIssues host (finalCheckOptions rootDir rootName) w)) as He.
  destruct (ErrorRecovery.scanForIssues host (finalCheckOptions rootDir rootName) w [])
    as [[u|] found]; [|discriminate].
  cbn [snd] in He.
  assert (Hfound : Forall (fun issue => ErrorRecovery.id issue <> "no_plans_directory") found).
  { apply He. apply emits_scanForIssues; try (cbn; discriminate).
    intros _ E. congruence. }
  destruct found; cbn [ErrorRecovery.scanOnly finalCheckOptions].
  - intros [= <-]. constructor.
  - intros [= <-]. exact Hfound.
Qed.

(** X28. setup-wizard.js, [run]: when the operator answers no question
    with y or Y, the wizard changes nothing that exists and creates
    nothing but plans and plans/.gitkeep, whether it completes or fails
    ("Setup failed"); and when it completes, plans/ exists, so that the
    final check, if it reports at all, never reports
    no_plans_directory. *)
Theorem declined_wizard_adds_only_plans w input :
  declines input ->
  match run host versionCheck readmeText blueprintText rootName w input with
  | Done w' input' =>
      addsOnlyPlans w w'
      /\ existsSync w' "plans" = true
      /\ forall issues,
           runFinalChecks host rootDir rootName w' input' = Some issues ->
           Forall (fun issue => ErrorRecovery.id issue <> "no_plans_directory") issues
  | Thrown w' _ => addsOnlyPlans w w'
  | Waiting => True
  end.
Proof.
  intros Hd. pose proof (run_declined w input Hd) as H.
  destruct (run host versionCheck readmeText blueprintText rootName w input)
    as [w' input'|w' input'|]; cbn [ends] in H; [|exact H|exact I].
  destruct H as [H Hp]. split; [exact H|split; [exact Hp|]].
  intros issues. now apply finalCheck_finds_plans.
Qed.

End Declined.

Lemma declined_wizard_adds_only_plans_witness :
  declines decliningAnswers
  /\ match run npmHost (fun _ => true) (fun _ _ _ => "# shop") (fun _ => None) "shop"
             nodeDir decliningAnswers with
     | Done w' input' =>
         addsOnlyPlans nodeDir w'
         /\ existsSync w' "plans" = true
         /\ forall issues,
              runFinalChecks npmHost "/home/shop" "shop" w' input' = Some issues ->
              Forall (fun issue => ErrorRecovery.id issue <> "no_plans_directory") issues
     | Thrown w' _ => addsOnlyPlans nodeDir w'
     | Waiting => True
     end.
Proof.
  assert (Hd : declines decliningAnswers) by (unfold declines; repeat constructor).
  split; [exact Hd|].
  exact (declined_wizard_adds_only_plans npmHost (fun _ => true) (fun _ _ _ => "# shop")
           (fun _ => None) "/home/shop" "shop" nodeDir decliningAnswers Hd).
Defined.

(** The run of the witness completes, having read every line. *)
Example declined_wizard_completes :
  match run npmHost (fun _ => true) (fun _ _ _ => "# shop") (fun _ => None) "shop"
            nodeDir decliningAnswers with
  | Done w' input' => input' = [] /\ w' !! "plans/.gitkeep" = Some (File "")
  | _ => False
  end.
Proof. vm_compute. split; reflexivity. Qed.

End SetupWizardRunFacts.

(** ** The command line of the error recovery tool *)

Module ErrorRecoveryCLIFacts.
Import Node ErrorRecovery ErrorRecoveryCLI.

Lemma isOneOf_In names arg : isOneOf names arg = true <-> In arg names.
Proof.
  unfold isOneOf. rewrite existsb_exists. split.
  - intros (x & Hx & E). apply String.eqb_eq in E. now subst.
  - intros H. exists arg. split; [exact H|apply String.eqb_refl].
Qed.

Lemma parseArgs_standalone args : forall o,
  Forall (fun arg => standsAlone arg = true) args ->
  parseArgs args o
  = Some {| scan := scan o || existsb (isOneOf ["--scan"; "-s"]) args;
            auto := auto o || existsb (isOneOf ["--auto"; "-a"]) args;
            verboseFlag := verboseFlag o || existsb (isOneOf ["--verbose"; "-v"]) args;
            categoryArg := categoryArg o |}.
Proof.
  induction args as [|arg args IH]; intros o Hall.
  - cbn. rewrite !orb_false_r. now destruct o.
  - inversion Hall as [|? ? Harg Hall']; subst. cbn [parseArgs existsb].
    unfold standsAlone in Harg. apply negb_true_iff in Harg.
    destruct (isOneOf ["--scan"; "-s"] arg) eqn:E1.
    { rewrite IH by exact Hall'. cbn [scan auto verboseFlag categoryArg].
      apply isOneOf_In in E1. destruct E1 as [<-|[<-|[]]]; cbn;
        rewrite ?orb_true_r; reflexivity. }
    destruct (isOneOf ["--auto"; "-a"] arg) eqn:E2.
    { rewrite IH by exact Hall'. cbn [scan auto verboseFlag categoryArg].
      apply isOneOf_In in E2. destruct E2 as [<-|[<-|[]]]; cbn;
        rewrite ?orb_true_r; reflexivity. }
    destruct (isOneOf ["--category"; "-c"] arg) eqn:E3.
    { apply isOneOf_In in E3. destruct E3 as [<-|[<-|[]]]; discriminate. }
    destruct (isOneOf ["--verbose"; "-v"] arg) eqn:E4.
    { rewrite IH by exact Hall'. cbn [scan auto verboseFlag categoryArg].
      rewrite ?orb_true_r. reflexivity. }
    destruct (isOneOf ["--help"; "-h"] arg) eqn:E5.
    { apply isOneOf_In in E5. destruct E5 as [<-|[<-|[]]]; discriminate. }
    rewrite IH by exact Hall'. reflexivity.
Qed.

(** X27. The command line of the error recovery tool. Arguments that
    neither take a value nor ask for the help are read in any order and
    any number of times: each of --scan, --auto and --verbose (or its
    short form) counts when it occurs, anything else is passed over,
    and the category stays all. The argument after --category is taken
    for the category whatever it is; when it is itself an option of the
    tool, that option is not read, and since no category of that name
    exists no check runs: the tool reports a clean project and touches
    nothing. *)
Theorem command_line_of_error_recovery host cwd cwdName (w : fs) (input : list string) :
  (forall args,
     Forall (fun arg => standsAlone arg = true) args ->
     main host cwd cwdName args w input
     = Some (run host {| rootDir := cwd; rootName := cwdName;
                         autoFix := existsb (isOneOf ["--auto"; "-a"]) args;
                         scanOnly := existsb (isOneOf ["--scan"; "-s"]) args;
                         verbose := existsb (isOneOf ["--verbose"; "-v"]) args;
                         category := "all" |} w input))
  /\ (forall flag,
        isFlag flag = true ->
        main host cwd cwdName ["--category"; flag] w input = Some (Completed w [] [] input)
        /\ main host cwd cwdName ["-c"; flag] w input = Some (Completed w [] [] input)).
Proof.
  split.
  - intros args Hall. unfold main. rewrite (parseArgs_standalone args noFlags Hall).
    reflexivity.
  - intros flag Hflag. apply isOneOf_In in Hflag.
    assert (H : forall o, categoryArg o = Some flag ->
                  run host (optionsOf cwd cwdName o) w input = Completed w [] [] input).
    { intros o Ho. apply ErrorRecoveryRunFacts.run_unknown_category.
      unfold optionsOf. cbn [category]. rewrite Ho.
      cbn [In] in Hflag |- *.
      destruct Hflag as [<-|[<-|[<-|[<-|[<-|[<-|[<-|[<-|[<-|[<-|[]]]]]]]]]]];
        cbn; intros [H|[H|[H|[H|[H|[]]]]]]; discriminate H. }
    unfold main. cbn [parseArgs isOneOf existsb String.eqb Ascii.eqb Bool.eqb orb].
    cbn [mbind option_bind]. split; rewrite H; reflexivity.
Qed.

Lemma command_line_of_error_recovery_witness :
  main (constHost None) "/work/shop" "shop" ["-v"; "--fast"; "--auto"; "-v"] emptyDir
       ["Ann"; "ann@example.org"]
  = Some (run (constHost None)
              {| rootDir := "/work/shop"; rootName := "shop"; autoFix := true;
                 scanOnly := false; verbose := true; category := "all" |}
              emptyDir ["Ann"; "ann@example.org"])
  /\ main (constHost None) "/work/shop" "shop" ["--category"; "--auto"] emptyDir []
     = Some (Completed emptyDir [] [] []).
Proof.
  destruct (command_line_of_error_recovery (constHost None) "/work/shop" "shop" emptyDir
              ["Ann"; "ann@example.org"]) as [H1 _].
  destruct (command_line_of_error_recovery (constHost None) "/work/shop" "shop" emptyDir [])
    as [_ H2].
  split.
  - apply (H1 ["-v"; "--fast"; "--auto"; "-v"]). repeat constructor.
  - apply (H2 "--auto"). reflexivity.
Defined.

End ErrorRecoveryCLIFacts.
